(** * authextractor: a shallow embedding of the extraction pipeline

    The development follows the TypeScript sources of the repository:

    - [JsString], [Regex], [Glob]: the host primitives the extractors are
      written with ([String.prototype.includes], [split], [trim], [replace],
      backtracking regular expressions, [glob.sync]);
    - [RoleModel]: [extractRoleModel], [extractRoles], [extractPermissions],
      [extractHierarchy];
    - [TokenStrategy]: [extractTokenStrategy], [extractTokenLifetime];
    - [AuthProvider], [SessionStorage]: provider and session detection;
    - [PermissionCheck] (the extended detector) and [PermissionCheckLib]
      (the copy under [src/lib/extractor]);
    - [Extractor]: [extractAuthSystem]; [Generator]: the lookup helpers of
      the generated artifact; [Handler], [Acquisition]: the check of the
      repository URL and the download fallback of the request handler.

    Modelling conventions.

    - Text is a [string] of 8-bit characters, so the character classes
      [\w], [\d], [\s], [trim] and [toLowerCase] are the ASCII ones and
      lengths count bytes.
    - A working tree is the ordered list of its regular files (relative
      path, text); the order of the list is the enumeration order of
      [glob.sync], every call of which filters that list.  No directory of
      the tree carries a scanned extension, so every enumerated path can be
      read.  The path of the tree is absolute and normalised: the absolute
      path of a file is that path, a slash, and the relative path
      ([Fs.normalised] says so where a statement depends on it).
    - Of [package.json] the model keeps what the pipeline observes: whether
      it is there, whether reading it throws, and which of the three
      dependency entries are truthy.
    - Numbers read by [parseInt] are naturals ([N]); they agree with the
      numbers of the source wherever those are exact, that is up to 2^53,
      and a statement about a product of them carries that bound.
    - The pipeline calls the permission-check extractor that sits next to
      [extractor.ts] under [src/lib/extractor].
    - Of the generated artifact the model keeps the exported helpers, not
      the text. *)

From Stdlib Require Import String Ascii List Bool Arith NArith ZArith Lia.
From Stdlib Require Import DecimalString.
From Stdlib.Strings Require Import Byte.
Import ListNotations.
Open Scope string_scope.
Open Scope nat_scope.

(* ================================================================== *)
(** ** Strings as the source uses them *)

Module JsString.

(** [s.includes(needle)] *)
Fixpoint includes (needle s : string) : bool :=
  if String.prefix needle s then true
  else match s with
       | EmptyString => false
       | String _ t => includes needle t
       end.

(** [s.startsWith(p)] *)
Definition startsWith (p s : string) : bool := String.prefix p s.

Fixpoint drop (n : nat) (s : string) : string :=
  match n, s with
  | O, _ => s
  | S n', String _ t => drop n' t
  | S _, EmptyString => EmptyString
  end.

Fixpoint take (n : nat) (s : string) : string :=
  match n, s with
  | S n', String c t => String c (take n' t)
  | _, _ => EmptyString
  end.

(** [s.substring(0, n)] *)
Definition substring0 (n : nat) (s : string) : string := take n s.

(** [s.replace(pat, '')] with a string pattern: the first occurrence of
    [pat] is removed. *)
Fixpoint removeFirst (pat s : string) : string :=
  if String.prefix pat s then drop (String.length pat) s
  else match s with
       | EmptyString => EmptyString
       | String c t => String c (removeFirst pat t)
       end.

Definition isSpace (c : ascii) : bool :=
  let n := nat_of_ascii c in
  (n =? 32) || ((9 <=? n) && (n <=? 13)).

Definition isDigit (c : ascii) : bool :=
  let n := nat_of_ascii c in (48 <=? n) && (n <=? 57).

Definition isUpper (c : ascii) : bool :=
  let n := nat_of_ascii c in (65 <=? n) && (n <=? 90).

Definition isLower (c : ascii) : bool :=
  let n := nat_of_ascii c in (97 <=? n) && (n <=? 122).

(** the class [\w] *)
Definition isWord (c : ascii) : bool :=
  isUpper c || isLower c || isDigit c || (nat_of_ascii c =? 95).

Definition lowerChar (c : ascii) : ascii :=
  if isUpper c then ascii_of_nat (nat_of_ascii c + 32) else c.

(** [s.toLowerCase()] *)
Fixpoint toLowerCase (s : string) : string :=
  match s with
  | EmptyString => EmptyString
  | String c t => String (lowerChar c) (toLowerCase t)
  end.

Fixpoint trimStart (s : string) : string :=
  match s with
  | String c t => if isSpace c then trimStart t else s
  | EmptyString => EmptyString
  end.

(** [trimEnd] keeps a character when it is not a space or when something
    is kept after it. *)
Fixpoint trimEnd (s : string) : string :=
  match s with
  | EmptyString => EmptyString
  | String c t =>
      match trimEnd t with
      | EmptyString => if isSpace c then EmptyString else String c EmptyString
      | t' => String c t'
      end
  end.

(** [s.trim()] *)
Definition trim (s : string) : string := trimEnd (trimStart s).

(** [s.split(sep)] for a one-character separator; the result is never
    empty: [''.split(',')] is [['']]. *)
Fixpoint splitAux (sep : ascii) (s : string) : string * list string :=
  match s with
  | EmptyString => (EmptyString, [])
  | String c t =>
      let '(cur, rest) := splitAux sep t in
      if Ascii.eqb c sep then (EmptyString, cur :: rest)
      else (String c cur, rest)
  end.

Definition split (sep : ascii) (s : string) : list string :=
  let '(cur, rest) := splitAux sep s in cur :: rest.

(** the double quote, code 34 *)
Definition dquote : ascii := "034"%char.
Definition dq : string := String dquote EmptyString.

Definition isQuote (c : ascii) : bool :=
  Ascii.eqb c dquote || Ascii.eqb c "'"%char.

(** [s.replace(/[QUOTES]/g, '')], the class holding both quote
    characters *)
Fixpoint stripQuotes (s : string) : string :=
  match s with
  | EmptyString => EmptyString
  | String c t =>
      if isQuote c
      then stripQuotes t else String c (stripQuotes t)
  end.

(** [xs.join(sep)] *)
Fixpoint join (sep : string) (xs : list string) : string :=
  match xs with
  | [] => EmptyString
  | [x] => x
  | x :: rest => x ++ sep ++ join sep rest
  end.

(** [parseInt] on a run of decimal digits *)
Fixpoint parseDigits (acc : N) (s : string) : N :=
  match s with
  | String c t =>
      if isDigit c
      then parseDigits (acc * 10 + N.of_nat (nat_of_ascii c - 48))%N t
      else acc
  | EmptyString => acc
  end.

Definition parseInt (s : string) : N := parseDigits 0%N s.

(** [String(n)] for a natural number *)
Definition numberToString (n : N) : string := NilZero.string_of_uint (N.to_uint n).

(** the last element of [s.split('/')], as [pop()] returns it *)
Definition lastSegment (s : string) : string :=
  List.last (split "/"%char s) EmptyString.

End JsString.

(* ================================================================== *)
(** ** Backtracking regular expressions

    The matcher follows the ECMAScript semantics for the constructs the
    sources use: ordered alternation, greedy and lazy repetition with
    backtracking, capture groups, [^] and [$] without the [m] flag.  A
    repetition refuses an iteration that consumes nothing. *)

Module Regex.

Inductive regex : Type :=
| REps
| RChar (p : ascii -> bool)
| RStr (s : string)
| RSeq (a b : regex)
| RAlt (a b : regex)
| RStar (a : regex)
| RLazy (a : regex)
| RGroup (i : nat) (a : regex)
| RBegin
| REnd.

Definition RPlus (a : regex) : regex := RSeq a (RStar a).
Definition RLazyPlus (a : regex) : regex := RSeq a (RLazy a).
Definition ROpt (a : regex) : regex := RAlt a REps.

Fixpoint RCat (rs : list regex) : regex :=
  match rs with
  | [] => REps
  | [r] => r
  | r :: rest => RSeq r (RCat rest)
  end.

(** character classes *)
Definition cls_s : ascii -> bool := JsString.isSpace.
Definition cls_w : ascii -> bool := JsString.isWord.
Definition cls_d : ascii -> bool := JsString.isDigit.
Definition cls_any : ascii -> bool := fun _ => true.
(** [.] without the [s] flag *)
Definition cls_dot : ascii -> bool :=
  fun c => negb ((nat_of_ascii c =? 10) || (nat_of_ascii c =? 13)).
Definition cls_is (x : ascii) : ascii -> bool := fun c => Ascii.eqb c x.
Definition cls_not (x : ascii) : ascii -> bool := fun c => negb (Ascii.eqb c x).
Definition cls_quote : ascii -> bool := JsString.isQuote.

Definition Caps := list (nat * (nat * nat)).
Definition Cont := nat -> string -> Caps -> option (nat * Caps).

Fixpoint stripPrefix (lit s : string) : option string :=
  match lit, s with
  | EmptyString, _ => Some s
  | String a lit', String b s' =>
      if Ascii.eqb a b then stripPrefix lit' s' else None
  | String _ _, EmptyString => None
  end.

(** The loop of a greedy repetition: try one more iteration of [step],
    which must consume something, and fall back to leaving the loop.  Each
    iteration consumes at least one character, so [fuel = length s] rounds
    cover every run of the loop (see [starLoop_fuel]). *)
Fixpoint starLoop (step : nat -> string -> Caps -> Cont -> option (nat * Caps))
  (k : Cont) (fuel pos : nat) (s : string) (caps : Caps) {struct fuel}
  : option (nat * Caps) :=
  match fuel with
  | O => k pos s caps
  | S fuel' =>
      match step pos s caps
              (fun pos' s' caps' =>
                 if pos' =? pos then None else starLoop step k fuel' pos' s' caps') with
      | Some x => Some x
      | None => k pos s caps
      end
  end.

(** The loop of a lazy repetition: leave the loop if the rest matches,
    otherwise try one more iteration. *)
Fixpoint lazyLoop (step : nat -> string -> Caps -> Cont -> option (nat * Caps))
  (k : Cont) (fuel pos : nat) (s : string) (caps : Caps) {struct fuel}
  : option (nat * Caps) :=
  match fuel with
  | O => k pos s caps
  | S fuel' =>
      match k pos s caps with
      | Some x => Some x
      | None =>
          step pos s caps
            (fun pos' s' caps' =>
               if pos' =? pos then None else lazyLoop step k fuel' pos' s' caps')
      end
  end.

(** [rmatch r pos s caps k]: match [r] against the text [s] that starts at
    offset [pos] of the subject, then continue with [k]. *)
Fixpoint rmatch (r : regex) (pos : nat) (s : string) (caps : Caps) (k : Cont)
  {struct r} : option (nat * Caps) :=
  match r with
  | REps => k pos s caps
  | RChar p =>
      match s with
      | String c s' => if p c then k (S pos) s' caps else None
      | EmptyString => None
      end
  | RStr lit =>
      match stripPrefix lit s with
      | Some s' => k (pos + String.length lit) s' caps
      | None => None
      end
  | RSeq a b =>
      rmatch a pos s caps (fun pos' s' caps' => rmatch b pos' s' caps' k)
  | RAlt a b =>
      match rmatch a pos s caps k with
      | Some x => Some x
      | None => rmatch b pos s caps k
      end
  | RStar a => starLoop (rmatch a) k (String.length s) pos s caps
  | RLazy a => lazyLoop (rmatch a) k (String.length s) pos s caps
  | RGroup i a =>
      rmatch a pos s caps (fun pos' s' caps' => k pos' s' ((i, (pos, pos')) :: caps'))
  | RBegin => if pos =? 0 then k pos s caps else None
  | REnd =>
      match s with
      | EmptyString => k pos s caps
      | String _ _ => None
      end
  end.

(** [later pos s pos' s']: the text [s'] at offset [pos'] is a suffix of the
    text [s] at offset [pos]; continuations are only called on such
    suffixes. *)
Definition later (pos : nat) (s : string) (pos' : nat) (s' : string) : Prop :=
  String.length s' <= String.length s /\
  pos' + String.length s' = pos + String.length s.

(** does the expression hold a [^]? *)
Fixpoint anchored (r : regex) : bool :=
  match r with
  | RBegin => true
  | RSeq a b | RAlt a b => anchored a || anchored b
  | RStar a | RLazy a | RGroup _ a => anchored a
  | _ => false
  end.

(** the least number of characters a match of the expression consumes *)
Fixpoint minLength (r : regex) : nat :=
  match r with
  | RChar _ => 1
  | RStr lit => String.length lit
  | RSeq a b => minLength a + minLength b
  | RAlt a b => Nat.min (minLength a) (minLength b)
  | RGroup _ a => minLength a
  | _ => 0
  end.

(** captures and results moved [d] characters to the right *)
Definition shiftCaps (d : nat) (caps : Caps) : Caps :=
  map (fun c => (fst c, (d + fst (snd c), d + snd (snd c)))) caps.

Definition shiftResult (d : nat) (x : nat * Caps) : nat * Caps :=
  (d + fst x, shiftCaps d (snd x)).

Definition accept : Cont := fun pos _ caps => Some (pos, caps).

(** One result of [exec]: where the match starts and ends, and the
    captures. *)
Record MatchResult := mkMatch {
  subject : string;
  mstart : nat;
  mend : nat;
  mcaps : Caps
}.

Fixpoint lookupCap (i : nat) (caps : Caps) : option (nat * nat) :=
  match caps with
  | [] => None
  | (j, span) :: rest => if i =? j then Some span else lookupCap i rest
  end.

(** [m[i]]; [None] is [undefined] (a group that did not take part). *)
Definition group (m : MatchResult) (i : nat) : option string :=
  match lookupCap i (mcaps m) with
  | Some (a, b) => Some (JsString.take (b - a) (JsString.drop a (subject m)))
  | None => None
  end.

(** the whole match, [m[0]] *)
Definition whole (m : MatchResult) : string :=
  JsString.take (mend m - mstart m) (JsString.drop (mstart m) (subject m)).

(** a match found in a text, seen in a subject that has [length pre] more
    characters in front *)
Definition shiftMatch (pre : string) (m : MatchResult) : MatchResult :=
  mkMatch (pre ++ subject m) (String.length pre + mstart m)
          (String.length pre + mend m) (shiftCaps (String.length pre) (mcaps m)).

(** the literal [lit] starts nowhere inside [pre], in the text [pre ++ s] *)
Fixpoint startsNowhere (lit pre s : string) : bool :=
  match pre with
  | EmptyString => true
  | String c pre' =>
      match stripPrefix lit (String c (pre' ++ s)) with
      | Some _ => false
      | None => startsNowhere lit pre' s
      end
  end.

(** leftmost match at or after [pos]; [s] is the subject from [pos] on *)
Fixpoint searchFrom (subj : string) (r : regex) (pos : nat) (s : string)
  : option MatchResult :=
  match rmatch r pos s [] accept with
  | Some (e, caps) => Some (mkMatch subj pos e caps)
  | None =>
      match s with
      | EmptyString => None
      | String _ s' => searchFrom subj r (S pos) s'
      end
  end.

(** [s.match(r)] for a regular expression without the [g] flag *)
Definition jsMatch (r : regex) (s : string) : option MatchResult :=
  searchFrom s r 0 s.

(** The loop [while ((m = r.exec(s)) !== null)] for a regular expression
    with the [g] flag: every match, each search resuming at the end of the
    previous match ([lastIndex]).  The patterns of the sources never match
    the empty string, so [fuel = length s + 1] rounds are enough (see
    [execLoop_fuel]). *)
Fixpoint execLoop (fuel : nat) (subj : string) (r : regex) (pos : nat) (s : string)
  : list MatchResult :=
  match fuel with
  | O => []
  | S fuel' =>
      match searchFrom subj r pos s with
      | None => []
      | Some m =>
          m :: execLoop fuel' subj r (mend m) (JsString.drop (mend m - pos) s)
      end
  end.

Definition execAll (r : regex) (s : string) : list MatchResult :=
  execLoop (S (String.length s)) s r 0 s.

End Regex.

(* ================================================================== *)
(** ** Characters of a text *)

Module Chars.

(** every character of [s] satisfies [p] *)
Fixpoint every (p : ascii -> bool) (s : string) : bool :=
  match s with
  | EmptyString => true
  | String c t => p c && every p t
  end.

(** how many times the character [c] occurs in [s] *)
Fixpoint count (c : ascii) (s : string) : nat :=
  match s with
  | EmptyString => 0
  | String d t => (if Ascii.eqb d c then 1 else 0) + count c t
  end.

End Chars.

(* ================================================================== *)
(** ** Literals an expression cannot match without *)

Module RegexLiterals.
Import Regex.

(** A sufficient test that every match of [r] holds the text [lit]: a
    literal of the expression holds it, in some factor of a sequence or in
    every branch of an alternative. *)
Fixpoint requires (lit : string) (r : regex) : bool :=
  match r with
  | RStr l => JsString.includes lit l
  | RSeq a b => requires lit a || requires lit b
  | RAlt a b => requires lit a && requires lit b
  | RGroup _ a => requires lit a
  | _ => false
  end.

End RegexLiterals.

(* ================================================================== *)
(** ** [glob.sync]

    A pattern is a list of path segments.  Inside a segment, [*] matches any
    run of characters, a bracket expression matches ONE character of its
    set, and a brace list matches one of its alternatives.  The segment [**]
    matches any number of directories.  As in the library's default mode, a
    name that begins with a dot is matched only by a segment that begins
    with a literal dot. *)

Module Glob.

Inductive atom : Type :=
| ALit (s : string)
| AStar
| AClass (p : ascii -> bool)
| ABrace (alts : list string).

Inductive segment : Type :=
| GlobStar
| Seg (atoms : list atom).

Definition pattern := list segment.

(** some suffix of [s] satisfies [f] *)
Fixpoint anySuffix (f : string -> bool) (s : string) : bool :=
  f s ||
  match s with
  | String _ t => anySuffix f t
  | EmptyString => false
  end.

Fixpoint matchAtoms (atoms : list atom) (s : string) {struct atoms} : bool :=
  match atoms with
  | [] => match s with EmptyString => true | _ => false end
  | ALit l :: rest =>
      match Regex.stripPrefix l s with
      | Some s' => matchAtoms rest s'
      | None => false
      end
  | AStar :: rest => anySuffix (matchAtoms rest) s
  | AClass p :: rest =>
      match s with
      | String c t => p c && matchAtoms rest t
      | EmptyString => false
      end
  | ABrace alts :: rest =>
      existsb (fun a => match Regex.stripPrefix a s with
                        | Some s' => matchAtoms rest s'
                        | None => false
                        end) alts
  end.

Definition dotName (name : string) : bool := JsString.startsWith "." name.

Definition dotOk (atoms : list atom) (name : string) : bool :=
  if dotName name then
    match atoms with
    | ALit l :: _ => JsString.startsWith "." l
    | _ => false
    end
  else true.

Definition matchSegment (atoms : list atom) (name : string) : bool :=
  dotOk atoms name && matchAtoms atoms name.

(** [f] holds of the names left after skipping some leading directories,
    none of them a dot name *)
Fixpoint anyTail (f : list string -> bool) (names : list string) : bool :=
  f names ||
  match names with
  | n :: ns => negb (dotName n) && anyTail f ns
  | [] => false
  end.

Fixpoint matchSegs (pat : pattern) (names : list string) {struct pat} : bool :=
  match pat with
  | [] => match names with [] => true | _ => false end
  | GlobStar :: rest => anyTail (matchSegs rest) names
  | Seg atoms :: rest =>
      match names with
      | n :: ns => matchSegment atoms n && matchSegs rest ns
      | [] => false
      end
  end.

(** does the relative path match the pattern? *)
Definition matches (pat : pattern) (rel : string) : bool :=
  matchSegs pat (JsString.split "/"%char rel).

(** the extension lists of the sources *)
Definition ts_tsx_js : atom := ABrace ["ts"; "tsx"; "js"].
Definition tsx_jsx : atom := ABrace ["tsx"; "jsx"].

(** the bracket expression of the pattern written [[...nextauth]]: the
    set of the characters between the brackets *)
Definition class_nextauth : ascii -> bool :=
  fun c => existsb (Ascii.eqb c)
             ["."; "n"; "e"; "x"; "t"; "a"; "u"; "h"]%char.

End Glob.

(* ================================================================== *)
(** ** The file system the extractors read *)

Module Fs.

(** What the pipeline observes of [package.json]: either parsing it (or
    reading its [dependencies]) throws, or the three dependency entries
    are or are not truthy. *)
Inductive PackageJson : Type :=
| Unparsable
| Dependencies (next react express : bool).

Record WorkingTree := {
  files : list (string * string);
  packageJson : option PackageJson
}.

(** [fs p] is the tree rooted at the directory [p], if [p] exists. *)
Definition FileSystem := string -> option WorkingTree.

(** an enumerated file: its absolute path, and the text
    [readFileSync(path, 'utf-8')] returns for it *)
Record File := { path : string; content : string }.

(** [existsSync(repoPath)] *)
Definition existsSync (fs : FileSystem) (repoPath : string) : bool :=
  match fs repoPath with Some _ => true | None => false end.

(** [existsSync(join(repoPath, rel))] for a file name [rel] *)
Definition existsFile (fs : FileSystem) (repoPath rel : string) : bool :=
  match fs repoPath with
  | Some t => existsb (fun f => String.eqb (fst f) rel) (files t)
  | None => false
  end.

Definition absolute (repoPath rel : string) : string := repoPath ++ "/" ++ rel.

(** A path as [path.resolve] leaves it on a POSIX host: it begins with a
    slash, is not the root directory, and has no empty component (so no
    trailing slash), no [.] and no [..].  For the files below such a path
    [absolute] is the path [glob.sync] returns. *)
Definition normalised (p : string) : bool :=
  match JsString.split "/" p with
  | first :: (_ :: _) as components =>
      String.eqb first "" &&
      forallb (fun c => negb (String.eqb c "") && negb (String.eqb c ".") &&
                        negb (String.eqb c ".."))
              components
  | _ => false
  end.

(** [glob.sync(pattern, { cwd: repoPath, absolute: true })] *)
Definition globSync (fs : FileSystem) (pat : Glob.pattern) (repoPath : string)
  : list File :=
  match fs repoPath with
  | Some t =>
      map (fun f => {| path := absolute repoPath (fst f); content := snd f |})
          (filter (fun f => Glob.matches pat (fst f)) (files t))
  | None => []
  end.

(** [**/*.{ts,tsx,js}] *)
Definition pat_sources : Glob.pattern :=
  [Glob.GlobStar; Glob.Seg [Glob.AStar; Glob.ALit "."; Glob.ts_tsx_js]].

End Fs.

(* ================================================================== *)
(** ** [Map] and plain objects: insertion-ordered association lists *)

Module JsMap.

Section Ordered.
Context {V : Type}.

(** [m.set(k, v)]: an existing key keeps its place and takes the new
    value, a new key goes last. *)
Fixpoint set (k : string) (v : V) (m : list (string * V)) : list (string * V) :=
  match m with
  | [] => [(k, v)]
  | (k', v') :: rest =>
      if String.eqb k' k then (k, v) :: rest else (k', v') :: set k v rest
  end.

(** [new Map(entries)]: the entries are set one after the other *)
Definition step (m : list (string * V)) (e : string * V) : list (string * V) :=
  set (fst e) (snd e) m.

Definition ofEntries (es : list (string * V)) : list (string * V) :=
  fold_left step es [].

Fixpoint get (k : string) (m : list (string * V)) : option V :=
  match m with
  | [] => None
  | (k', v) :: rest => if String.eqb k' k then Some v else get k rest
  end.

(** [Array.from(m.values())] *)
Definition values (m : list (string * V)) : list V := map snd m.
Definition keys (m : list (string * V)) : list string := map fst m.
End Ordered.

End JsMap.

(* ================================================================== *)
(** ** Role-model extractor *)

Module RoleModel.
Import Regex.

Record RoleDefinition := { name : string; permissions : list string }.
Record PermissionDefinition := { pname : string }.

Record RoleModelImplementation := {
  filePath : string;
  template : string;
  checkPattern : string
}.

(** A value stored under a key of [levelMap]: a level of the table, or a
    member the object literal inherits from [Object.prototype]. *)
Inductive LevelValue : Type :=
| Level (n : N)
| Inherited (member : string).

Record RoleHierarchy := { levels : list (string * LevelValue) }.

Record RoleModelResult := {
  roles : list RoleDefinition;
  permissions_ : list PermissionDefinition;
  implementation : RoleModelImplementation;
  hierarchy : option RoleHierarchy
}.

Definition ws : regex := RStar (RChar cls_s).
Definition ws1 : regex := RPlus (RChar cls_s).
Definition declKeyword : regex := RAlt (RStr "const") (RAlt (RStr "let") (RStr "var")).
Definition quoted (g : nat) : regex :=
  RCat [RChar cls_quote; RGroup g (RPlus (RChar cls_w)); RChar cls_quote].

(** [/(?:const|let|var)\s+roles?\s*=\s*\[([^\]]+)\]/s] *)
Definition roleArrayPattern : regex :=
  RCat [declKeyword; ws1; RStr "role"; ROpt (RStr "s"); ws; RStr "="; ws;
        RStr "["; RGroup 1 (RPlus (RChar (cls_not "]"%char))); RStr "]"].

(** [/(?:const|let|var)\s+roles?\s*=\s*\{([^}]+)\}/s] *)
Definition roleObjectPattern : regex :=
  RCat [declKeyword; ws1; RStr "role"; ROpt (RStr "s"); ws; RStr "="; ws;
        RStr "{"; RGroup 1 (RPlus (RChar (cls_not "}"%char))); RStr "}"].

(** [/(\w+):\s*\[([^\]]+)\]/] *)
Definition roleEntryPattern : regex :=
  RCat [RGroup 1 (RPlus (RChar cls_w)); RStr ":"; ws;
        RStr "["; RGroup 2 (RPlus (RChar (cls_not "]"%char))); RStr "]"].

(** [/user\.role\s*[=:]\s*[QUOTE](\w+)[QUOTE]/g] *)
Definition userRolePattern : regex :=
  RCat [RStr "user.role"; ws;
        RChar (fun c => Ascii.eqb c "="%char || Ascii.eqb c ":"%char); ws;
        quoted 1].

Definition commonRoles : list string :=
  ["admin"; "user"; "viewer"; "editor"; "moderator"; "guest"].

(** [roles.find(r => r.name === roleName)], as a test *)
Definition hasRole (roleName : string) (rs : list RoleDefinition) : bool :=
  existsb (fun r => String.eqb (name r) roleName) rs.

(** [s.trim().replace(/[QUOTES]/g, '')] *)
Definition cleanItem (s : string) : string := JsString.stripQuotes (JsString.trim s).

Definition pushArrayRoles (content : string) (rs : list RoleDefinition)
  : list RoleDefinition :=
  match jsMatch roleArrayPattern content with
  | Some m =>
      match group m 1 with
      | Some body =>
          let roleStrings := map cleanItem (JsString.split ","%char body) in
          fold_left (fun acc roleName =>
                       if String.eqb roleName "" then acc
                       else (acc ++ [{| name := roleName; permissions := [] |}])%list)
                    roleStrings rs
      | None => rs
      end
  | None => rs
  end.

Definition pushObjectRoles (content : string) (rs : list RoleDefinition)
  : list RoleDefinition :=
  match jsMatch roleObjectPattern content with
  | Some m =>
      match group m 1 with
      | Some body =>
          let roleEntries := map JsString.trim (JsString.split ","%char body) in
          fold_left (fun acc entry =>
                       match jsMatch roleEntryPattern entry with
                       | Some em =>
                           match group em 1, group em 2 with
                           | Some roleName, Some perms =>
                               (acc ++ [{| name := roleName;
                                           permissions :=
                                             map cleanItem (JsString.split ","%char perms) |}])%list
                           | _, _ => acc
                           end
                       | None => acc
                       end)
                    roleEntries rs
      | None => rs
      end
  | None => rs
  end.

(** the four literal idioms tested for a common role name *)
Definition mentionsRole (content roleName : string) : bool :=
  JsString.includes ("role === " ++ JsString.dq ++ roleName ++ JsString.dq) content ||
  JsString.includes ("role === '" ++ roleName ++ "'") content ||
  JsString.includes ("role: " ++ JsString.dq ++ roleName ++ JsString.dq) content ||
  JsString.includes ("role: '" ++ roleName ++ "'") content.

Definition pushIfNew (roleName : string) (acc : list RoleDefinition)
  : list RoleDefinition :=
  if hasRole roleName acc then acc
  else (acc ++ [{| name := roleName; permissions := [] |}])%list.

Definition pushCommonRoles (content : string) (rs : list RoleDefinition)
  : list RoleDefinition :=
  fold_left (fun acc roleName =>
               if mentionsRole content roleName then pushIfNew roleName acc else acc)
            commonRoles rs.

Definition pushUserRoles (content : string) (rs : list RoleDefinition)
  : list RoleDefinition :=
  fold_left (fun acc m =>
               match group m 1 with
               | Some roleName => pushIfNew roleName acc
               | None => acc
               end)
            (execAll userRolePattern content) rs.

Definition extractRoles (content : string) : list RoleDefinition :=
  pushUserRoles content
    (pushCommonRoles content
       (pushObjectRoles content
          (pushArrayRoles content []))).

(** [/(?:const|let|var)\s+permissions?\s*=\s*\[([^\]]+)\]/s] *)
Definition permissionArrayPattern : regex :=
  RCat [declKeyword; ws1; RStr "permission"; ROpt (RStr "s"); ws; RStr "="; ws;
        RStr "["; RGroup 1 (RPlus (RChar (cls_not "]"%char))); RStr "]"].

(** [/(?:hasPermission|can|checkPermission)\s*\([^,]+,\s*[QUOTE](\w+)[QUOTE]/g] *)
Definition permissionCheckPattern : regex :=
  RCat [RAlt (RStr "hasPermission") (RAlt (RStr "can") (RStr "checkPermission"));
        ws; RStr "("; RPlus (RChar (cls_not ","%char)); RStr ","; ws; quoted 1].

Definition commonPermissions : list string :=
  ["read"; "write"; "delete"; "update"; "create"; "view"; "edit"; "admin"].

Definition hasPermission (permName : string) (ps : list PermissionDefinition) : bool :=
  existsb (fun p => String.eqb (pname p) permName) ps.

Definition pushPermIfNew (permName : string) (acc : list PermissionDefinition)
  : list PermissionDefinition :=
  if hasPermission permName acc then acc
  else (acc ++ [{| pname := permName |}])%list.

Definition mentionsPermission (content permName : string) : bool :=
  JsString.includes ("permission === " ++ JsString.dq ++ permName ++ JsString.dq) content ||
  JsString.includes ("permission === '" ++ permName ++ "'") content.

Definition extractPermissions (content : string) : list PermissionDefinition :=
  let fromArray :=
    match jsMatch permissionArrayPattern content with
    | Some m =>
        match group m 1 with
        | Some body =>
            fold_left (fun acc permName =>
                         if String.eqb permName "" then acc
                         else (acc ++ [{| pname := permName |}])%list)
                      (map cleanItem (JsString.split ","%char body)) []
        | None => []
        end
    | None => []
    end in
  let fromChecks :=
    fold_left (fun acc m =>
                 match group m 1 with
                 | Some permName => pushPermIfNew permName acc
                 | None => acc
                 end)
              (execAll permissionCheckPattern content) fromArray in
  fold_left (fun acc permName =>
               if mentionsPermission content permName then pushPermIfNew permName acc
               else acc)
            commonPermissions fromChecks.

Definition notBrace : regex := RChar (cls_not "}"%char).

(** The body shape shared by several patterns, as capture group [g]: one
    or more characters other than a closing brace, then any number of
    times an inner block (an opening brace, characters other than a closing
    brace, a closing brace) followed by characters other than a closing
    brace.  It is written BODY below. *)
Definition bracedBody (g : nat) : regex :=
  RGroup g (RSeq (RPlus notBrace)
                 (RStar (RCat [RStr "{"; RStar notBrace; RStr "}"; RStar notBrace]))).

(** [/(?:function|const)\s+\w*[Rr]ole\w*\s*[=\(].*?\{BODY\}/s] *)
Definition roleCheckPattern : regex :=
  RCat [RAlt (RStr "function") (RStr "const"); ws1; RStar (RChar cls_w);
        RChar (fun c => Ascii.eqb c "R"%char || Ascii.eqb c "r"%char); RStr "ole";
        RStar (RChar cls_w); ws;
        RChar (fun c => Ascii.eqb c "="%char || Ascii.eqb c "("%char);
        RLazy (RChar cls_any); RStr "{"; bracedBody 1; RStr "}"].

(** [[=!]==] *)
Definition strictOp : regex :=
  RSeq (RChar (fun c => Ascii.eqb c "="%char || Ascii.eqb c "!"%char)) (RStr "==").

(** [/(?:user\.role|role)\s*[=!]==\s*[QUOTE](\w+)[QUOTE]/] *)
Definition inlineCheckPattern : regex :=
  RCat [RAlt (RStr "user.role") (RStr "role"); ws; strictOp; ws; quoted 1].

(** [/if\s*\([^)]*role[^)]*\)\s*\{([^}]+)\}/s] *)
Definition conditionCheckPattern : regex :=
  RCat [RStr "if"; ws; RStr "("; RStar (RChar (cls_not ")"%char)); RStr "role";
        RStar (RChar (cls_not ")"%char)); RStr ")"; ws; RStr "{";
        RGroup 1 (RPlus notBrace); RStr "}"].

(** [None] is [null]. *)
Definition extractRoleCheckPattern (content : string) : option string :=
  match jsMatch roleCheckPattern content with
  | Some m => option_map JsString.trim (group m 1)
  | None =>
      match jsMatch inlineCheckPattern content with
      | Some m =>
          option_map (fun r => "role === " ++ JsString.dq ++ r ++ JsString.dq) (group m 1)
      | None =>
          match jsMatch conditionCheckPattern content with
          | Some m => option_map JsString.trim (group m 1)
          | None => None
          end
      end
  end.

(** The object literal [levelMap], read with a computed key: its own six
    entries, then what it inherits from [Object.prototype]. *)
Definition objectPrototypeMembers : list string :=
  ["constructor"; "__proto__"; "hasOwnProperty"; "isPrototypeOf";
   "propertyIsEnumerable"; "toLocaleString"; "toString"; "valueOf";
   "__defineGetter__"; "__defineSetter__"; "__lookupGetter__"; "__lookupSetter__"].

Definition levelTable : list (string * N) :=
  [("admin", 3%N); ("moderator", 2%N); ("editor", 2%N);
   ("user", 1%N); ("viewer", 1%N); ("guest", 0%N)].

Definition levelMap (key : string) : option LevelValue :=
  match JsMap.get key levelTable with
  | Some n => Some (Level n)
  | None =>
      if existsb (String.eqb key) objectPrototypeMembers
      then Some (Inherited key) else None
  end.

(** the truthiness test of [if (levelMap[...])] *)
Definition truthy (v : option LevelValue) : bool :=
  match v with
  | Some (Level n) => negb (N.eqb n 0)
  | Some (Inherited _) => true
  | None => false
  end.

(** [hierarchy[key] = v] on a plain object: assigning to [__proto__] adds
    no own property. *)
Definition assign (key : string) (v : LevelValue) (h : list (string * LevelValue))
  : list (string * LevelValue) :=
  if String.eqb key "__proto__" then h else JsMap.set key v h.

(** the body of [roles.forEach] *)
Definition noteLevel (h : list (string * LevelValue)) (role : RoleDefinition)
  : list (string * LevelValue) :=
  let v := levelMap (JsString.toLowerCase (name role)) in
  if truthy v then
    match v with
    | Some x => assign (name role) x h
    | None => h
    end
  else h.

Definition extractHierarchy (rs : list RoleDefinition) : option RoleHierarchy :=
  let hierarchy := fold_left noteLevel rs [] in
  match JsMap.keys hierarchy with
  | [] => None
  | _ => Some {| levels := hierarchy |}
  end.

Definition isRoleFile (content : string) : bool :=
  JsString.includes "role" content ||
  JsString.includes "Role" content ||
  JsString.includes "permission" content ||
  JsString.includes "Permission" content ||
  JsString.includes "admin" content ||
  JsString.includes "user" content ||
  JsString.includes "RBAC" content ||
  JsString.includes "ABAC" content.

Definition roleFiles (fs : Fs.FileSystem) (repoPath : string) : list Fs.File :=
  filter (fun f => isRoleFile (Fs.content f)) (Fs.globSync fs Fs.pat_sources repoPath).

(** the candidates pushed by the loop over [roleFiles], in order *)
Definition gatheredRoles (fs : Fs.FileSystem) (repoPath : string) : list RoleDefinition :=
  flat_map (fun f => extractRoles (Fs.content f)) (roleFiles fs repoPath).

Definition gatheredPermissions (fs : Fs.FileSystem) (repoPath : string)
  : list PermissionDefinition :=
  flat_map (fun f => extractPermissions (Fs.content f)) (roleFiles fs repoPath).

Definition emptyImplementation : RoleModelImplementation :=
  {| filePath := ""; template := ""; checkPattern := "" |}.

Definition noteImplementation (repoPath : string)
  (impl : RoleModelImplementation) (f : Fs.File) : RoleModelImplementation :=
  match extractRoleCheckPattern (Fs.content f) with
  | Some roleCheck =>
      if negb (String.eqb roleCheck "") && String.eqb (checkPattern impl) ""
      then {| filePath := JsString.removeFirst repoPath (Fs.path f);
              template := JsString.substring0 1000 (Fs.content f);
              checkPattern := roleCheck |}
      else impl
  | None => impl
  end.

(** [Array.from(new Map(xs.map(x => [key(x), x])).values())] *)
Definition uniqueBy {V : Type} (key : V -> string) (xs : list V) : list V :=
  JsMap.values (JsMap.ofEntries (map (fun x => (key x, x)) xs)).

Definition extractRoleModel (fs : Fs.FileSystem) (repoPath : string) : RoleModelResult :=
  let files := roleFiles fs repoPath in
  let roles := gatheredRoles fs repoPath in
  let permissions := gatheredPermissions fs repoPath in
  let implementation := fold_left (noteImplementation repoPath) files emptyImplementation in
  let uniqueRoles := uniqueBy name roles in
  let uniquePermissions := uniqueBy pname permissions in
  {| roles := uniqueRoles;
     permissions_ := uniquePermissions;
     implementation := implementation;
     hierarchy := extractHierarchy uniqueRoles |}.

End RoleModel.

(* ================================================================== *)
(** ** Token-strategy extractor *)

Module TokenStrategy.
Import Regex.

Record TokenConfig := {
  lifetime : N;
  storage : string;
  httpOnly : option bool;
  secure : option bool;
  sameSite : option string
}.

Record RefreshStrategy := {
  type : string;
  trigger : string;
  interval : option N;
  implementation : string;
  filePath : option string
}.

Record TokenStrategyImplementation := {
  implFilePath : string;
  template : string;
  refreshLogic : option string
}.

Record TokenStrategyResult := {
  accessToken : TokenConfig;
  refreshToken : option TokenConfig;
  refreshStrategy : RefreshStrategy;
  tokenImplementation : TokenStrategyImplementation
}.

(** The token names spliced into the patterns below hold no
    metacharacter, so each stands for itself. *)
Definition ws : regex := RStar (RChar cls_s).
Definition digits (g : nat) : regex := RGroup g (RPlus (RChar cls_d)).
Definition notClose : regex := RStar (RChar (cls_not "}"%char)).
Definition notColon : regex := RStar (RChar (cls_not ":"%char)).

(** [new RegExp(`${tokenName}[^}]*maxAge:\\s*(\\d+)`, 's')] *)
Definition maxAgePattern (tokenName : string) : regex :=
  RCat [RStr tokenName; notClose; RStr "maxAge:"; ws; digits 1].

(** [new RegExp(`${tokenName}[^}]*expires_in[^:]*:\\s*(\\d+)`, 's')] *)
Definition expiresPattern (tokenName : string) : regex :=
  RCat [RStr tokenName; notClose; RStr "expires_in"; notColon; RStr ":"; ws; digits 1].

(** [new RegExp(`${tokenName}[^}]*expiresIn[^:]*:\\s*(\\d+)`, 's')] *)
Definition expiresInPattern (tokenName : string) : regex :=
  RCat [RStr tokenName; notClose; RStr "expiresIn"; notColon; RStr ":"; ws; digits 1].

(** [parseInt(m[1])] of the first of the patterns that matches *)
Definition firstNumber (content : string) (pats : list regex) : option N :=
  fold_right (fun pat later =>
                match jsMatch pat content with
                | Some m => option_map JsString.parseInt (group m 1)
                | None => later
                end)
             None pats.

(** [None] is [null]. *)
Fixpoint extractTokenLifetime (content : string) (tokenNames : list string) : option N :=
  match tokenNames with
  | [] => None
  | tokenName :: rest =>
      match firstNumber content
              [maxAgePattern tokenName; expiresPattern tokenName;
               expiresInPattern tokenName] with
      | Some n => Some n
      | None => extractTokenLifetime content rest
      end
  end.

Definition notBrace : regex := RChar (cls_not "}"%char).

Definition bracedBody (g : nat) : regex :=
  RGroup g (RSeq (RPlus notBrace)
                 (RStar (RCat [RStr "{"; RStar notBrace; RStr "}"; RStar notBrace]))).

(** [/(?:async\s+)?(?:function\s+)?refresh[^{]*\{BODY\}/s] *)
Definition refreshFunctionPattern : regex :=
  RCat [ROpt (RSeq (RStr "async") (RPlus (RChar cls_s)));
        ROpt (RSeq (RStr "function") (RPlus (RChar cls_s)));
        RStr "refresh"; RStar (RChar (cls_not "{"%char)); RStr "{";
        bracedBody 1; RStr "}"].

(** [/useEffect\s*\([^)]*\{BODY\}/s] *)
Definition useEffectPattern : regex :=
  RCat [RStr "useEffect"; ws; RStr "("; RStar (RChar (cls_not ")"%char)); RStr "{";
        bracedBody 1; RStr "}"].

Definition extractRefreshLogic (content : string) : option string :=
  match jsMatch refreshFunctionPattern content with
  | Some m => option_map JsString.trim (group m 1)
  | None =>
      match jsMatch useEffectPattern content with
      | Some m =>
          match group m 1 with
          | Some body =>
              if JsString.includes "refresh" body then Some (JsString.trim body) else None
          | None => None
          end
      | None => None
      end
  end.

(** [x || ''] *)
Definition orEmpty (x : option string) : string :=
  match x with Some s => s | None => "" end.

(** [/setInterval[^,]*,\s*(\d+)/] *)
Definition intervalPattern : regex :=
  RCat [RStr "setInterval"; RStar (RChar (cls_not ","%char)); RStr ","; ws; digits 1].

Definition extractRefreshStrategy (content file repoPath : string) : RefreshStrategy :=
  if JsString.includes "setInterval" content ||
     (JsString.includes "useEffect" content && JsString.includes "refresh" content)
  then {| type := "automatic"; trigger := "interval";
          interval := Some match jsMatch intervalPattern content with
                           | Some m => match group m 1 with
                                       | Some d => JsString.parseInt d
                                       | None => 300000%N
                                       end
                           | None => 300000%N
                           end;
          implementation := orEmpty (extractRefreshLogic content);
          filePath := Some (JsString.removeFirst repoPath file) |}
  else if JsString.includes "expires" content && JsString.includes "refresh" content
  then {| type := "automatic"; trigger := "before-expiry"; interval := None;
          implementation := orEmpty (extractRefreshLogic content);
          filePath := Some (JsString.removeFirst repoPath file) |}
  else if JsString.includes "refresh" content &&
          (JsString.includes "function" content || JsString.includes "const" content ||
           JsString.includes "async" content)
  then {| type := "manual"; trigger := "on-demand"; interval := None;
          implementation := orEmpty (extractRefreshLogic content);
          filePath := Some (JsString.removeFirst repoPath file) |}
  else {| type := "manual"; trigger := "on-demand"; interval := None;
          implementation := ""; filePath := None |}.

Definition isTokenFile (content : string) : bool :=
  JsString.includes "access_token" content ||
  JsString.includes "accessToken" content ||
  JsString.includes "refresh_token" content ||
  JsString.includes "refreshToken" content ||
  JsString.includes "idToken" content ||
  JsString.includes "id_token" content.

Definition tokenFiles (fs : Fs.FileSystem) (repoPath : string) : list Fs.File :=
  filter (fun f => isTokenFile (Fs.content f)) (Fs.globSync fs Fs.pat_sources repoPath).

Definition accessTokenNames : list string :=
  ["access_token"; "accessToken"; "idToken"; "id_token"].
Definition refreshTokenNames : list string := ["refresh_token"; "refreshToken"].

(** [/secure:\s*(true|false)/] *)
Definition securePattern : regex :=
  RCat [RStr "secure:"; ws; RGroup 1 (RAlt (RStr "true") (RStr "false"))].

(** [/sameSite:\s*[QUOTE](\w+)[QUOTE]/] *)
Definition sameSitePattern : regex :=
  RCat [RStr "sameSite:"; ws; RChar cls_quote; RGroup 1 (RPlus (RChar cls_w));
        RChar cls_quote].

(** [content.match(r)?.[1]] *)
Definition firstGroup (r : regex) (content : string) : option string :=
  match jsMatch r content with
  | Some m => group m 1
  | None => None
  end.

(** [if (n)] on a [number | null] *)
Definition truthyNumber (n : option N) : bool :=
  match n with
  | Some k => negb (N.eqb k 0)
  | None => false
  end.

Definition withLifetime (t : TokenConfig) (n : N) : TokenConfig :=
  {| lifetime := n; storage := storage t; httpOnly := httpOnly t;
     secure := secure t; sameSite := sameSite t |}.

(** the first statement of the loop body *)
Definition stepLifetime (content : string) (t : TokenConfig) : TokenConfig :=
  match extractTokenLifetime content accessTokenNames with
  | Some n => if truthyNumber (Some n) then withLifetime t n else t
  | None => t
  end.

(** the three tests on cookie attributes *)
Definition stepFlags (content : string) (t : TokenConfig) : TokenConfig :=
  let t1 :=
    if JsString.includes "httpOnly" content
    then {| lifetime := lifetime t; storage := "httpOnly"; httpOnly := Some true;
            secure := secure t; sameSite := sameSite t |}
    else t in
  let t2 :=
    if JsString.includes "secure:" content
    then {| lifetime := lifetime t1; storage := storage t1; httpOnly := httpOnly t1;
            secure := Some match firstGroup securePattern content with
                           | Some v => String.eqb v "true"
                           | None => false
                           end;
            sameSite := sameSite t1 |}
    else t1 in
  if JsString.includes "sameSite" content
  then match firstGroup sameSitePattern content with
       | Some v => {| lifetime := lifetime t2; storage := storage t2;
                      httpOnly := httpOnly t2; secure := secure t2; sameSite := Some v |}
       | None => t2
       end
  else t2.

Definition stepFile (repoPath : string) (st : TokenStrategyResult) (f : Fs.File)
  : TokenStrategyResult :=
  let content := Fs.content f in
  let hasRefresh :=
    JsString.includes "refresh_token" content || JsString.includes "refreshToken" content in
  let impl := tokenImplementation st in
  {| accessToken := stepFlags content (stepLifetime content (accessToken st));
     refreshToken :=
       if hasRefresh
       then Some {| lifetime :=
                      match extractTokenLifetime content refreshTokenNames with
                      | Some n => if N.eqb n 0 then 604800%N else n
                      | None => 604800%N
                      end;
                    storage := "httpOnly"; httpOnly := None; secure := None;
                    sameSite := None |}
       else refreshToken st;
     refreshStrategy :=
       if hasRefresh &&
          (JsString.includes "refresh" content || JsString.includes "refreshToken" content)
       then extractRefreshStrategy content (Fs.path f) repoPath
       else refreshStrategy st;
     tokenImplementation :=
       if String.eqb (implFilePath impl) "" ||
          (String.length content <? String.length (template impl))
       then {| implFilePath := JsString.removeFirst repoPath (Fs.path f);
               template := JsString.substring0 1000 content;
               refreshLogic := extractRefreshLogic content |}
       else impl |}.

Definition initial : TokenStrategyResult :=
  {| accessToken := {| lifetime := 3600%N; storage := "httpOnly"; httpOnly := None;
                       secure := None; sameSite := None |};
     refreshToken := None;
     refreshStrategy := {| type := "none"; trigger := "on-demand"; interval := None;
                           implementation := ""; filePath := None |};
     tokenImplementation := {| implFilePath := ""; template := ""; refreshLogic := None |} |}.

Definition extractTokenStrategy (fs : Fs.FileSystem) (repoPath : string)
  : TokenStrategyResult :=
  fold_left (stepFile repoPath) (tokenFiles fs repoPath) initial.

End TokenStrategy.

(* ================================================================== *)
(** ** Auth-provider extractor *)

Module AuthProvider.
Import Regex.

Record AuthProviderConfig := {
  providers : list string;
  adapter : option string;
  strategy : option string;
  secret : option string;
  projectId : option string;
  domain : option string;
  clientId : option string
}.

Record AuthProviderImplementation := {
  filePath : string;
  template : string;
  setup : string;
  usage : string
}.

Record CallbackPattern := {
  name : string;
  implementation_ : string;
  cbFilePath : string
}.

Record AuthProviderResult := {
  type : string;
  providerName : string;
  configuration : AuthProviderConfig;
  implementation : AuthProviderImplementation;
  callbacks : option (list CallbackPattern)
}.

Definition nl : string := String "010"%char EmptyString.
Definition q (s : string) : string := JsString.dq ++ s ++ JsString.dq.

(** [**/next-auth.{ts,tsx,js}] *)
Definition pat_nextAuthFile : Glob.pattern :=
  [Glob.GlobStar; Glob.Seg [Glob.ALit "next-auth."; Glob.ts_tsx_js]].

(** [**/[...nextauth]/**/*.{ts,tsx,js}]; the second segment is a bracket
    expression *)
Definition pat_nextAuthRoute : Glob.pattern :=
  [Glob.GlobStar; Glob.Seg [Glob.AClass Glob.class_nextauth]; Glob.GlobStar;
   Glob.Seg [Glob.AStar; Glob.ALit "."; Glob.ts_tsx_js]].

(** [**/firebase*.{ts,tsx,js}] *)
Definition pat_firebase : Glob.pattern :=
  [Glob.GlobStar; Glob.Seg [Glob.ALit "firebase"; Glob.AStar; Glob.ALit "."; Glob.ts_tsx_js]].

Definition ws : regex := RStar (RChar cls_s).
Definition notBrace : regex := RChar (cls_not "}"%char).

Definition bracedBody (g : nat) : regex :=
  RGroup g (RSeq (RPlus notBrace)
                 (RStar (RCat [RStr "{"; RStar notBrace; RStr "}"; RStar notBrace]))).

(** [new RegExp(`${callbackName}:\\s*async?\\s*\\([^)]*\\)\\s*=>\\s*\\{BODY\\}`, 's')] *)
Definition callbackPattern (callbackName : string) : regex :=
  RCat [RStr callbackName; RStr ":"; ws; RStr "asyn"; ROpt (RStr "c"); ws;
        RStr "("; RStar (RChar (cls_not ")"%char)); RStr ")"; ws; RStr "=>"; ws;
        RStr "{"; bracedBody 1; RStr "}"].

Definition extractCallback (content callbackName : string) : option string :=
  match jsMatch (callbackPattern callbackName) content with
  | Some m => option_map JsString.trim (group m 1)
  | None => None
  end.

(** [content.indexOf(p)]; [None] is [-1] *)
Fixpoint indexOf (p s : string) : option nat :=
  if String.prefix p s then Some 0
  else match s with
       | EmptyString => None
       | String _ t => option_map S (indexOf p t)
       end.

(** The scan of [extractCodeBlock] over the text from [startIndex] on:
    the number of characters up to and including the brace that closes the
    first block, or [0] when the text ends first ([endIndex] stays at
    [startIndex]). *)
Fixpoint scanBlock (s : string) (braceCount : Z) (inBlock : bool) (i : nat) : nat :=
  match s with
  | EmptyString => 0
  | String c t =>
      if Ascii.eqb c "{"%char then scanBlock t (braceCount + 1)%Z true (S i)
      else if Ascii.eqb c "}"%char then
        if inBlock && Z.eqb (braceCount - 1)%Z 0%Z then S i
        else scanBlock t (braceCount - 1)%Z inBlock (S i)
      else scanBlock t braceCount inBlock (S i)
  end.

Definition extractCodeBlock (content startPattern : string) : option string :=
  match indexOf startPattern content with
  | None => None
  | Some startIndex =>
      let rest := JsString.drop startIndex content in
      Some (JsString.take (scanBlock rest 0%Z false 0) rest)
  end.

(** [/strategy:\s*[QUOTE](\w+)[QUOTE]/] *)
Definition strategyPattern : regex :=
  RCat [RStr "strategy:"; ws; RChar cls_quote; RGroup 1 (RPlus (RChar cls_w));
        RChar cls_quote].

Definition nextAuthSetup : string :=
  "import NextAuth from " ++ q "next-auth" ++ nl ++
  "import { authOptions } from " ++ q "@/libs/next-auth" ++ nl ++ nl ++
  "const handler = NextAuth(authOptions)" ++ nl ++
  "export { handler as GET, handler as POST }".

Definition nextAuthUsage : string :=
  "import { useSession } from " ++ q "next-auth/react" ++ nl ++
  "const { data: session, status } = useSession()".

Definition pushIf (b : bool) (x : string) (xs : list string) : list string :=
  if b then (xs ++ [x])%list else xs.

Definition extractNextAuth (f : Fs.File) (repoPath : string) : AuthProviderResult :=
  let content := Fs.content f in
  let providers :=
    pushIf (JsString.includes "CredentialsProvider" content) "credentials"
      (pushIf (JsString.includes "GitHubProvider" content) "github"
         (pushIf (JsString.includes "EmailProvider" content) "email"
            (pushIf (JsString.includes "GoogleProvider" content) "google" []))) in
  let adapter :=
    if JsString.includes "PrismaAdapter" content then Some "prisma"
    else if JsString.includes "FirestoreAdapter" content then Some "firestore"
    else if JsString.includes "MongoDBAdapter" content then Some "mongodb"
    else None in
  let sessionStrategy :=
    match jsMatch strategyPattern content with
    | Some m => match group m 1 with Some s => s | None => "jwt" end
    | None => "jwt"
    end in
  let addCallback (cbName : string) (acc : list CallbackPattern) :=
    match extractCallback content cbName with
    | Some body =>
        if String.eqb body "" then acc
        else (acc ++ [{| name := cbName; implementation_ := body;
                         cbFilePath := Fs.path f |}])%list
    | None => acc
    end in
  let callbacks := addCallback "jwt" (addCallback "session" []) in
  let template :=
    match extractCodeBlock content "authOptions" with
    | Some t => if String.eqb t "" then content else t
    | None => content
    end in
  {| type := "next-auth";
     providerName := "NextAuth.js";
     configuration := {| providers := providers; adapter := adapter;
                         strategy := Some sessionStrategy;
                         secret := Some "process.env.NEXTAUTH_SECRET";
                         projectId := None; domain := None; clientId := None |};
     implementation := {| filePath := JsString.removeFirst repoPath (Fs.path f);
                          template := template;
                          setup := nextAuthSetup; usage := nextAuthUsage |};
     callbacks := Some callbacks |}.

Definition firebaseSetup : string :=
  "import { initializeApp } from " ++ q "firebase/app" ++ nl ++
  "import { getAuth } from " ++ q "firebase/auth" ++ nl ++ nl ++
  "const firebaseConfig = { /* config */ }" ++ nl ++
  "const app = initializeApp(firebaseConfig)" ++ nl ++
  "export const auth = getAuth(app)".

Definition firebaseUsage : string :=
  "import { signInWithEmailAndPassword } from " ++ q "firebase/auth" ++ nl ++
  "import { auth } from " ++ q "@/libs/firebase".

Definition extractFirebaseAuth (f : Fs.File) (repoPath : string) : AuthProviderResult :=
  {| type := "firebase";
     providerName := "Firebase Authentication";
     configuration := {| providers := ["firebase"]; adapter := None; strategy := None;
                         secret := None;
                         projectId := Some "process.env.FIREBASE_PROJECT_ID";
                         domain := None; clientId := None |};
     implementation := {| filePath := JsString.removeFirst repoPath (Fs.path f);
                          template := Fs.content f;
                          setup := firebaseSetup; usage := firebaseUsage |};
     callbacks := None |}.

Definition cognitoSetup : string :=
  "// AWS Cognito configuration" ++ nl ++
  "const COGNITO_DOMAIN = process.env.COGNITO_DOMAIN" ++ nl ++
  "const COGNITO_CLIENT_ID = process.env.COGNITO_CLIENT_ID".

Definition extractCognito (f : Fs.File) (repoPath : string) : AuthProviderResult :=
  {| type := "cognito";
     providerName := "AWS Cognito";
     configuration := {| providers := ["cognito"]; adapter := None; strategy := None;
                         secret := None; projectId := None;
                         domain := Some "process.env.COGNITO_DOMAIN";
                         clientId := Some "process.env.COGNITO_CLIENT_ID" |};
     implementation := {| filePath := JsString.removeFirst repoPath (Fs.path f);
                          template := Fs.content f;
                          setup := cognitoSetup;
                          usage := "// Cognito authentication via API routes" |};
     callbacks := None |}.

Definition unknownProvider : AuthProviderResult :=
  {| type := "unknown";
     providerName := "Unknown";
     configuration := {| providers := []; adapter := None; strategy := None;
                         secret := None; projectId := None; domain := None;
                         clientId := None |};
     implementation := {| filePath := ""; template := ""; setup := ""; usage := "" |};
     callbacks := None |}.

(** [glob.sync(a)[0] || glob.sync(b)[0]] *)
Definition nextAuthPath (fs : Fs.FileSystem) (repoPath : string) : option Fs.File :=
  match Fs.globSync fs pat_nextAuthFile repoPath with
  | f :: _ => Some f
  | [] => List.hd_error (Fs.globSync fs pat_nextAuthRoute repoPath)
  end.

Definition extractAuthProvider (fs : Fs.FileSystem) (repoPath : string)
  : AuthProviderResult :=
  match nextAuthPath fs repoPath with
  | Some f => extractNextAuth f repoPath
  | None =>
      match find (fun f => JsString.includes "firebase/auth" (Fs.content f) ||
                           JsString.includes "signInWith" (Fs.content f))
                 (Fs.globSync fs pat_firebase repoPath) with
      | Some f => extractFirebaseAuth f repoPath
      | None =>
          match find (fun f => JsString.includes "cognito" (Fs.content f) ||
                               JsString.includes "COGNITO" (Fs.content f))
                     (Fs.globSync fs Fs.pat_sources repoPath) with
          | Some f => extractCognito f repoPath
          | None => unknownProvider
          end
      end
  end.

End AuthProvider.

(* ================================================================== *)
(** ** Session-storage extractor *)

Module SessionStorage.
Import Regex.

Record SessionStorageConfig := {
  type : string;
  httpOnly : option bool;
  secure : option bool;
  sameSite : option string;
  adapter : option string;
  maxAge : option N
}.

Record SessionLifetime := { accessToken : N; session : N }.

Record SessionStorageImplementation := {
  filePath : string;
  template : string;
  storageLocation : string
}.

Record SessionStorageResult := {
  strategy : string;
  configuration : SessionStorageConfig;
  lifetime : SessionLifetime;
  implementation : SessionStorageImplementation
}.

(** [**/*next-auth*.{ts,tsx,js}] *)
Definition pat_nextAuthFiles : Glob.pattern :=
  [Glob.GlobStar;
   Glob.Seg [Glob.AStar; Glob.ALit "next-auth"; Glob.AStar; Glob.ALit "."; Glob.ts_tsx_js]].

Definition ws : regex := RStar (RChar cls_s).

(** [/maxAge:\s*(\d+)/] *)
Definition maxAgePattern : regex :=
  RCat [RStr "maxAge:"; ws; RGroup 1 (RPlus (RChar cls_d))].

(** [/session:\s*async?\s*\([^)]*\)\s*=>\s*\{([\s\S]*?)\}/] *)
Definition sessionCallbackPattern : regex :=
  RCat [RStr "session:"; ws; RStr "asyn"; ROpt (RStr "c"); ws;
        RStr "("; RStar (RChar (cls_not ")"%char)); RStr ")"; ws; RStr "=>"; ws;
        RStr "{"; RGroup 1 (RLazy (RChar cls_any)); RStr "}"].

Definition extractSessionTemplate (content : string) : string :=
  match jsMatch sessionCallbackPattern content with
  | Some m =>
      match group m 1 with
      | Some body => JsString.trim body
      | None => JsString.substring0 500 content
      end
  | None => JsString.substring0 500 content
  end.

Definition readMaxAge (content : string) : N :=
  match TokenStrategy.firstGroup maxAgePattern content with
  | Some d => JsString.parseInt d
  | None => 3600%N
  end.

Definition readHttpOnly (content : string) : bool :=
  JsString.includes "httpOnly: true" content.

Definition readSecure (content : string) : bool :=
  if JsString.includes "secure:" content
  then match TokenStrategy.firstGroup TokenStrategy.securePattern content with
       | Some v => String.eqb v "true"
       | None => false
       end
  else true.

Definition readSameSite (content : string) : string :=
  match TokenStrategy.firstGroup TokenStrategy.sameSitePattern content with
  | Some v => v
  | None => "lax"
  end.

Definition extractJWTStrategy (content filePath_ repoPath : string) : SessionStorageResult :=
  let maxAge_ := readMaxAge content in
  {| strategy := "jwt";
     configuration := {| type := "jwt"; httpOnly := Some (readHttpOnly content);
                         secure := Some (readSecure content);
                         sameSite := Some (readSameSite content);
                         adapter := None; maxAge := None |};
     lifetime := {| accessToken := maxAge_; session := (maxAge_ * 24)%N |};
     implementation := {| filePath := JsString.removeFirst repoPath filePath_;
                          template := extractSessionTemplate content;
                          storageLocation := "httpOnly cookie" |} |}.

Definition extractDatabaseStrategy (content filePath_ repoPath : string)
  : SessionStorageResult :=
  {| strategy := "database";
     configuration := {| type := "database"; httpOnly := None; secure := None;
                         sameSite := None;
                         adapter := Some (if JsString.includes "MongoDBAdapter" content
                                          then "mongodb"
                                          else if JsString.includes "FirestoreAdapter" content
                                          then "firestore"
                                          else if JsString.includes "PrismaAdapter" content
                                          then "prisma" else "unknown");
                         maxAge := None |};
     lifetime := {| accessToken := 3600%N; session := 86400%N |};
     implementation := {| filePath := JsString.removeFirst repoPath filePath_;
                          template := extractSessionTemplate content;
                          storageLocation := "database" |} |}.

Definition extractCookieStorage (f : Fs.File) (repoPath : string) : SessionStorageResult :=
  let content := Fs.content f in
  let maxAge_ := readMaxAge content in
  {| strategy := "cookie";
     configuration := {| type := "cookie"; httpOnly := Some (readHttpOnly content);
                         secure := Some (readSecure content);
                         sameSite := Some (readSameSite content);
                         adapter := None; maxAge := Some maxAge_ |};
     lifetime := {| accessToken := maxAge_; session := maxAge_ |};
     implementation := {| filePath := JsString.removeFirst repoPath (Fs.path f);
                          template := content;
                          storageLocation := "httpOnly cookie" |} |}.

Definition extractLocalStorage (f : Fs.File) (repoPath : string) : SessionStorageResult :=
  {| strategy := "localStorage";
     configuration := {| type := "localStorage"; httpOnly := None; secure := None;
                         sameSite := None; adapter := None; maxAge := None |};
     lifetime := {| accessToken := 3600%N; session := 86400%N |};
     implementation := {| filePath := JsString.removeFirst repoPath (Fs.path f);
                          template := Fs.content f;
                          storageLocation := "localStorage" |} |}.

Definition defaultSession : SessionStorageResult :=
  {| strategy := "jwt";
     configuration := {| type := "jwt"; httpOnly := Some true; secure := Some true;
                         sameSite := Some "lax"; adapter := None; maxAge := None |};
     lifetime := {| accessToken := 3600%N; session := 86400%N |};
     implementation := {| filePath := ""; template := "";
                          storageLocation := "httpOnly cookie" |} |}.

Definition saysStrategy (value content : string) : bool :=
  JsString.includes ("strategy: " ++ JsString.dq ++ value ++ JsString.dq) content ||
  JsString.includes ("strategy: '" ++ value ++ "'") content.

(** the loop over [nextAuthFiles]: the first file that names a strategy
    decides *)
Fixpoint fromNextAuthFiles (files : list Fs.File) (repoPath : string)
  : option SessionStorageResult :=
  match files with
  | [] => None
  | f :: rest =>
      if saysStrategy "jwt" (Fs.content f)
      then Some (extractJWTStrategy (Fs.content f) (Fs.path f) repoPath)
      else if saysStrategy "database" (Fs.content f)
      then Some (extractDatabaseStrategy (Fs.content f) (Fs.path f) repoPath)
      else fromNextAuthFiles rest repoPath
  end.

Definition isCookieFile (content : string) : bool :=
  JsString.includes "Set-Cookie" content ||
  JsString.includes "cookies.set" content ||
  JsString.includes "serialize" content.

Definition isLocalStorageFile (content : string) : bool :=
  JsString.includes "localStorage.setItem" content &&
  (JsString.includes "token" content || JsString.includes "session" content ||
   JsString.includes "user" content).

Definition extractSessionStorage (fs : Fs.FileSystem) (repoPath : string)
  : SessionStorageResult :=
  match fromNextAuthFiles (Fs.globSync fs pat_nextAuthFiles repoPath) repoPath with
  | Some r => r
  | None =>
      match filter (fun f => isCookieFile (Fs.content f))
                   (Fs.globSync fs Fs.pat_sources repoPath) with
      | f :: _ => extractCookieStorage f repoPath
      | [] =>
          match filter (fun f => isLocalStorageFile (Fs.content f))
                       (Fs.globSync fs Fs.pat_sources repoPath) with
          | f :: _ => extractLocalStorage f repoPath
          | [] => defaultSession
          end
      end
  end.

End SessionStorage.

(* ================================================================== *)
(** ** Permission-check extractor: shared types and patterns *)

Module Guards.
Import Regex.

Record MiddlewarePattern := {
  name : string;
  type : string;
  filePath : string;
  template : string;
  location : string;
  checks : list string
}.

Record ProtectedRoute := {
  path : string;
  protection : string;
  requiredRole : option string;
  requiredPermission : option string;
  implementation : string
}.

Record APIGuard := {
  endpoint : string;
  method : string;
  guardProtection : string;
  middleware_ : option string;
  guardFilePath : string;
  guardTemplate : string
}.

Record ComponentGuard := {
  component : string;
  componentProtection : string;
  componentRole : option string;
  componentPermission : option string;
  componentFilePath : string;
  componentTemplate : string
}.

Record PermissionChecks := {
  middleware : list MiddlewarePattern;
  protectedRoutes : list ProtectedRoute;
  apiGuards : list APIGuard;
  componentGuards : option (list ComponentGuard)
}.

Definition ws : regex := RStar (RChar cls_s).
Definition ws1 : regex := RPlus (RChar cls_s).
Definition notSlash : regex := RChar (cls_not "/"%char).
Definition quoted (g : nat) : regex :=
  RCat [RChar cls_quote; RGroup g (RPlus (RChar cls_w)); RChar cls_quote].
Definition strictOp : regex :=
  RSeq (RChar (fun c => Ascii.eqb c "="%char || Ascii.eqb c "!"%char)) (RStr "==").

(** [**/*middleware*.{ts,tsx,js}] *)
Definition pat_middlewareAny : Glob.pattern :=
  [Glob.GlobStar;
   Glob.Seg [Glob.AStar; Glob.ALit "middleware"; Glob.AStar; Glob.ALit "."; Glob.ts_tsx_js]].

(** [**/middleware.{ts,tsx,js}] *)
Definition pat_middlewareExact : Glob.pattern :=
  [Glob.GlobStar; Glob.Seg [Glob.ALit "middleware."; Glob.ts_tsx_js]].

(** [**/api/**/*.{ts,tsx,js}] *)
Definition pat_apiRoutes : Glob.pattern :=
  [Glob.GlobStar; Glob.Seg [Glob.ALit "api"]; Glob.GlobStar;
   Glob.Seg [Glob.AStar; Glob.ALit "."; Glob.ts_tsx_js]].

(** [**/*.{tsx,jsx}] *)
Definition pat_components : Glob.pattern :=
  [Glob.GlobStar; Glob.Seg [Glob.AStar; Glob.ALit "."; Glob.tsx_jsx]].

(** [**/app/**/page.{tsx,jsx}] *)
Definition pat_appPages : Glob.pattern :=
  [Glob.GlobStar; Glob.Seg [Glob.ALit "app"]; Glob.GlobStar;
   Glob.Seg [Glob.ALit "page."; Glob.tsx_jsx]].

(** [**/pages/**/*.{tsx,jsx}] *)
Definition pat_pagesDir : Glob.pattern :=
  [Glob.GlobStar; Glob.Seg [Glob.ALit "pages"]; Glob.GlobStar;
   Glob.Seg [Glob.AStar; Glob.ALit "."; Glob.tsx_jsx]].

(** [/(?:export\s+)?(?:async\s+)?(?:function\s+)?middleware\s*\([^)]*\)\s*\{([\s\S]*?)\}/] *)
Definition middlewarePattern : regex :=
  RCat [ROpt (RSeq (RStr "export") ws1); ROpt (RSeq (RStr "async") ws1);
        ROpt (RSeq (RStr "function") ws1); RStr "middleware"; ws;
        RStr "("; RStar (RChar (cls_not ")"%char)); RStr ")"; ws;
        RStr "{"; RGroup 1 (RLazy (RChar cls_any)); RStr "}"].

Definition pushIf (b : bool) (x : string) (xs : list string) : list string :=
  if b then (xs ++ [x])%list else xs.

(** [None] is [null]. *)
Definition extractMiddlewarePattern (content filePath_ repoPath : string)
  : option MiddlewarePattern :=
  match jsMatch middlewarePattern content with
  | None => None
  | Some m =>
      Some {| name := "middleware";
              type := "global";
              filePath := JsString.removeFirst repoPath filePath_;
              template := match group m 1 with
                          | Some body => JsString.trim body
                          | None => ""
                          end;
              location := "middleware.ts";
              checks :=
                pushIf (JsString.includes "checkPermission" content) "permission"
                  (pushIf (JsString.includes "checkRole" content) "role"
                     (pushIf (JsString.includes "verifyToken" content) "token"
                        (pushIf (JsString.includes "authMiddleware" content) "auth" []))) |}
  end.

(** the ternary chain over [export async function METHOD] *)
Definition detectMethod (content : string) : string :=
  if JsString.includes "export async function GET" content then "GET"
  else if JsString.includes "export async function POST" content then "POST"
  else if JsString.includes "export async function PUT" content then "PUT"
  else if JsString.includes "export async function PATCH" content then "PATCH"
  else if JsString.includes "export async function DELETE" content then "DELETE"
  else "GET".

(** [/(?:const|await)\s+(\w+)\s*=\s*(?:await\s+)?(\w+Middleware|authMiddleware|verifyToken)/] *)
Definition middlewareCallPattern : regex :=
  RCat [RAlt (RStr "const") (RStr "await"); ws1; RGroup 1 (RPlus (RChar cls_w)); ws;
        RStr "="; ws; ROpt (RSeq (RStr "await") ws1);
        RGroup 2 (RAlt (RSeq (RPlus (RChar cls_w)) (RStr "Middleware"))
                       (RAlt (RStr "authMiddleware") (RStr "verifyToken")))].

(** [/role\s*[=!]==\s*[QUOTE](\w+)[QUOTE]/] *)
Definition roleLiteralPattern : regex :=
  RCat [RStr "role"; ws; strictOp; ws; quoted 1].

(** [/permission\s*[=!]==\s*[QUOTE](\w+)[QUOTE]/] *)
Definition permissionLiteralPattern : regex :=
  RCat [RStr "permission"; ws; strictOp; ws; quoted 1].

(** [/(?:export\s+)?(?:default\s+)?(?:function|const)\s+(\w+)/] *)
Definition componentPattern : regex :=
  RCat [ROpt (RSeq (RStr "export") ws1); ROpt (RSeq (RStr "default") ws1);
        RAlt (RStr "function") (RStr "const"); ws1; RGroup 1 (RPlus (RChar cls_w))].

Definition firstGroup (r : regex) (s : string) : option string :=
  match jsMatch r s with
  | Some m => group m 1
  | None => None
  end.

Definition componentName (content : string) : string :=
  match firstGroup componentPattern content with
  | Some c => c
  | None => "Component"
  end.

Definition collect {A B : Type} (f : A -> option B) (xs : list A) : list B :=
  flat_map (fun x => match f x with Some y => [y] | None => [] end) xs.

(** [xs.length > 0 ? xs : undefined] *)
Definition nonEmpty {A : Type} (xs : list A) : option (list A) :=
  match xs with [] => None | _ => Some xs end.

End Guards.

(* ================================================================== *)
(** ** Permission-check extractor, extended detector *)

Module PermissionCheck.
Import Regex Guards.

(** The pattern [api/], then as group 1 one or more path segments
    separated by slashes ([[^/]+] repeated), then [/route]. *)
Definition routePathPattern : regex :=
  RCat [RStr "api/";
        RGroup 1 (RSeq (RPlus notSlash) (RStar (RSeq (RStr "/") (RPlus notSlash))));
        RStr "/route"].

(** [/api\/(.+?)(?:\/route|$)/] *)
Definition nestedPathPattern : regex :=
  RCat [RStr "api/"; RGroup 1 (RLazyPlus (RChar cls_dot));
        RAlt (RStr "/route") REnd].

(** the route path shared by [extractAPIGuard] and [extractProtectedRoute] *)
Definition routeEndpoint (filePath_ repoPath : string) : string :=
  let endpoint :=
    match firstGroup routePathPattern filePath_ with
    | Some p => "/api/" ++ p
    | None => JsString.removeFirst repoPath filePath_
    end in
  if negb (JsString.startsWith "/api/" endpoint) then
    match firstGroup nestedPathPattern filePath_ with
    | Some p => "/api/" ++ p
    | None => endpoint
    end
  else endpoint.

Definition cookieTokenRead (content : string) : bool :=
  JsString.includes "cookies.get" content &&
  (JsString.includes "it" content || JsString.includes "idToken" content ||
   JsString.includes "at" content).

Definition isRoleSignal (content : string) : bool :=
  JsString.includes "checkRole" content || JsString.includes "role" content ||
  JsString.includes "admin" content.

Definition isPermissionSignal (content : string) : bool :=
  JsString.includes "checkPermission" content || JsString.includes "permission" content.

Definition isAuthSignal (content : string) : bool :=
  JsString.includes "authMiddleware" content ||
  JsString.includes "verifyToken" content ||
  cookieTokenRead content ||
  JsString.includes "No authentication token" content ||
  JsString.includes "Authentication required" content ||
  JsString.includes "status: 401" content.

Definition classify (content : string) : string :=
  if isRoleSignal content then "role"
  else if isPermissionSignal content then "permission"
  else if isAuthSignal content then "auth"
  else "custom".

Definition extractAPIGuard (content filePath_ repoPath : string) : option APIGuard :=
  Some {| endpoint := routeEndpoint filePath_ repoPath;
          method := detectMethod content;
          guardProtection := classify content;
          middleware_ :=
            match jsMatch middlewareCallPattern content with
            | Some m => group m 2
            | None =>
                if JsString.includes "cookies.get" content then Some "cookie-based-auth"
                else if JsString.includes "JWT" content || JsString.includes "jwt" content
                then Some "jwt-verification"
                else None
            end;
          guardFilePath := JsString.removeFirst repoPath filePath_;
          guardTemplate := JsString.substring0 500 content |}.

Definition extractProtectedRoute (content filePath_ repoPath : string)
  : option ProtectedRoute :=
  Some {| path := routeEndpoint filePath_ repoPath;
          protection := classify content;
          requiredRole :=
            if isRoleSignal content then firstGroup roleLiteralPattern content else None;
          requiredPermission :=
            if isRoleSignal content then None
            else if isPermissionSignal content
            then firstGroup permissionLiteralPattern content
            else None;
          implementation := JsString.substring0 500 content |}.

Definition hasComparison (content : string) : bool :=
  JsString.includes "===" content || JsString.includes "!==" content.

(** the third test of [extractComponentGuard] *)
Definition clientGate (content : string) : bool :=
  JsString.includes "useAuth" content ||
  JsString.includes "isAuthenticated" content ||
  JsString.includes "checkAuth" content ||
  (JsString.includes "router" content && JsString.includes "push" content &&
   (JsString.includes "signin" content || JsString.includes "login" content)).

(** [protection] starts as ['auth'], and the third test sets it to ['auth']
    again. *)
Definition extractComponentGuard (content filePath_ repoPath : string)
  : option ComponentGuard :=
  let byRole := JsString.includes "role" content && hasComparison content in
  let byPermission := JsString.includes "permission" content && hasComparison content in
  Some {| component := componentName content;
          componentProtection :=
            if byRole then "role" else if byPermission then "permission"
            else if clientGate content then "auth" else "auth";
          componentRole :=
            if byRole then firstGroup roleLiteralPattern content else None;
          componentPermission :=
            if byRole then None
            else if byPermission then firstGroup permissionLiteralPattern content
            else None;
          componentFilePath := JsString.removeFirst repoPath filePath_;
          componentTemplate := JsString.substring0 500 content |}.

(** [/app\/(.+?)(?:\/page|$)/] *)
Definition appRoutePattern : regex :=
  RCat [RStr "app/"; RGroup 1 (RLazyPlus (RChar cls_dot)); RAlt (RStr "/page") REnd].

(** [/pages\/(.+?)(?:\/index|$)/] *)
Definition pagesRoutePattern : regex :=
  RCat [RStr "pages/"; RGroup 1 (RLazyPlus (RChar cls_dot)); RAlt (RStr "/index") REnd].

Definition loginRedirect (content : string) : bool :=
  JsString.includes "router" content && JsString.includes "push" content &&
  (JsString.includes "signin" content || JsString.includes "login" content).

Definition clientAuthSignal (content : string) : bool :=
  JsString.includes "useAuth" content || JsString.includes "isAuthenticated" content ||
  loginRedirect content.

Definition extractPageRouteProtection (content filePath_ repoPath : string)
  : option ProtectedRoute :=
  let rel := JsString.removeFirst repoPath filePath_ in
  let path_ :=
    if JsString.includes "/app/" rel then
      match firstGroup appRoutePattern rel with
      | Some p => "/" ++ p
      | None => rel
      end
    else if JsString.includes "/pages/" rel then
      match firstGroup pagesRoutePattern rel with
      | Some p => "/" ++ p
      | None => rel
      end
    else rel in
  let byAuth := clientAuthSignal content in
  let byRole := JsString.includes "role" content in
  let byPermission := JsString.includes "permission" content in
  Some {| path := path_;
          protection :=
            if byAuth then "auth" else if byRole then "role"
            else if byPermission then "permission" else "custom";
          requiredRole :=
            if byAuth then None
            else if byRole then firstGroup roleLiteralPattern content else None;
          requiredPermission :=
            if byAuth then None else if byRole then None
            else if byPermission then firstGroup permissionLiteralPattern content
            else None;
          implementation := JsString.substring0 500 content |}.

(** the test that lets an API route file through *)
Definition isProtectedApi (content : string) : bool :=
  JsString.includes "authMiddleware" content ||
  JsString.includes "requireAuth" content ||
  JsString.includes "checkAuth" content ||
  JsString.includes "verifyToken" content ||
  JsString.includes "unauthorized" content ||
  JsString.includes "Unauthorized" content ||
  (JsString.includes "cookies.get" content &&
   (JsString.includes "it" content || JsString.includes "idToken" content ||
    JsString.includes "access_token" content || JsString.includes "at" content)) ||
  JsString.includes "status: 401" content ||
  JsString.includes "status:401" content ||
  JsString.includes "statusCode: 401" content ||
  JsString.includes "No authentication token" content ||
  JsString.includes "Authentication required" content ||
  JsString.includes "JWT" content ||
  JsString.includes "jwt" content ||
  JsString.includes "idToken" content ||
  JsString.includes "id_token" content.

Definition middlewareFiles (fs : Fs.FileSystem) (repoPath : string) : list Fs.File :=
  (Fs.globSync fs pat_middlewareAny repoPath ++
   Fs.globSync fs pat_middlewareExact repoPath)%list.

Definition apiRouteFiles (fs : Fs.FileSystem) (repoPath : string) : list Fs.File :=
  filter (fun f => negb (JsString.includes "node_modules" (Fs.path f)))
         (Fs.globSync fs pat_apiRoutes repoPath).

Definition isComponentFile (content : string) : bool :=
  JsString.includes "useAuth" content ||
  JsString.includes "useSession" content ||
  JsString.includes "isAuthenticated" content ||
  JsString.includes "requireAuth" content ||
  JsString.includes "checkAuth" content ||
  (JsString.includes "router.push" content &&
   (JsString.includes "signin" content || JsString.includes "login" content)) ||
  (JsString.includes "useRouter" content && JsString.includes "push" content).

Definition componentFiles (fs : Fs.FileSystem) (repoPath : string) : list Fs.File :=
  filter (fun f => isComponentFile (Fs.content f))
         (Fs.globSync fs pat_components repoPath).

Definition pageFiles (fs : Fs.FileSystem) (repoPath : string) : list Fs.File :=
  filter (fun f => clientAuthSignal (Fs.content f))
         (Fs.globSync fs pat_appPages repoPath ++
          Fs.globSync fs pat_pagesDir repoPath)%list.

Definition extractPermissionChecks (fs : Fs.FileSystem) (repoPath : string)
  : PermissionChecks :=
  let guarded :=
    filter (fun f => isProtectedApi (Fs.content f)) (apiRouteFiles fs repoPath) in
  {| middleware :=
       collect (fun f => extractMiddlewarePattern (Fs.content f) (Fs.path f) repoPath)
               (middlewareFiles fs repoPath);
     protectedRoutes :=
       (collect (fun f => extractProtectedRoute (Fs.content f) (Fs.path f) repoPath)
                guarded ++
        collect (fun f => extractPageRouteProtection (Fs.content f) (Fs.path f) repoPath)
                (firstn 10 (pageFiles fs repoPath)))%list;
     apiGuards :=
       collect (fun f => extractAPIGuard (Fs.content f) (Fs.path f) repoPath) guarded;
     componentGuards :=
       nonEmpty
         (collect (fun f => extractComponentGuard (Fs.content f) (Fs.path f) repoPath)
                  (firstn 20 (componentFiles fs repoPath))) |}.

End PermissionCheck.

(* ================================================================== *)
(** ** Permission-check extractor, the copy under [src/lib/extractor] *)

Module PermissionCheckLib.
Import Regex Guards.

(** [/api\/([^/]+)\/route/] *)
Definition routePathPattern : regex :=
  RCat [RStr "api/"; RGroup 1 (RPlus notSlash); RStr "/route"].

Definition routeEndpoint (filePath_ repoPath : string) : string :=
  match firstGroup routePathPattern filePath_ with
  | Some p => "/api/" ++ p
  | None => JsString.removeFirst repoPath filePath_
  end.

Definition isRoleSignal (content : string) : bool :=
  JsString.includes "checkRole" content || JsString.includes "role" content.

Definition isPermissionSignal (content : string) : bool :=
  JsString.includes "checkPermission" content || JsString.includes "permission" content.

Definition isAuthSignal (content : string) : bool :=
  JsString.includes "authMiddleware" content || JsString.includes "verifyToken" content.

Definition classify (content : string) : string :=
  if isRoleSignal content then "role"
  else if isPermissionSignal content then "permission"
  else if isAuthSignal content then "auth"
  else "custom".

Definition extractAPIGuard (content filePath_ repoPath : string) : option APIGuard :=
  Some {| endpoint := routeEndpoint filePath_ repoPath;
          method := detectMethod content;
          guardProtection := classify content;
          middleware_ :=
            match jsMatch middlewareCallPattern content with
            | Some m => group m 2
            | None => None
            end;
          guardFilePath := JsString.removeFirst repoPath filePath_;
          guardTemplate := JsString.substring0 500 content |}.

Definition extractProtectedRoute (content filePath_ repoPath : string)
  : option ProtectedRoute :=
  Some {| path := routeEndpoint filePath_ repoPath;
          protection := classify content;
          requiredRole :=
            if isRoleSignal content then firstGroup roleLiteralPattern content else None;
          requiredPermission :=
            if isRoleSignal content then None
            else if isPermissionSignal content
            then firstGroup permissionLiteralPattern content
            else None;
          implementation := JsString.substring0 500 content |}.

Definition hasComparison (content : string) : bool :=
  JsString.includes "===" content || JsString.includes "!==" content.

Definition extractComponentGuard (content filePath_ repoPath : string)
  : option ComponentGuard :=
  let byRole := JsString.includes "role" content && hasComparison content in
  let byPermission := JsString.includes "permission" content && hasComparison content in
  Some {| component := componentName content;
          componentProtection :=
            if byRole then "role" else if byPermission then "permission" else "auth";
          componentRole :=
            if byRole then firstGroup roleLiteralPattern content else None;
          componentPermission :=
            if byRole then None
            else if byPermission then firstGroup permissionLiteralPattern content
            else None;
          componentFilePath := JsString.removeFirst repoPath filePath_;
          componentTemplate := JsString.substring0 500 content |}.

Definition isProtectedApi (content : string) : bool :=
  JsString.includes "authMiddleware" content ||
  JsString.includes "requireAuth" content ||
  JsString.includes "checkAuth" content ||
  JsString.includes "verifyToken" content ||
  JsString.includes "unauthorized" content ||
  JsString.includes "Unauthorized" content.

Definition isComponentFile (content : string) : bool :=
  JsString.includes "useAuth" content ||
  JsString.includes "useSession" content ||
  JsString.includes "isAuthenticated" content ||
  JsString.includes "requireAuth" content.

Definition componentFiles (fs : Fs.FileSystem) (repoPath : string) : list Fs.File :=
  filter (fun f => isComponentFile (Fs.content f))
         (Fs.globSync fs pat_components repoPath).

Definition extractPermissionChecks (fs : Fs.FileSystem) (repoPath : string)
  : PermissionChecks :=
  let guarded :=
    filter (fun f => isProtectedApi (Fs.content f))
           (PermissionCheck.apiRouteFiles fs repoPath) in
  {| middleware :=
       collect (fun f => extractMiddlewarePattern (Fs.content f) (Fs.path f) repoPath)
               (PermissionCheck.middlewareFiles fs repoPath);
     protectedRoutes :=
       collect (fun f => extractProtectedRoute (Fs.content f) (Fs.path f) repoPath) guarded;
     apiGuards :=
       collect (fun f => extractAPIGuard (Fs.content f) (Fs.path f) repoPath) guarded;
     componentGuards :=
       nonEmpty
         (collect (fun f => extractComponentGuard (Fs.content f) (Fs.path f) repoPath)
                  (firstn 10 (componentFiles fs repoPath))) |}.

End PermissionCheckLib.

(* ================================================================== *)
(** ** The pipeline: [extractAuthSystem] *)

Module Extractor.

Record Metadata := {
  projectName : string;
  extractedAt : string;
  framework : string;
  sourcePath : string
}.

Record Utilities := {
  authHelpers : list string;
  commonHooks : list string;
  authFunctions : list string
}.

Record Instructions := {
  setup : list string;
  usage : list string;
  security : list string
}.

Record AuthMemory := {
  metadata : Metadata;
  authProvider : AuthProvider.AuthProviderResult;
  sessionStorage : SessionStorage.SessionStorageResult;
  tokenStrategy : TokenStrategy.TokenStrategyResult;
  roleModel : RoleModel.RoleModelResult;
  permissionChecks : Guards.PermissionChecks;
  utilities : Utilities;
  instructions : Instructions
}.

(** What the returned promise rejects with: an [Error] with a message, or
    the [SyntaxError]/[TypeError] raised while reading [package.json]. *)
Inductive Failure : Type :=
| ErrorMessage (message : string)
| ManifestFailure.

(** A run of the pipeline: the extractors it called, in order, and how it
    ended. *)
Definition Run (A : Type) : Type := list string * (Failure + A).

Definition ret {A : Type} (a : A) : Run A := ([], inr a).
Definition throw {A : Type} (e : Failure) : Run A := ([], inl e).
Definition call {A : Type} (fn : string) (a : A) : Run A := ([fn], inr a).
Definition bind {A B : Type} (c : Run A) (k : A -> Run B) : Run B :=
  match c with
  | (log, inl e) => (log, inl e)
  | (log, inr a) => let '(log', r) := k a in ((log ++ log')%list, r)
  end.

Notation "x <- c ;; k" := (bind c (fun x => k))
  (at level 61, c at next level, right associativity).

Definition existing (fs : Fs.FileSystem) (repoPath : string) (candidates : list string)
  : list string :=
  filter (fun rel => Fs.existsFile fs repoPath rel) candidates.

Definition extractAuthHelpers (fs : Fs.FileSystem) (repoPath : string) : list string :=
  existing fs repoPath
    ["libs/auth.ts"; "lib/auth.ts"; "utils/auth.ts"; "helpers/auth.ts";
     "libs/middleware.ts"; "lib/middleware.ts"].

Definition extractCommonHooks (fs : Fs.FileSystem) (repoPath : string) : list string :=
  existing fs repoPath
    ["hooks/useAuth.ts"; "hooks/useAuth.tsx"; "contexts/AuthContext.tsx";
     "context/AuthContext.tsx"].

Definition extractAuthFunctions (fs : Fs.FileSystem) (repoPath : string) : list string :=
  existing fs repoPath
    ["libs/next-auth.ts"; "lib/next-auth.ts"; "libs/firebase.ts"; "lib/firebase.ts"].

Definition generateSetupInstructions
  (authProvider : AuthProvider.AuthProviderResult)
  (sessionStorage : SessionStorage.SessionStorageResult)
  (tokenStrategy : TokenStrategy.TokenStrategyResult) : list string :=
  ((if String.eqb (AuthProvider.type authProvider) "next-auth" then
      ["1. Install NextAuth: npm install next-auth";
       "2. Create auth configuration file";
       "3. Set up environment variables (NEXTAUTH_SECRET, provider credentials)"] ++
      match AuthProvider.adapter (AuthProvider.configuration authProvider) with
      | Some a => if String.eqb a "" then []
                  else [("4. Install and configure " ++ a ++ " adapter")%string]
      | None => []
      end
    else []) ++
   (if String.eqb (SessionStorage.strategy sessionStorage) "jwt"
    then ["5. Configure JWT session strategy"]
    else if String.eqb (SessionStorage.strategy sessionStorage) "database"
    then ["5. Set up database adapter for sessions"]
    else []) ++
   (match TokenStrategy.refreshToken tokenStrategy with
    | Some _ => ["6. Implement refresh token strategy"]
    | None => []
    end))%list.

Definition generateUsageInstructions
  (authProvider : AuthProvider.AuthProviderResult)
  (sessionStorage : SessionStorage.SessionStorageResult)
  (tokenStrategy : TokenStrategy.TokenStrategyResult) : list string :=
  ((if String.eqb (AuthProvider.type authProvider) "next-auth"
    then ["Use useSession() hook to access session data";
          "Use signIn() and signOut() from next-auth/react"]
    else []) ++
   (if String.eqb (SessionStorage.strategy sessionStorage) "jwt"
    then ["Session is stored in JWT token (httpOnly cookie)"]
    else []) ++
   (let t := TokenStrategy.type (TokenStrategy.refreshStrategy tokenStrategy) in
    if String.eqb t "none" then [] else [("Token refresh strategy: " ++ t)%string]))%list.

Definition generateSecurityInstructions
  (sessionStorage : SessionStorage.SessionStorageResult)
  (tokenStrategy : TokenStrategy.TokenStrategyResult) : list string :=
  (["Always use httpOnly cookies for tokens";
    "Set secure flag in production";
    ("Use sameSite: " ++ JsString.dq ++ "lax" ++ JsString.dq ++ " or " ++
       JsString.dq ++ "strict" ++ JsString.dq ++ " for cookies")%string] ++
   (let n := TokenStrategy.lifetime (TokenStrategy.accessToken tokenStrategy) in
    if N.eqb n 0 then []
    else [("Access token lifetime: " ++ JsString.numberToString n ++ " seconds")%string]) ++
   (match TokenStrategy.refreshToken tokenStrategy with
    | Some r =>
        if N.eqb (TokenStrategy.lifetime r) 0 then []
        else [("Refresh token lifetime: " ++
               JsString.numberToString (TokenStrategy.lifetime r) ++ " seconds")%string]
    | None => []
    end) ++
   ["Never expose tokens in client-side code";
    "Always verify tokens on the server side"])%list.

(** the framework read from [package.json], when the file exists *)
Definition detectFramework (fs : Fs.FileSystem) (repoPath : string) : Run string :=
  match fs repoPath with
  | Some t =>
      match Fs.packageJson t with
      | None => ret "unknown"
      | Some Fs.Unparsable => throw ManifestFailure
      | Some (Fs.Dependencies next react express) =>
          ret (if next then "nextjs" else if react then "react"
               else if express then "express" else "unknown")
      end
  | None => ret "unknown"
  end.

(** [now] is the text of [new Date().toISOString()]. *)
Definition extractAuthSystem (fs : Fs.FileSystem) (now repoPath : string)
  : Run AuthMemory :=
  if negb (Fs.existsSync fs repoPath)
  then throw (ErrorMessage ("Repository path does not exist: " ++ repoPath))
  else
    framework <- detectFramework fs repoPath ;;
    let projectName :=
      let last := JsString.lastSegment repoPath in
      if String.eqb last "" then "unknown" else last in
    authProvider <- call "extractAuthProvider" (AuthProvider.extractAuthProvider fs repoPath) ;;
    sessionStorage <-
      call "extractSessionStorage" (SessionStorage.extractSessionStorage fs repoPath) ;;
    tokenStrategy <-
      call "extractTokenStrategy" (TokenStrategy.extractTokenStrategy fs repoPath) ;;
    roleModel <- call "extractRoleModel" (RoleModel.extractRoleModel fs repoPath) ;;
    permissionChecks <-
      call "extractPermissionChecks"
           (PermissionCheckLib.extractPermissionChecks fs repoPath) ;;
    ret {| metadata := {| projectName := projectName; extractedAt := now;
                          framework := framework; sourcePath := repoPath |};
           authProvider := authProvider;
           sessionStorage := sessionStorage;
           tokenStrategy := tokenStrategy;
           roleModel := roleModel;
           permissionChecks := permissionChecks;
           utilities := {| authHelpers := extractAuthHelpers fs repoPath;
                           commonHooks := extractCommonHooks fs repoPath;
                           authFunctions := extractAuthFunctions fs repoPath |};
           instructions :=
             {| setup := generateSetupInstructions authProvider sessionStorage tokenStrategy;
                usage := generateUsageInstructions authProvider sessionStorage tokenStrategy;
                security := generateSecurityInstructions sessionStorage tokenStrategy |} |}.

End Extractor.

(* ================================================================== *)
(** ** The generated artifact: its lookup helpers

    The artifact embeds the record as a literal ([JSON.stringify]) and
    exports helpers that read it.  The literal keeps every protected route
    with its [path], and its [requiredRole] and [requiredPermission] when
    they are present; the helpers below are the exported functions, reading
    those routes. *)

Module Generator.

Definition routesOf (AuthMemory : Extractor.AuthMemory) : list Guards.ProtectedRoute :=
  Guards.protectedRoutes (Extractor.permissionChecks AuthMemory).

(** [protectedRoutes.some(route => route.path === path)] *)
Definition isProtectedRoute (AuthMemory : Extractor.AuthMemory) (path : string) : bool :=
  existsb (fun route => String.eqb (Guards.path route) path) (routesOf AuthMemory).

(** [protectedRoutes.find(r => r.path === path)?.requiredRole] *)
Definition getRequiredRole (AuthMemory : Extractor.AuthMemory) (path : string)
  : option string :=
  match find (fun r => String.eqb (Guards.path r) path) (routesOf AuthMemory) with
  | Some route => Guards.requiredRole route
  | None => None
  end.

(** [protectedRoutes.find(r => r.path === path)?.requiredPermission] *)
Definition getRequiredPermission (AuthMemory : Extractor.AuthMemory) (path : string)
  : option string :=
  match find (fun r => String.eqb (Guards.path r) path) (routesOf AuthMemory) with
  | Some route => Guards.requiredPermission route
  | None => None
  end.

End Generator.

(* ================================================================== *)
(** ** Acquisition: the clone attempt and the archive fallback of [POST] *)

Module Acquisition.

(** How one [fetch] of an archive URL ends: it throws (the text is what the
    handler records, [urlError.message || String(urlError)]), or it yields
    a response. *)
Inductive FetchOutcome : Type :=
| FetchThrows (message : string)
| Response (ok : bool) (status : N) (statusText : string) (body : list byte).

(** The request for the repository description: it throws (or its body is
    not JSON), or it answers with a status and possibly a
    [default_branch]. *)
Inductive RepoInfo : Type :=
| InfoThrows
| InfoResponse (ok : bool) (default_branch : option string).

(** The world outside the handler.  [fetch n url] is the outcome of the
    download request issued after [n] earlier ones; [extractAllTo body] is
    [None] when the archive is unpacked and [Some message] when the unzip
    library throws. *)
Record Network := {
  gitClone : string -> bool;
  repoInfo : string -> RepoInfo;
  fetch : nat -> string -> FetchOutcome;
  extractAllTo : list byte -> option string
}.

(** [repoInfo.default_branch || 'main'], or ['main'] on any failure *)
Definition discoverBranch (net : Network) (owner repo : string) : string :=
  match repoInfo net ("https://api.github.com/repos/" ++ owner ++ "/" ++ repo) with
  | InfoResponse true (Some b) => if String.eqb b "" then "main" else b
  | _ => "main"
  end.

(** [Array.from(new Set(xs))] *)
Definition setAdd (acc : list string) (x : string) : list string :=
  if existsb (String.eqb x) acc then acc else (acc ++ [x])%list.

Definition arrayFromSet (xs : list string) : list string := fold_left setAdd xs [].

Definition branchesToTry (defaultBranch : string) : list string :=
  arrayFromSet [defaultBranch; "main"; "master"].

Definition urlFormats (owner repo branch : string) : list string :=
  ["https://github.com/" ++ owner ++ "/" ++ repo ++ "/archive/" ++ branch ++ ".zip";
   "https://api.github.com/repos/" ++ owner ++ "/" ++ repo ++ "/zipball/" ++ branch;
   "https://github.com/" ++ owner ++ "/" ++ repo ++ "/archive/refs/heads/" ++ branch ++ ".zip"].

(** [firstBytes[0] === 0x50 && firstBytes[1] === 0x4B] *)
Definition isZipFile (body : list byte) : bool :=
  match body with
  | b0 :: b1 :: _ => Byte.eqb b0 x50 && Byte.eqb b1 x4b
  | _ => false
  end.

Inductive Attempt : Type :=
| Extracted (payload : list byte)
| Rejected (detail : string).

Definition detailPrefix (branch zipUrl : string) : string :=
  "Branch " ++ branch ++ " (" ++ zipUrl ++ "): ".

(** the body of the inner loop, for the [n]-th request *)
Definition attempt (net : Network) (n : nat) (branch zipUrl : string) : Attempt :=
  match fetch net n zipUrl with
  | FetchThrows message => Rejected (detailPrefix branch zipUrl ++ message)
  | Response ok status statusText body =>
      if negb ok then
        Rejected (detailPrefix branch zipUrl ++
                  JsString.numberToString status ++ " " ++ statusText)
      else if List.length body =? 0 then
        Rejected (detailPrefix branch zipUrl ++ "Downloaded file is empty")
      else if negb (isZipFile body) then
        Rejected (detailPrefix branch zipUrl ++ "Response is not a zip file")
      else
        match extractAllTo net body with
        | None => Extracted body
        | Some message => Rejected (detailPrefix branch zipUrl ++ message)
        end
  end.

Record DownloadState := {
  errors : list string;
  requested : list string;
  extracted : option (list byte)
}.

(** [for (const zipUrl of urlFormats)]; the flag is [branchDownloaded] *)
Fixpoint tryFormats (net : Network) (branch : string) (urls : list string)
  (st : DownloadState) : bool * DownloadState :=
  match urls with
  | [] => (false, st)
  | zipUrl :: rest =>
      match attempt net (List.length (requested st)) branch zipUrl with
      | Extracted payload =>
          (true, {| errors := errors st;
                    requested := (requested st ++ [zipUrl])%list;
                    extracted := Some payload |})
      | Rejected detail =>
          tryFormats net branch rest
            {| errors := (errors st ++ [detail])%list;
               requested := (requested st ++ [zipUrl])%list;
               extracted := extracted st |}
      end
  end.

(** [for (const branch of branchesToTry)] *)
Fixpoint tryBranches (net : Network) (owner repo : string) (branches : list string)
  (st : DownloadState) : DownloadState :=
  match branches with
  | [] => st
  | branch :: rest =>
      let '(branchDownloaded, st') :=
        tryFormats net branch (urlFormats owner repo branch) st in
      if branchDownloaded then st' else tryBranches net owner repo rest st'
  end.

Definition initialState : DownloadState :=
  {| errors := []; requested := []; extracted := None |}.

Definition failureMessage (branches errs : list string) : string :=
  "Failed to download repository. Tried branches: " ++ JsString.join ", " branches ++
  ". Details: " ++ JsString.join "; " errs.

Inductive Acquired : Type :=
| Cloned
| Downloaded (payload : list byte) (requests : list string)
| DownloadFailed (message : string) (requests : list string).

(** the archive fallback, entered when the clone has failed *)
Definition downloadZip (net : Network) (owner repo : string) : Acquired :=
  let branches := branchesToTry (discoverBranch net owner repo) in
  let st := tryBranches net owner repo branches initialState in
  match extracted st with
  | Some payload => Downloaded payload (requested st)
  | None => DownloadFailed (failureMessage branches (errors st)) (requested st)
  end.

Definition acquire (net : Network) (repoUrl owner repo : string) : Acquired :=
  if gitClone net repoUrl then Cloned else downloadZip net owner repo.

(** The two nested loops read as one pass over a list of (branch, URL)
    pairs: the details of the rejected attempts, the URLs requested, and
    the payload of the attempt that ended the pass, if any.  [n] counts the
    requests made before.  The proofs about [tryBranches] go through this
    form. *)
Fixpoint firstExtracted (net : Network) (n : nat)
  (combos : list (string * string)) : list string * list string * option (list byte) :=
  match combos with
  | [] => ([], [], None)
  | (branch, url) :: rest =>
      match attempt net n branch url with
      | Extracted payload => ([], [url], Some payload)
      | Rejected detail =>
          let '(details, urls, found) := firstExtracted net (S n) rest in
          (detail :: details, url :: urls, found)
      end
  end.

End Acquisition.

(* ================================================================== *)
(** ** The request handler: the repository URL of [POST] *)

Module Handler.
Import Regex.

(** the class [[\w\-\.]] *)
Definition cls_name : ascii -> bool :=
  fun c => JsString.isWord c || Ascii.eqb c "-"%char || Ascii.eqb c "."%char.

(** [/^https:\/\/github\.com\/([\w\-\.]+)\/([\w\-\.]+)(?:\.git)?$/] *)
Definition githubRegex : regex :=
  RCat [RBegin; RStr "https://github.com/";
        RGroup 1 (RPlus (RChar cls_name)); RStr "/";
        RGroup 2 (RPlus (RChar cls_name)); ROpt (RStr ".git"); REnd].

(** [const match = repoUrl.match(githubRegex)] and, when it is not null,
    [const [, owner, repo] = match]; [None] is the answer with status 400.
    Both groups take part in every match. *)
Definition parseRepoUrl (repoUrl : string) : option (string * string) :=
  match jsMatch githubRegex repoUrl with
  | Some m =>
      match group m 1, group m 2 with
      | Some owner, Some repo => Some (owner, repo)
      | _, _ => None
      end
  | None => None
  end.

End Handler.

(* ================================================================== *)
(** ** The specification's notions, stated on their own

    These definitions follow the words of the specification; the theorems
    compare them with the functions above. *)

Module Spec.

(** the distinct names of a list, each at the place of its first
    occurrence *)
Fixpoint firstSeen (names : list string) : list string :=
  match names with
  | [] => []
  | n :: rest => n :: filter (fun m => negb (String.eqb m n)) (firstSeen rest)
  end.

(** the last element of [xs] whose key is [k] *)
Definition lastWith {V : Type} (key : V -> string) (k : string) (xs : list V) : option V :=
  find (fun x => String.eqb (key x) k) (rev xs).

(** the index of the first occurrence of a name *)
Fixpoint firstIndex (n : string) (names : list string) : option nat :=
  match names with
  | [] => None
  | m :: rest => if String.eqb m n then Some 0 else option_map S (firstIndex n rest)
  end.

(** [out] is [cands] deduplicated by key, first-seen position and
    last value winning: as many entries as distinct keys; the keys in the
    order of their first occurrence; each entry the last candidate under
    its key; and entries standing in the order in which their keys first
    occur among the candidates. *)
Definition dedupedBy {V : Type} (key : V -> string) (cands out : list V) : Prop :=
  List.length out = List.length (firstSeen (map key cands)) /\
  map key out = firstSeen (map key cands) /\
  (forall x, In x out -> lastWith key (key x) cands = Some x) /\
  (forall i j x y,
      i < j -> nth_error out i = Some x -> nth_error out j = Some y ->
      exists a b,
        firstIndex (key x) (map key cands) = Some a /\
        firstIndex (key y) (map key cands) = Some b /\
        a < b).

(** every (branch, archive URL) combination, branch by branch *)
Definition combinations (owner repo : string) (branches : list string)
  : list (string * string) :=
  flat_map (fun b => map (fun u => (b, u)) (Acquisition.urlFormats owner repo b)) branches.

(** the request for the default branch fails: it throws, or answers with
    an error status *)
Definition discoveryFails (net : Acquisition.Network) (owner repo : string) : bool :=
  match Acquisition.repoInfo net
          ("https://api.github.com/repos/" ++ owner ++ "/" ++ repo) with
  | Acquisition.InfoThrows => true
  | Acquisition.InfoResponse ok _ => negb ok
  end.

(** What ends the search, in the words of the claim as amended: the
    request is answered with a successful response whose body is not
    empty, begins with the two bytes 0x50 0x4B, and is unpacked without an
    error.  [i] is the number of requests made before this one; [payload]
    is the body. *)
Definition endsTheSearch (net : Acquisition.Network) (i : nat) (url : string)
  (payload : list byte) : Prop :=
  exists status statusText,
    Acquisition.fetch net i url = Acquisition.Response true status statusText payload /\
    payload <> [] /\
    firstn 2 payload = [x50; x4b] /\
    Acquisition.extractAllTo net payload = None.

(** a response that is non-empty and begins with the ZIP magic bytes *)
Definition zipResponse (o : Acquisition.FetchOutcome) : bool :=
  match o with
  | Acquisition.Response _ _ _ body =>
      negb (List.length body =? 0) && Acquisition.isZipFile body
  | Acquisition.FetchThrows _ => false
  end.

Definition requestsOf (a : Acquisition.Acquired) : list string :=
  match a with
  | Acquisition.Cloned => []
  | Acquisition.Downloaded _ urls => urls
  | Acquisition.DownloadFailed _ urls => urls
  end.

(** the claim on the fallback, as the specification words it: the search
    stops at the first combination whose response is non-empty and begins
    with the magic bytes *)
Definition stopsAtFirstZipResponse (net : Acquisition.Network)
  (repoUrl owner repo : string) : Prop :=
  let combos :=
    combinations owner repo
      (Acquisition.branchesToTry (Acquisition.discoverBranch net owner repo)) in
  forall i branch url,
    nth_error combos i = Some (branch, url) ->
    zipResponse (Acquisition.fetch net i url) = true ->
    (forall j b u, j < i -> nth_error combos j = Some (b, u) ->
                   zipResponse (Acquisition.fetch net j u) = false) ->
    requestsOf (Acquisition.acquire net repoUrl owner repo) =
    map snd (firstn (S i) combos).

(** the lifetime of the first file that carries an access-token lifetime
    annotation *)
Definition firstAnnotatedLifetime (files : list Fs.File) : option N :=
  match find (fun f =>
                match TokenStrategy.extractTokenLifetime
                        (Fs.content f) TokenStrategy.accessTokenNames with
                | Some _ => true
                | None => false
                end) files with
  | Some f =>
      TokenStrategy.extractTokenLifetime (Fs.content f) TokenStrategy.accessTokenNames
  | None => None
  end.

(** the claim on lifetimes, as the specification words it: the lifetime
    returned is that of the first annotated file, and 3600 without one *)
Definition firstAnnotatedFileWins (fs : Fs.FileSystem) (repoPath : string) : Prop :=
  TokenStrategy.lifetime
    (TokenStrategy.accessToken (TokenStrategy.extractTokenStrategy fs repoPath)) =
  match firstAnnotatedLifetime (TokenStrategy.tokenFiles fs repoPath) with
  | Some n => n
  | None => 3600%N
  end.

(** the non-zero lifetimes the scanned files carry, in enumeration order *)
Definition adoptedLifetimes (files : list Fs.File) : list N :=
  flat_map (fun f =>
              match TokenStrategy.extractTokenLifetime
                      (Fs.content f) TokenStrategy.accessTokenNames with
              | Some n => if N.eqb n 0 then [] else [n]
              | None => []
              end) files.

(** does a role named [k] put an entry in the hierarchy? *)
Definition addsLevel (k : string) : bool :=
  RoleModel.truthy (RoleModel.levelMap (JsString.toLowerCase k)) &&
  negb (String.eqb k "__proto__").

(** the three fields of a guard the scenarios speak of *)
Definition guardSummary (g : Guards.APIGuard) : string * string * string :=
  (Guards.endpoint g, Guards.method g, Guards.guardProtection g).


(** Literals the extractors test a file's text for, chosen so that a text
    holding none of them passes none of their tests (the tests for other
    literals, such as [push] or [expires], only count together with one of
    these), and the two words the file-name patterns look for in a path. *)
Definition authKeywords : list string :=
  ["role"; "Role"; "permission"; "Permission"; "admin"; "user"; "RBAC"; "ABAC";
   "access_token"; "accessToken"; "refresh_token"; "refreshToken"; "idToken"; "id_token";
   "firebase/auth"; "signInWith"; "cognito"; "COGNITO";
   "strategy:"; "Set-Cookie"; "cookies.set"; "serialize"; "localStorage.setItem";
   "authMiddleware"; "requireAuth"; "checkAuth"; "verifyToken";
   "unauthorized"; "Unauthorized"; "cookies.get"; "status: 401"; "status:401";
   "statusCode: 401"; "No authentication token"; "Authentication required";
   "JWT"; "jwt"; "useAuth"; "useSession"; "isAuthenticated"; "router"; "useRouter";
   "middleware"; "next-auth"].

(** a text, or a path, that mentions none of them *)
Definition keywordFree (s : string) : bool :=
  forallb (fun kw => negb (JsString.includes kw s)) authKeywords.

End Spec.

(* ================================================================== *)
(** ** Concrete corpora and networks used by the examples *)

Module Scenarios.

Definition root : string := "/tmp/auth-extract-1".

(** a file system with one working tree, at [root], and no [package.json] *)
Definition tree (files : list (string * string)) : Fs.FileSystem :=
  fun p => if String.eqb p root
           then Some {| Fs.files := files; Fs.packageJson := None |}
           else None.

Definition q (s : string) : string := JsString.dq ++ s ++ JsString.dq.

(** the role object literal of the specification's scenario *)
Definition rolesText : string :=
  "const roles = { admin: [" ++ q "read" ++ "," ++ q "write" ++ "], viewer: [" ++
  q "read" ++ "] }".

Definition rolesRepo : Fs.FileSystem := tree [("lib/roles.ts", rolesText)].

(** a role list holding only [guest] *)
Definition guestOnly : list RoleModel.RoleDefinition :=
  [{| RoleModel.name := "guest"; RoleModel.permissions := [] |}].

(** a source file that compares the role of a user with [guest] *)
Definition guestRepo : Fs.FileSystem :=
  tree [("lib/access.ts", "if (user.role === 'guest') { return }")].

(** a NextAuth configuration with a [jwt] strategy, a Google provider and
    a [session] callback *)
Definition nextAuthText : string :=
  "export const authOptions = { providers: [GoogleProvider({})], session: { strategy: " ++
  q "jwt" ++ " }, callbacks: { session: async ({session}) => { return session } } }".

Definition nextAuthRouteRepo : Fs.FileSystem :=
  tree [("app/api/[...nextauth]/route.ts", nextAuthText)].

(** the same text in a file named [next-auth.ts] *)
Definition nextAuthFileRepo : Fs.FileSystem :=
  tree [("libs/next-auth.ts", nextAuthText)].

(** an empty source file in a directory with a one-letter name *)
Definition oneLetterDirRepo : Fs.FileSystem := tree [("a/b.ts", "")].

(** a route handler that exports [DELETE] and compares a role with
    [admin], and nothing else *)
Definition deleteText : string :=
  "export async function DELETE(req) { if (user.role === " ++ q "admin" ++
  ") { return ok } }".

Definition ordersRepo (text : string) : Fs.FileSystem :=
  tree [("app/api/orders/route.ts", text)].



(** two files with different access-token lifetimes *)
Definition shortLived : string := "const cfg = { accessToken: { maxAge: 900 } }".
Definition longLived : string := "const cfg = { accessToken: { expiresIn: 7200 } }".

Definition twoLifetimesRepo : Fs.FileSystem :=
  tree [("a1.ts", shortLived); ("a2.ts", longLived)].

(** A download cut after the signature of the first local file header:
    the unzip library finds no end-of-central-directory record in it and
    throws. *)
Definition truncatedZip : list byte := [x50; x4b; x03; x04].

(** A complete archive of 123 bytes: the stored file [r-main/a.ts] (three
    bytes), its central directory entry and the end-of-central-directory
    record. *)
Definition goodZip : list byte :=
  [x50; x4b; x03; x04; x14; x00; x00; x00; x00; x00; x00; x00;
   x21; x58; x7a; x7a; x6f; xed; x03; x00; x00; x00; x03; x00;
   x00; x00; x0b; x00; x00; x00; x72; x2d; x6d; x61; x69; x6e;
   x2f; x61; x2e; x74; x73; x68; x69; x0a; x50; x4b; x01; x02;
   x14; x03; x14; x00; x00; x00; x00; x00; x00; x00; x21; x58;
   x7a; x7a; x6f; xed; x03; x00; x00; x00; x03; x00; x00; x00;
   x0b; x00; x00; x00; x00; x00; x00; x00; x00; x00; x00; x00;
   xa4; x01; x00; x00; x00; x00; x72; x2d; x6d; x61; x69; x6e;
   x2f; x61; x2e; x74; x73; x50; x4b; x05; x06; x00; x00; x00;
   x00; x01; x00; x01; x00; x39; x00; x00; x00; x2c; x00; x00;
   x00; x00; x00].

Fixpoint sameBytes (a b : list byte) : bool :=
  match a, b with
  | [], [] => true
  | x :: a', y :: b' => Byte.eqb x y && sameBytes a' b'
  | _, _ => false
  end.

(** A network where the clone fails, the repository description cannot be
    fetched, the first archive request is answered with the truncated
    download and the later ones with the complete archive, the only body
    that is unpacked. *)

Definition flakyNetwork : Acquisition.Network :=
  {| Acquisition.gitClone := fun _ => false;
     Acquisition.repoInfo := fun _ => Acquisition.InfoThrows;
     Acquisition.fetch := fun n _ =>
       match n with
       | O => Acquisition.Response true 200%N "OK" truncatedZip
       | _ => Acquisition.Response true 200%N "OK" goodZip
       end;
     Acquisition.extractAllTo := fun body =>
       if sameBytes body goodZip then None
       else Some "Invalid or unsupported zip format. No END header found" |}.

(** a network where nothing works *)
Definition deadNetwork : Acquisition.Network :=
  {| Acquisition.gitClone := fun _ => false;
     Acquisition.repoInfo := fun _ => Acquisition.InfoThrows;
     Acquisition.fetch := fun _ _ => Acquisition.Response false 404%N "Not Found" [];
     Acquisition.extractAllTo := fun _ => None |}.

End Scenarios.

(* ================================================================== *)
(** ** More corpora for the examples *)

Module Corpora.

(** a file system with one working tree, at [root], and no [package.json] *)
Definition treeAt (root : string) (files : list (string * string)) : Fs.FileSystem :=
  fun p => if String.eqb p root
           then Some {| Fs.files := files; Fs.packageJson := None |}
           else None.

(** a Next.js middleware at the root of the tree *)
Definition middlewareText : string :=
  "export function middleware(req) { return verifyToken(req) }".

Definition middlewareRepo : Fs.FileSystem :=
  treeAt "/srv/shop" [("middleware.ts", middlewareText)].

(** a middleware whose body holds a nested block *)
Definition nestedMiddlewareText : string :=
  "export function middleware(req) { if (!req.user) { return deny() } return next() }".

(** a guarded route handler *)
Definition guardedText : string :=
  "export async function GET() { const user = await requireAuth(); return user }".


(** a route of the pages router, a route of the app router, and a page *)
Definition routesRepo : Fs.FileSystem :=
  treeAt "/srv/shop"
    [("src/app/api/users/route.ts", guardedText);
     ("pages/api/login.ts", guardedText);
     ("package.json.ts", "")].

(** a NextAuth configuration with the [jwt] strategy and a session of a
    quarter of an hour *)
Definition jwtRepo : Fs.FileSystem :=
  treeAt "/srv/shop" [("lib/next-auth.ts", "session: { strategy: 'jwt', maxAge: 900 }")].

(** a token file that sets its cookie flags and names a refresh token *)
Definition cookieText : string :=
  "res.cookie('accessToken', t, { httpOnly: true, maxAge: 0 }); const refreshToken = 1".

Definition tokenRepo : Fs.FileSystem :=
  treeAt "/srv/shop" [("lib/session.ts", cookieText)].

End Corpora.

(* ================================================================== *)
(** * Properties *)

(** ** Lists and ordered maps *)

Section ListFacts.
Context {A : Type}.

Lemma filter_comm (p r : A -> bool) (l : list A) :
  filter p (filter r l) = filter r (filter p l).
Proof.
  induction l as [|x l IH]; simpl; [reflexivity|].
  destruct (r x) eqn:Hr, (p x) eqn:Hp; simpl; rewrite ?Hr, ?Hp, IH; reflexivity.
Qed.

Lemma filter_and (p r : A -> bool) (l : list A) :
  filter (fun x => p x && r x) l = filter r (filter p l).
Proof.
  induction l as [|x l IH]; simpl; [reflexivity|].
  destruct (p x) eqn:Hp; simpl; [destruct (r x); rewrite IH; reflexivity | exact IH].
Qed.

Lemma filter_none (p : A -> bool) (l : list A) :
  (forall x, In x l -> p x = false) -> filter p l = [].
Proof.
  induction l as [|x l IH]; simpl; intros H; [reflexivity|].
  rewrite (H x (or_introl eq_refl)). apply IH. intros y Hy. apply H. now right.
Qed.

Lemma filter_all (l : list A) : filter (fun _ => true) l = l.
Proof. induction l; simpl; congruence. Qed.

Lemma find_app_split (p : A -> bool) (l1 l2 : list A) :
  find p (l1 ++ l2) = match find p l1 with Some x => Some x | None => find p l2 end.
Proof.
  induction l1 as [|x l1 IH]; simpl; [reflexivity|].
  destruct (p x); [reflexivity | exact IH].
Qed.

Lemma find_none_all (p : A -> bool) (l : list A) :
  (forall x, In x l -> p x = false) -> find p l = None.
Proof.
  induction l as [|x l IH]; simpl; intros H; [reflexivity|].
  rewrite (H x (or_introl eq_refl)). apply IH. intros y Hy. apply H. now right.
Qed.

Lemma find_mapped {B : Type} (f : A -> B) (p : B -> bool) (l : list A) :
  find p (map f l) = option_map f (find (fun x => p (f x)) l).
Proof.
  induction l as [|x l IH]; simpl; [reflexivity|].
  destruct (p (f x)); [reflexivity | exact IH].
Qed.

End ListFacts.

(** ** The matcher: the fuel of a repetition is enough *)

Lemma string_app_assoc_eq (a b c : string) : ((a ++ b) ++ c = a ++ (b ++ c))%string.
Proof. induction a as [|x a IH]; simpl; congruence. Qed.

Lemma includes_unfold_eq (needle s : string) :
  JsString.includes needle s =
  if String.prefix needle s then true
  else match s with
       | EmptyString => false
       | String _ t => JsString.includes needle t
       end.
Proof. destruct s; reflexivity. Qed.

Section RegexFacts.
Import Regex.

Lemma later_refl pos s : later pos s pos s.
Proof. unfold later. lia. Qed.

Lemma later_trans pos s pos1 s1 pos2 s2 :
  later pos s pos1 s1 -> later pos1 s1 pos2 s2 -> later pos s pos2 s2.
Proof. unfold later. lia. Qed.

Lemma stripPrefix_length (lit s s' : string) :
  stripPrefix lit s = Some s' ->
  String.length s = String.length lit + String.length s'.
Proof.
  revert s. induction lit as [|c lit IH]; intros s; simpl.
  - intros H. inversion H. reflexivity.
  - destruct s as [|d s]; [discriminate|].
    destruct (Ascii.eqb c d); [|discriminate].
    intros H. simpl. now rewrite (IH _ H).
Qed.

Lemma starLoop_ext step (k1 k2 : Cont) :
  (forall pos s caps c1 c2,
      (forall pos' s' caps', later pos s pos' s' -> c1 pos' s' caps' = c2 pos' s' caps') ->
      step pos s caps c1 = step pos s caps c2) ->
  forall fuel pos s caps,
    (forall pos' s' caps', later pos s pos' s' -> k1 pos' s' caps' = k2 pos' s' caps') ->
    starLoop step k1 fuel pos s caps = starLoop step k2 fuel pos s caps.
Proof.
  intros Hstep. induction fuel as [|fuel IH]; intros pos s caps Hk; simpl.
  - apply Hk, later_refl.
  - rewrite (Hstep pos s caps _
               (fun pos' s' caps' =>
                  if pos' =? pos then None else starLoop step k2 fuel pos' s' caps')).
    + now rewrite (Hk pos s caps (later_refl _ _)).
    + intros pos' s' caps' Hl. destruct (pos' =? pos); [reflexivity|].
      apply IH. intros pos2 s2 caps2 Hl2. apply Hk. eapply later_trans; eauto.
Qed.

Lemma lazyLoop_ext step (k1 k2 : Cont) :
  (forall pos s caps c1 c2,
      (forall pos' s' caps', later pos s pos' s' -> c1 pos' s' caps' = c2 pos' s' caps') ->
      step pos s caps c1 = step pos s caps c2) ->
  forall fuel pos s caps,
    (forall pos' s' caps', later pos s pos' s' -> k1 pos' s' caps' = k2 pos' s' caps') ->
    lazyLoop step k1 fuel pos s caps = lazyLoop step k2 fuel pos s caps.
Proof.
  intros Hstep. induction fuel as [|fuel IH]; intros pos s caps Hk; simpl.
  - apply Hk, later_refl.
  - rewrite (Hk pos s caps (later_refl _ _)).
    destruct (k2 pos s caps); [reflexivity|].
    apply Hstep. intros pos' s' caps' Hl. destruct (pos' =? pos); [reflexivity|].
    apply IH. intros pos2 s2 caps2 Hl2. apply Hk. eapply later_trans; eauto.
Qed.

(** the result of a match depends on the continuation only through what
    it does on suffixes of the text *)
Lemma rmatch_ext (r : regex) :
  forall pos s caps (k1 k2 : Cont),
    (forall pos' s' caps', later pos s pos' s' -> k1 pos' s' caps' = k2 pos' s' caps') ->
    rmatch r pos s caps k1 = rmatch r pos s caps k2.
Proof.
  induction r as [|p|lit|a IHa b IHb|a IHa b IHb|a IHa|a IHa|i a IHa| |];
    intros pos s caps k1 k2 Hk; cbn [rmatch].
  - apply Hk, later_refl.
  - destruct s as [|c s]; [reflexivity|]. destruct (p c); [|reflexivity].
    apply Hk. unfold later. simpl. lia.
  - destruct (stripPrefix lit s) as [s'|] eqn:E; [|reflexivity].
    apply Hk. unfold later. rewrite (stripPrefix_length _ _ _ E). lia.
  - apply IHa. intros pos' s' caps' Hl. apply IHb.
    intros pos2 s2 caps2 Hl2. apply Hk. eapply later_trans; eauto.
  - rewrite (IHa pos s caps k1 k2 Hk), (IHb pos s caps k1 k2 Hk). reflexivity.
  - apply starLoop_ext; [exact IHa | exact Hk].
  - apply lazyLoop_ext; [exact IHa | exact Hk].
  - apply IHa. intros pos' s' caps' Hl. apply Hk. exact Hl.
  - destruct (pos =? 0); [apply Hk, later_refl | reflexivity].
  - destruct s; [apply Hk, later_refl | reflexivity].
Qed.

(** a match can only succeed through its continuation *)
Lemma rmatch_none (r : regex) :
  forall pos s caps (k : Cont),
    (forall pos' s' caps', later pos s pos' s' -> k pos' s' caps' = None) ->
    rmatch r pos s caps k = None.
Proof.
  induction r as [|p|lit|a IHa b IHb|a IHa b IHb|a IHa|a IHa|i a IHa| |];
    intros pos s caps k Hk; cbn [rmatch].
  - apply Hk, later_refl.
  - destruct s as [|c s]; [reflexivity|]. destruct (p c); [|reflexivity].
    apply Hk. unfold later. simpl. lia.
  - destruct (stripPrefix lit s) as [s'|] eqn:E; [|reflexivity].
    apply Hk. unfold later. rewrite (stripPrefix_length _ _ _ E). lia.
  - apply IHa. intros pos' s' caps' Hl. apply IHb.
    intros pos2 s2 caps2 Hl2. apply Hk. eapply later_trans; eauto.
  - rewrite (IHa pos s caps k Hk). apply IHb, Hk.
  - generalize (String.length s) at 1. intros fuel. revert pos s caps Hk.
    induction fuel as [|fuel IH]; intros pos s caps Hk; simpl.
    + apply Hk, later_refl.
    + rewrite IHa; [apply Hk, later_refl|].
      intros pos' s' caps' Hl. destruct (pos' =? pos); [reflexivity|].
      apply IH. intros pos2 s2 caps2 Hl2. apply Hk. eapply later_trans; eauto.
  - generalize (String.length s) at 1. intros fuel. revert pos s caps Hk.
    induction fuel as [|fuel IH]; intros pos s caps Hk; simpl.
    + apply Hk, later_refl.
    + rewrite (Hk pos s caps (later_refl _ _)). apply IHa.
      intros pos' s' caps' Hl. destruct (pos' =? pos); [reflexivity|].
      apply IH. intros pos2 s2 caps2 Hl2. apply Hk. eapply later_trans; eauto.
  - apply IHa. intros pos' s' caps' Hl. apply Hk. exact Hl.
  - destruct (pos =? 0); [apply Hk, later_refl | reflexivity].
  - destruct s; [apply Hk, later_refl | reflexivity].
Qed.

(** an iteration that may not stay in place finds nothing in an empty
    text *)
Lemma no_iteration_on_empty (a : regex) (pos : nat) (s : string) (caps : Caps)
  (next : Cont) :
  String.length s = 0 ->
  rmatch a pos s caps
    (fun pos' s' caps' => if pos' =? pos then None else next pos' s' caps') = None.
Proof.
  intros Hs. apply rmatch_none. intros pos' s' caps' [Hle Heq].
  assert (pos' = pos) by lia. subst. now rewrite Nat.eqb_refl.
Qed.

(** Any fuel at least the length of the text gives the same result: the
    loop of a greedy repetition never runs out of the fuel [rmatch] gives
    it. *)
Lemma starLoop_fuel (a : regex) (k : Cont) :
  forall f1 f2 pos s caps,
    String.length s <= f1 -> String.length s <= f2 ->
    starLoop (rmatch a) k f1 pos s caps = starLoop (rmatch a) k f2 pos s caps.
Proof.
  induction f1 as [|f1 IH]; intros f2 pos s caps H1 H2.
  - destruct f2 as [|f2]; [reflexivity|]. simpl.
    rewrite no_iteration_on_empty by lia. reflexivity.
  - destruct f2 as [|f2]; simpl.
    + rewrite no_iteration_on_empty by lia. reflexivity.
    + rewrite (rmatch_ext a pos s caps _
                 (fun pos' s' caps' =>
                    if pos' =? pos then None
                    else starLoop (rmatch a) k f2 pos' s' caps')); [reflexivity|].
      intros pos' s' caps' [Hle Heq]. destruct (pos' =? pos) eqn:E; [reflexivity|].
      apply Nat.eqb_neq in E. apply IH; lia.
Qed.

Lemma lazyLoop_fuel (a : regex) (k : Cont) :
  forall f1 f2 pos s caps,
    String.length s <= f1 -> String.length s <= f2 ->
    lazyLoop (rmatch a) k f1 pos s caps = lazyLoop (rmatch a) k f2 pos s caps.
Proof.
  induction f1 as [|f1 IH]; intros f2 pos s caps H1 H2.
  - destruct f2 as [|f2]; [reflexivity|]. simpl.
    rewrite no_iteration_on_empty by lia. now destruct (k pos s caps).
  - destruct f2 as [|f2]; simpl.
    + rewrite no_iteration_on_empty by lia. now destruct (k pos s caps).
    + destruct (k pos s caps); [reflexivity|].
      apply rmatch_ext.
      intros pos' s' caps' [Hle Heq]. destruct (pos' =? pos) eqn:E; [reflexivity|].
      apply Nat.eqb_neq in E. apply IH; lia.
Qed.

(** *** Every match consumes at least [minLength] characters *)

Lemma rmatch_some (r : regex) :
  forall pos s caps (k : Cont) x,
    rmatch r pos s caps k = Some x ->
    exists pos' s' caps',
      later pos s pos' s' /\ pos + minLength r <= pos' /\ k pos' s' caps' = Some x.
Proof.
  induction r as [|p|lit|a IHa b IHb|a IHa b IHb|a IHa|a IHa|i a IHa| |];
    intros pos s caps k x; cbn [rmatch minLength].
  - intros H. exists pos, s, caps. split; [apply later_refl|]. split; [lia | exact H].
  - destruct s as [|c s]; [discriminate|]. destruct (p c); [|discriminate].
    intros H. exists (S pos), s, caps. unfold later. simpl. repeat split; try lia. exact H.
  - destruct (stripPrefix lit s) as [s'|] eqn:E; [|discriminate].
    intros H. exists (pos + String.length lit), s', caps.
    unfold later. rewrite (stripPrefix_length _ _ _ E). repeat split; try lia. exact H.
  - intros H. destruct (IHa _ _ _ _ _ H) as [p1 [s1 [c1 [Hl1 [Hm1 H1]]]]].
    destruct (IHb _ _ _ _ _ H1) as [p2 [s2 [c2 [Hl2 [Hm2 H2]]]]].
    exists p2, s2, c2. split; [eapply later_trans; eauto|]. split; [lia | exact H2].
  - destruct (rmatch a pos s caps k) as [y|] eqn:Ea.
    + intros H. inversion H; subst y.
      destruct (IHa _ _ _ _ _ Ea) as [p1 [s1 [c1 [Hl1 [Hm1 H1]]]]].
      exists p1, s1, c1. repeat split; try apply Hl1; [lia | exact H1].
    + intros H. destruct (IHb _ _ _ _ _ H) as [p1 [s1 [c1 [Hl1 [Hm1 H1]]]]].
      exists p1, s1, c1. repeat split; try apply Hl1; [lia | exact H1].
  - generalize (String.length s) at 1. intros fuel. revert pos s caps.
    induction fuel as [|fuel IH]; intros pos s caps; simpl.
    + intros H. exists pos, s, caps. split; [apply later_refl|]. split; [lia | exact H].
    + destruct (rmatch a pos s caps _) as [y|] eqn:Ea.
      * intros H. inversion H; subst y.
        destruct (IHa _ _ _ _ _ Ea) as [p1 [s1 [c1 [Hl1 [Hm1 H1]]]]].
        destruct (p1 =? pos); [discriminate|].
        destruct (IH _ _ _ H1) as [p2 [s2 [c2 [Hl2 [Hm2 H2]]]]].
        exists p2, s2, c2. split; [eapply later_trans; eauto|]. split; [lia | exact H2].
      * intros H. exists pos, s, caps. split; [apply later_refl|]. split; [lia | exact H].
  - generalize (String.length s) at 1. intros fuel. revert pos s caps.
    induction fuel as [|fuel IH]; intros pos s caps; simpl.
    + intros H. exists pos, s, caps. split; [apply later_refl|]. split; [lia | exact H].
    + destruct (k pos s caps) as [y|] eqn:Ek.
      * intros H. inversion H; subst y. exists pos, s, caps.
        split; [apply later_refl|]. split; [lia | exact Ek].
      * intros H. destruct (IHa _ _ _ _ _ H) as [p1 [s1 [c1 [Hl1 [Hm1 H1]]]]].
        destruct (p1 =? pos); [discriminate|].
        destruct (IH _ _ _ H1) as [p2 [s2 [c2 [Hl2 [Hm2 H2]]]]].
        exists p2, s2, c2. split; [eapply later_trans; eauto|]. split; [lia | exact H2].
  - intros H. destruct (IHa _ _ _ _ _ H) as [p1 [s1 [c1 [Hl1 [Hm1 H1]]]]].
    exists p1, s1, ((i, (pos, p1)) :: c1). repeat split; try apply Hl1; [lia | exact H1].
  - destruct (pos =? 0); [|discriminate].
    intros H. exists pos, s, caps. split; [apply later_refl|]. split; [lia | exact H].
  - destruct s; [|discriminate].
    intros H. exists pos, "", caps. split; [apply later_refl|]. split; [lia | exact H].
Qed.

(** where a match found by a search lies *)
Lemma searchFrom_bounds (subj : string) (r : regex) :
  forall s pos m,
    searchFrom subj r pos s = Some m ->
    pos <= mstart m /\ mstart m + minLength r <= mend m /\
    mend m <= pos + String.length s.
Proof.
  induction s as [|c s IH]; intros pos m; cbn [searchFrom].
  - destruct (rmatch r pos "" [] accept) as [[e caps]|] eqn:E; [|discriminate].
    intros H. inversion H; subst m. cbn [mstart mend].
    destruct (rmatch_some _ _ _ _ _ _ E) as [p1 [s1 [c1 [[Hle Heq] [Hm H1]]]]].
    inversion H1; subst. simpl in *. lia.
  - destruct (rmatch r pos (String c s) [] accept) as [[e caps]|] eqn:E.
    + intros H. inversion H; subst m. cbn [mstart mend].
      destruct (rmatch_some _ _ _ _ _ _ E) as [p1 [s1 [c1 [[Hle Heq] [Hm H1]]]]].
      inversion H1; subst. simpl in *. lia.
    + intros H. destruct (IH _ _ H) as [H1 [H2 H3]]. simpl. lia.
Qed.

Lemma length_drop (n : nat) (s : string) :
  String.length (JsString.drop n s) = String.length s - n.
Proof.
  revert s. induction n as [|n IH]; intros s; simpl; [lia|].
  destruct s as [|c s]; simpl; [reflexivity | apply IH].
Qed.

(** For an expression that cannot match the empty string, the loop over
    [exec] never runs out of the fuel [execAll] gives it: any fuel above
    the length of the text gives the same matches. *)
Lemma execLoop_fuel (subj : string) (r : regex) :
  0 < minLength r ->
  forall f1 f2 pos s,
    String.length s < f1 -> String.length s < f2 ->
    execLoop f1 subj r pos s = execLoop f2 subj r pos s.
Proof.
  intros Hmin. induction f1 as [|f1 IH]; intros f2 pos s H1 H2; [lia|].
  destruct f2 as [|f2]; [lia|]. cbn [execLoop].
  destruct (searchFrom subj r pos s) as [m|] eqn:E; [|reflexivity].
  destruct (searchFrom_bounds _ _ _ _ _ E) as [Ha [Hb Hc]].
  f_equal. apply IH; rewrite length_drop; lia.
Qed.

Example user_role_pattern_consumes :
  minLength RoleModel.userRolePattern = 13 /\
  minLength RoleModel.permissionCheckPattern = 9.
Proof. split; reflexivity. Qed.

(** *** Matching does not depend on where the text sits in the subject *)

Lemma starLoop_shift (d : nat) step (k K : Cont) :
  (forall pos s caps (k0 K0 : Cont),
      (forall p' s' c',
          K0 (d + p') s' (shiftCaps d c') = option_map (shiftResult d) (k0 p' s' c')) ->
      step (d + pos) s (shiftCaps d caps) K0 =
      option_map (shiftResult d) (step pos s caps k0)) ->
  (forall p' s' c',
      K (d + p') s' (shiftCaps d c') = option_map (shiftResult d) (k p' s' c')) ->
  forall fuel pos s caps,
    starLoop step K fuel (d + pos) s (shiftCaps d caps) =
    option_map (shiftResult d) (starLoop step k fuel pos s caps).
Proof.
  intros Hstep Hk. induction fuel as [|fuel IH]; intros pos s caps; simpl.
  - apply Hk.
  - rewrite (Hstep pos s caps
               (fun pos' s' caps' =>
                  if pos' =? pos then None else starLoop step k fuel pos' s' caps')).
    + destruct (step pos s caps _); simpl; [reflexivity | apply Hk].
    + intros p' s' c'. replace (d + p' =? d + pos) with (p' =? pos).
      * destruct (p' =? pos); [reflexivity | apply IH].
      * destruct (Nat.eqb_spec p' pos), (Nat.eqb_spec (d + p') (d + pos));
          try reflexivity; lia.
Qed.

Lemma lazyLoop_shift (d : nat) step (k K : Cont) :
  (forall pos s caps (k0 K0 : Cont),
      (forall p' s' c',
          K0 (d + p') s' (shiftCaps d c') = option_map (shiftResult d) (k0 p' s' c')) ->
      step (d + pos) s (shiftCaps d caps) K0 =
      option_map (shiftResult d) (step pos s caps k0)) ->
  (forall p' s' c',
      K (d + p') s' (shiftCaps d c') = option_map (shiftResult d) (k p' s' c')) ->
  forall fuel pos s caps,
    lazyLoop step K fuel (d + pos) s (shiftCaps d caps) =
    option_map (shiftResult d) (lazyLoop step k fuel pos s caps).
Proof.
  intros Hstep Hk. induction fuel as [|fuel IH]; intros pos s caps; simpl.
  - apply Hk.
  - rewrite Hk. destruct (k pos s caps); simpl; [reflexivity|].
    apply Hstep. intros p' s' c'. replace (d + p' =? d + pos) with (p' =? pos).
    + destruct (p' =? pos); [reflexivity | apply IH].
    + destruct (Nat.eqb_spec p' pos), (Nat.eqb_spec (d + p') (d + pos));
        try reflexivity; lia.
Qed.

Lemma rmatch_shift (d : nat) (r : regex) :
  anchored r = false ->
  forall pos s caps (k K : Cont),
    (forall p' s' c',
        K (d + p') s' (shiftCaps d c') = option_map (shiftResult d) (k p' s' c')) ->
    rmatch r (d + pos) s (shiftCaps d caps) K =
    option_map (shiftResult d) (rmatch r pos s caps k).
Proof.
  induction r as [|p|lit|a IHa b IHb|a IHa b IHb|a IHa|a IHa|i a IHa| |];
    cbn [anchored]; intros Hr pos s caps k K Hk; cbn [rmatch];
    try (apply orb_false_iff in Hr; destruct Hr as [Hra Hrb]).
  - apply Hk.
  - destruct s as [|c s]; [reflexivity|]. destruct (p c); [|reflexivity].
    rewrite <- Nat.add_succ_r. apply Hk.
  - destruct (stripPrefix lit s); [|reflexivity].
    rewrite <- Nat.add_assoc. apply Hk.
  - apply (IHa Hra). intros p' s' c'. now apply (IHb Hrb).
  - rewrite (IHa Hra pos s caps k K Hk).
    destruct (rmatch a pos s caps k); simpl; [reflexivity|].
    now apply (IHb Hrb).
  - apply starLoop_shift; [|exact Hk]. intros. now apply (IHa Hr).
  - apply lazyLoop_shift; [|exact Hk]. intros. now apply (IHa Hr).
  - apply (IHa Hr). intros p' s' c'. apply (Hk p' s' ((i, (pos, p')) :: c')).
  - discriminate.
  - destruct s; [apply Hk | reflexivity].
Qed.

(** a search in a text gives the same match when the text is the end of a
    longer subject *)
Lemma searchFrom_shift (pre text : string) (r : regex) :
  anchored r = false ->
  forall pos s,
    searchFrom (pre ++ text) r (String.length pre + pos) s =
    option_map (shiftMatch pre) (searchFrom text r pos s).
Proof.
  intros Hr pos s. revert pos. induction s as [|c s IH]; intros pos; cbn [searchFrom].
  - pose proof (rmatch_shift (String.length pre) r Hr pos "" [] accept accept
                  (fun _ _ _ => eq_refl)) as H.
    cbn [shiftCaps map] in H. rewrite H.
    destruct (rmatch r pos "" [] accept) as [[e caps]|]; reflexivity.
  - pose proof (rmatch_shift (String.length pre) r Hr pos (String c s) [] accept accept
                  (fun _ _ _ => eq_refl)) as H.
    cbn [shiftCaps map] in H. rewrite H.
    destruct (rmatch r pos (String c s) [] accept) as [[e caps]|]; simpl.
    + reflexivity.
    + rewrite <- Nat.add_succ_r. apply IH.
Qed.

Lemma drop_app_length (pre s : string) (n : nat) :
  JsString.drop (String.length pre + n) (pre ++ s) = JsString.drop n s.
Proof. induction pre as [|c pre IH]; simpl; [reflexivity | exact IH]. Qed.

Lemma lookupCap_shift (d i : nat) (caps : Caps) :
  lookupCap i (shiftCaps d caps) =
  option_map (fun span => (d + fst span, d + snd span)) (lookupCap i caps).
Proof.
  induction caps as [|[j [a b]] caps IH]; simpl; [reflexivity|].
  destruct (i =? j); [reflexivity | exact IH].
Qed.

Lemma group_shift (pre : string) (m : MatchResult) (i : nat) :
  group (shiftMatch pre m) i = group m i.
Proof.
  unfold group, shiftMatch. cbn [mcaps subject]. rewrite lookupCap_shift.
  destruct (lookupCap i (mcaps m)) as [[a b]|]; simpl; [|reflexivity].
  rewrite drop_app_length. do 2 f_equal. lia.
Qed.

(** *** A search skips the places where its leading literal is absent *)

Lemma searchFrom_skip (subj lit : string) (rest : regex) (pre s : string) :
  startsNowhere lit pre s = true ->
  forall pos,
    searchFrom subj (RSeq (RStr lit) rest) pos (pre ++ s) =
    searchFrom subj (RSeq (RStr lit) rest) (pos + String.length pre) s.
Proof.
  induction pre as [|c pre IH]; intros H pos.
  - simpl. now rewrite Nat.add_0_r.
  - cbn [startsNowhere] in H. cbn [String.append searchFrom rmatch].
    destruct (stripPrefix lit (String c (pre ++ s))); [discriminate|].
    rewrite (IH H). cbn [String.length]. now rewrite Nat.add_succ_comm.
Qed.

Lemma stripPrefix_take (lit : string) :
  forall x s n r,
    stripPrefix lit (x ++ s) = Some r ->
    String.length lit <= String.length x + n ->
    String.prefix lit (x ++ JsString.take n s) = true.
Proof.
  induction lit as [|a lit IH]; intros x s n r Hs Hl.
  - destruct (x ++ JsString.take n s)%string; reflexivity.
  - destruct x as [|b x].
    + cbn [String.append] in *. destruct s as [|b s]; [discriminate|].
      cbn [stripPrefix] in Hs. destruct (Ascii.eqb_spec a b); [|discriminate]. subst b.
      destruct n as [|n]; [simpl in Hl; lia|].
      cbn [JsString.take String.prefix]. destruct (ascii_dec a a); [|congruence].
      apply (IH "" s n r Hs). simpl in *. lia.
    + cbn [String.append stripPrefix] in *.
      destruct (Ascii.eqb_spec a b); [|discriminate]. subst b.
      cbn [String.prefix]. destruct (ascii_dec a a); [|congruence].
      apply (IH x s n r Hs). simpl in *. lia.
Qed.

(** if a literal does not occur in [pre] followed by the first [n]
    characters of [s], it starts nowhere inside [pre] *)
Lemma startsNowhere_of_includes (lit pre s : string) (n : nat) :
  String.length lit <= S n ->
  JsString.includes lit (pre ++ JsString.take n s) = false ->
  startsNowhere lit pre s = true.
Proof.
  intros Hl. induction pre as [|c pre IH]; intros H; [reflexivity|].
  cbn [startsNowhere].
  cbn [String.append] in H. rewrite includes_unfold_eq in H.
  destruct (String.prefix lit (String c (pre ++ JsString.take n s))) eqn:Hp;
    [discriminate|].
  destruct (stripPrefix lit (String c (pre ++ s))) as [r|] eqn:Hs.
  - pose proof (stripPrefix_take lit (String c pre) s n r Hs) as Ht.
    cbn [String.append] in Ht. rewrite Ht in Hp; [discriminate | simpl; lia].
  - apply IH, H.
Qed.

(** the first group of a literal-headed pattern, found in the end of a
    subject whose beginning cannot start a match *)
Lemma firstGroup_in_suffix (lit : string) (rest : regex) (pre text : string) :
  anchored rest = false ->
  startsNowhere lit pre text = true ->
  Guards.firstGroup (RSeq (RStr lit) rest) (pre ++ text) =
  Guards.firstGroup (RSeq (RStr lit) rest) text.
Proof.
  intros Ha Hn. unfold Guards.firstGroup, jsMatch.
  rewrite (searchFrom_skip _ _ _ _ _ Hn). cbn [Nat.add].
  rewrite <- (Nat.add_0_r (String.length pre)).
  rewrite searchFrom_shift by exact Ha.
  destruct (searchFrom text (RSeq (RStr lit) rest) 0 text); simpl;
    [apply group_shift | reflexivity].
Qed.

End RegexFacts.

Section FirstSeenFacts.

Lemma existsb_eqb_In (k : string) (l : list string) :
  existsb (String.eqb k) l = true <-> In k l.
Proof.
  rewrite existsb_exists. split.
  - intros [x [Hx He]]. apply String.eqb_eq in He. now subst.
  - intros H. exists k. split; [exact H | apply String.eqb_refl].
Qed.

Lemma filter_drop_one (p : string -> bool) (n : string) (l : list string) :
  p n = false ->
  filter p (filter (fun m => negb (String.eqb m n)) l) = filter p l.
Proof.
  intros Hn. induction l as [|x l IH]; simpl; [reflexivity|].
  destruct (String.eqb x n) eqn:E; simpl.
  - apply String.eqb_eq in E. subst x. rewrite Hn. exact IH.
  - rewrite IH. reflexivity.
Qed.

Lemma firstSeen_filter (p : string -> bool) (l : list string) :
  Spec.firstSeen (filter p l) = filter p (Spec.firstSeen l).
Proof.
  induction l as [|n l IH]; simpl; [reflexivity|].
  destruct (p n) eqn:Hp; simpl.
  - rewrite IH, filter_comm. reflexivity.
  - rewrite IH. symmetry. now apply filter_drop_one.
Qed.

Lemma firstSeen_In (k : string) (l : list string) :
  In k (Spec.firstSeen l) <-> In k l.
Proof.
  induction l as [|n l IH]; simpl; [tauto|].
  rewrite filter_In, IH. destruct (String.eqb k n) eqn:E.
  - apply String.eqb_eq in E. subst. simpl. intuition congruence.
  - assert (n <> k) by (intros ->; rewrite String.eqb_refl in E; discriminate).
    simpl. intuition congruence.
Qed.

Lemma firstSeen_NoDup (l : list string) : NoDup (Spec.firstSeen l).
Proof.
  induction l as [|n l IH]; simpl; constructor.
  - rewrite filter_In. intros [_ H]. rewrite String.eqb_refl in H. discriminate.
  - now apply NoDup_filter.
Qed.

(** a list without repetition is its own list of first occurrences *)
Lemma firstSeen_id (l : list string) : NoDup l -> Spec.firstSeen l = l.
Proof.
  induction 1 as [|n l Hn Hd IH]; simpl; [reflexivity|].
  rewrite IH. f_equal.
  clear IH Hd. induction l as [|x l IH]; simpl; [reflexivity|].
  destruct (String.eqb x n) eqn:E.
  - apply String.eqb_eq in E. subst. exfalso. apply Hn. now left.
  - simpl. f_equal. apply IH. intros H. apply Hn. now right.
Qed.

Lemma filter_keeps_order {A : Type} (p : A -> bool) (l : list A) :
  forall i j x y,
    i < j -> nth_error (filter p l) i = Some x -> nth_error (filter p l) j = Some y ->
    exists i' j', i' < j' /\ nth_error l i' = Some x /\ nth_error l j' = Some y.
Proof.
  induction l as [|a l IH]; intros i j x y Hij Hi Hj; simpl in *.
  - destruct i; discriminate.
  - destruct (p a).
    + destruct i as [|i], j as [|j]; simpl in *; try lia.
      * apply nth_error_In, filter_In in Hj. destruct Hj as [Hj _].
        apply In_nth_error in Hj. destruct Hj as [k Hk].
        exists 0, (S k). repeat split; [lia | exact Hi | exact Hk].
      * destruct (IH i j x y) as [i' [j' [Hlt [Hx Hy]]]]; [lia | auto | auto |].
        exists (S i'), (S j'). repeat split; [lia | exact Hx | exact Hy].
    + destruct (IH i j x y Hij Hi Hj) as [i' [j' [Hlt [Hx Hy]]]].
      exists (S i'), (S j'). repeat split; [lia | exact Hx | exact Hy].
Qed.

Lemma firstIndex_In (k : string) (l : list string) :
  In k l -> exists a, Spec.firstIndex k l = Some a.
Proof.
  induction l as [|n l IH]; simpl; [contradiction|].
  intros H. destruct (String.eqb n k) eqn:E; [now exists 0|].
  destruct H as [-> | H]; [rewrite String.eqb_refl in E; discriminate|].
  destruct (IH H) as [a Ha]. exists (S a). now rewrite Ha.
Qed.

(** the entries of [firstSeen] stand in the order of their first
    occurrences *)
Lemma firstSeen_order (l : list string) :
  forall i j x y,
    i < j ->
    nth_error (Spec.firstSeen l) i = Some x ->
    nth_error (Spec.firstSeen l) j = Some y ->
    exists a b,
      Spec.firstIndex x l = Some a /\ Spec.firstIndex y l = Some b /\ a < b.
Proof.
  induction l as [|n l IH]; intros i j x y Hij Hi Hj.
  - destruct i; discriminate.
  - cbn [Spec.firstSeen] in Hi, Hj. destruct j as [|j]; [lia|].
    cbn [nth_error] in Hj.
    assert (Hy := nth_error_In _ _ Hj). apply filter_In in Hy.
    destruct Hy as [Hy Hyn]. apply negb_true_iff in Hyn.
    rewrite String.eqb_sym in Hyn.
    destruct i as [|i]; cbn [nth_error] in Hi.
    + inversion Hi; subst x. rewrite firstSeen_In in Hy.
      destruct (firstIndex_In _ _ Hy) as [b Hb].
      exists 0, (S b). cbn [Spec.firstIndex].
      rewrite String.eqb_refl, Hyn, Hb. repeat split. lia.
    + assert (Hx := nth_error_In _ _ Hi). apply filter_In in Hx.
      destruct Hx as [_ Hxn]. apply negb_true_iff in Hxn.
      rewrite String.eqb_sym in Hxn.
      assert (Hlt0 : i < j) by lia.
      destruct (filter_keeps_order _ _ i j x y Hlt0 Hi Hj) as [i' [j' [Hlt [Hx' Hy']]]].
      destruct (IH _ _ _ _ Hlt Hx' Hy') as [a [b [Ha [Hb Hab]]]].
      exists (S a), (S b). cbn [Spec.firstIndex].
      rewrite Hxn, Hyn, Ha, Hb. repeat split. lia.
Qed.

End FirstSeenFacts.

Section OrderedMapFacts.
Context {V : Type}.
Implicit Types (m : list (string * V)) (k : string) (v : V).

Lemma keys_set k v m :
  JsMap.keys (JsMap.set k v m) =
  if existsb (String.eqb k) (JsMap.keys m) then JsMap.keys m
  else (JsMap.keys m ++ [k])%list.
Proof.
  unfold JsMap.keys.
  induction m as [|[k' v'] m IH]; simpl; [reflexivity|].
  rewrite (String.eqb_sym k k'). destruct (String.eqb k' k) eqn:E; simpl.
  - apply String.eqb_eq in E. now subst.
  - rewrite IH.
    destruct (existsb (String.eqb k) (map fst m)); reflexivity.
Qed.

Lemma get_set k k' v m :
  JsMap.get k (JsMap.set k' v m) =
  if String.eqb k' k then Some v else JsMap.get k m.
Proof.
  induction m as [|[k0 v0] m IH]; simpl.
  - reflexivity.
  - destruct (String.eqb k0 k') eqn:E0; simpl.
    + apply String.eqb_eq in E0. subst k0.
      destruct (String.eqb k' k); reflexivity.
    + destruct (String.eqb k0 k) eqn:E1.
      * apply String.eqb_eq in E1. subst k0.
        rewrite (String.eqb_sym k' k), E0. reflexivity.
      * exact IH.
Qed.

Lemma keys_fold (es : list (string * V)) m :
  JsMap.keys (fold_left JsMap.step es m) =
  (JsMap.keys m ++
   Spec.firstSeen
     (filter (fun k => negb (existsb (String.eqb k) (JsMap.keys m))) (map fst es)))%list.
Proof.
  revert m. induction es as [|[k v] es IH]; intros m; simpl.
  - now rewrite app_nil_r.
  - rewrite IH. unfold JsMap.step at 1 2. simpl. rewrite keys_set.
    destruct (existsb (String.eqb k) (JsMap.keys m)) eqn:E; simpl.
    + reflexivity.
    + rewrite <- app_assoc. simpl. f_equal. f_equal.
      rewrite <- firstSeen_filter. f_equal.
      rewrite <- filter_and. apply filter_ext. intros x.
      rewrite existsb_app. simpl. rewrite orb_false_r, negb_orb. reflexivity.
Qed.

Lemma get_fold (es : list (string * V)) m k :
  JsMap.get k (fold_left JsMap.step es m) =
  match find (fun e => String.eqb (fst e) k) (rev es) with
  | Some e => Some (snd e)
  | None => JsMap.get k m
  end.
Proof.
  revert m. induction es as [|e es IH]; intros m; simpl; [reflexivity|].
  rewrite IH, find_app_split.
  destruct (find (fun e0 => String.eqb (fst e0) k) (rev es)); [reflexivity|].
  unfold JsMap.step. rewrite get_set. simpl. destruct (String.eqb (fst e) k); reflexivity.
Qed.

Lemma get_In k v m :
  NoDup (JsMap.keys m) -> In (k, v) m -> JsMap.get k m = Some v.
Proof.
  induction m as [|[k0 v0] m IH]; simpl; intros Hd Hin; [contradiction|].
  inversion Hd as [|? ? Hn Hd']; subst.
  destruct Hin as [Heq | Hin].
  - inversion Heq; subst. now rewrite String.eqb_refl.
  - destruct (String.eqb k0 k) eqn:E.
    + apply String.eqb_eq in E. subst k0. exfalso. apply Hn.
      change k with (fst (k, v)). now apply in_map.
    + now apply IH.
Qed.

Lemma In_set_inv k v m e :
  In e (JsMap.set k v m) -> e = (k, v) \/ In e m.
Proof.
  induction m as [|[k0 v0] m IH]; simpl.
  - intros [H | []]. now left.
  - destruct (String.eqb k0 k); simpl; intros [H | H]; auto.
    destruct (IH H); auto.
Qed.

Lemma In_fold_inv (es : list (string * V)) m e :
  In e (fold_left JsMap.step es m) -> In e es \/ In e m.
Proof.
  revert m. induction es as [|e0 es IH]; intros m; simpl; [auto|].
  intros H. destruct (IH _ H) as [H1 | H1]; [auto|].
  unfold JsMap.step in H1. destruct (In_set_inv _ _ _ _ H1) as [-> | H2]; auto.
  left. left. now destruct e0.
Qed.

End OrderedMapFacts.

(** What [uniqueBy] computes: the keys in first-seen order, and for each
    key the last element that carries it. *)
Lemma uniqueBy_keys {V : Type} (key : V -> string) (xs : list V) :
  map key (RoleModel.uniqueBy key xs) = Spec.firstSeen (map key xs).
Proof.
  unfold RoleModel.uniqueBy, JsMap.values, JsMap.ofEntries.
  set (es := map (fun x => (key x, x)) xs).
  assert (Hk : forall e, In e (fold_left JsMap.step es []) -> key (snd e) = fst e).
  { intros e He. destruct (In_fold_inv _ _ _ He) as [H | []].
    unfold es in H. apply in_map_iff in H. destruct H as [x [<- _]]. reflexivity. }
  rewrite map_map.
  transitivity (JsMap.keys (fold_left JsMap.step es [])).
  - unfold JsMap.keys. apply map_ext_in. exact Hk.
  - rewrite keys_fold. simpl.
    rewrite filter_all.
    unfold es. rewrite map_map. simpl. reflexivity.
Qed.

Lemma uniqueBy_last {V : Type} (key : V -> string) (xs : list V) (x : V) :
  In x (RoleModel.uniqueBy key xs) -> Spec.lastWith key (key x) xs = Some x.
Proof.
  unfold RoleModel.uniqueBy, JsMap.values, JsMap.ofEntries, Spec.lastWith.
  set (es := map (fun y => (key y, y)) xs).
  intros Hin. apply in_map_iff in Hin. destruct Hin as [[k v] [Hv He]].
  simpl in Hv. subst v.
  assert (Hk : k = key x).
  { destruct (In_fold_inv _ _ _ He) as [H | []].
    unfold es in H. apply in_map_iff in H. destruct H as [y [Hy _]]. congruence. }
  subst k.
  assert (Hd : NoDup (JsMap.keys (fold_left JsMap.step es []))).
  { rewrite keys_fold. simpl. apply firstSeen_NoDup. }
  pose proof (get_In _ _ _ Hd He) as Hg.
  rewrite get_fold in Hg. unfold es in Hg.
  rewrite <- map_rev, find_mapped in Hg. simpl in Hg.
  destruct (find (fun y => String.eqb (key y) (key x)) (rev xs)); simpl in Hg;
    [congruence | discriminate].
Qed.

Lemma uniqueBy_dedups {V : Type} (key : V -> string) (xs : list V) :
  Spec.dedupedBy key xs (RoleModel.uniqueBy key xs).
Proof.
  unfold Spec.dedupedBy. repeat split.
  - rewrite <- uniqueBy_keys. now rewrite length_map.
  - apply uniqueBy_keys.
  - intros x. apply uniqueBy_last.
  - intros i j x y Hij Hi Hj.
    apply (firstSeen_order (map key xs) i j); [exact Hij | |];
      rewrite <- uniqueBy_keys, nth_error_map; [rewrite Hi | rewrite Hj]; reflexivity.
Qed.

(** ** C1 *)

(** C1. The roles and permissions returned by [extractRoleModel] are the
    candidates gathered across the scanned files, deduplicated by name: as
    many entries as there are distinct names, each entry being the last
    candidate gathered under its name, and the entries standing in the
    order in which their names first occur among the candidates. *)
Theorem C1_dedup_first_position_last_value :
  forall (fs : Fs.FileSystem) (repoPath : string),
    let out := RoleModel.extractRoleModel fs repoPath in
    Spec.dedupedBy RoleModel.name
      (RoleModel.gatheredRoles fs repoPath) (RoleModel.roles out) /\
    Spec.dedupedBy RoleModel.pname
      (RoleModel.gatheredPermissions fs repoPath) (RoleModel.permissions_ out).
Proof.
  intros fs repoPath out. split; apply uniqueBy_dedups.
Qed.

(** three candidates under two names: the later [admin] gives the value,
    the earlier one the place *)
Example dedup_keeps_place_takes_last_value :
  RoleModel.uniqueBy RoleModel.name
    [{| RoleModel.name := "admin"; RoleModel.permissions := [] |};
     {| RoleModel.name := "viewer"; RoleModel.permissions := ["read"] |};
     {| RoleModel.name := "admin"; RoleModel.permissions := ["read"; "write"] |}] =
  [{| RoleModel.name := "admin"; RoleModel.permissions := ["read"; "write"] |};
   {| RoleModel.name := "viewer"; RoleModel.permissions := ["read"] |}].
Proof. reflexivity. Qed.

(** ** C4: the derived hierarchy *)

Section HierarchyFacts.
Import RoleModel.

Lemma get_assign (k k' : string) (x : LevelValue) (h : list (string * LevelValue)) :
  JsMap.get k (assign k' x h) =
  if negb (String.eqb k' "__proto__") && String.eqb k' k then Some x else JsMap.get k h.
Proof.
  unfold assign. destruct (String.eqb k' "__proto__"); simpl; [reflexivity|].
  apply get_set.
Qed.

Lemma get_noteLevel (k : string) (h : list (string * LevelValue)) (role : RoleDefinition) :
  JsMap.get k (noteLevel h role) =
  if String.eqb (name role) k && Spec.addsLevel k
  then levelMap (JsString.toLowerCase k) else JsMap.get k h.
Proof.
  unfold noteLevel, Spec.addsLevel.
  destruct (String.eqb (name role) k) eqn:E.
  - apply String.eqb_eq in E. rewrite E.
    destruct (levelMap (JsString.toLowerCase k)) as [x|] eqn:Hv; [|reflexivity].
    destruct (truthy (Some x)); [|reflexivity].
    rewrite get_assign, String.eqb_refl, andb_true_r.
    destruct (String.eqb k "__proto__"); reflexivity.
  - rewrite andb_false_l.
    destruct (levelMap (JsString.toLowerCase (name role))) as [x|]; [|reflexivity].
    destruct (truthy (Some x)); [|reflexivity].
    rewrite get_assign, E, andb_false_r. reflexivity.
Qed.

(** The entries of the map built by [extractHierarchy]: a name is mapped
    exactly when some role carries it and its lowercased form has a truthy
    value in [levelMap]. *)
Lemma hierarchy_lookup (rs : list RoleDefinition) (h : list (string * LevelValue))
  (k : string) :
  JsMap.get k (fold_left noteLevel rs h) =
  if hasRole k rs && Spec.addsLevel k
  then levelMap (JsString.toLowerCase k) else JsMap.get k h.
Proof.
  revert h. induction rs as [|r rs IH]; intros h; simpl; [reflexivity|].
  rewrite IH, get_noteLevel. unfold hasRole.
  destruct (existsb (fun r0 => String.eqb (name r0) k) rs),
           (String.eqb (name r) k), (Spec.addsLevel k); reflexivity.
Qed.

Lemma noteLevel_skip (h : list (string * LevelValue)) (role : RoleDefinition) :
  Spec.addsLevel (name role) = false -> noteLevel h role = h.
Proof.
  unfold Spec.addsLevel, noteLevel, assign. intros H.
  destruct (levelMap (JsString.toLowerCase (name role))) as [x|]; [|reflexivity].
  destruct (truthy (Some x)); [|reflexivity].
  simpl in H. apply negb_false_iff in H. now rewrite H.
Qed.

(** the hierarchy is absent exactly when no role adds an entry *)
Lemma extractHierarchy_none (rs : list RoleDefinition) :
  (forall r, In r rs -> Spec.addsLevel (name r) = false) ->
  extractHierarchy rs = None.
Proof.
  intros H. unfold extractHierarchy.
  assert (Hf : forall h, fold_left noteLevel rs h = h).
  { induction rs as [|r rs IH]; intros h; simpl; [reflexivity|].
    rewrite noteLevel_skip by (apply H; now left).
    apply IH. intros r' Hr'. apply H. now right. }
  now rewrite Hf.
Qed.

Lemma extractHierarchy_some (rs : list RoleDefinition) (r : RoleDefinition) :
  In r rs -> Spec.addsLevel (name r) = true ->
  exists h, extractHierarchy rs = Some h /\
            JsMap.get (name r) (levels h) = levelMap (JsString.toLowerCase (name r)) /\
            truthy (levelMap (JsString.toLowerCase (name r))) = true.
Proof.
  intros Hin Hadd. unfold extractHierarchy.
  pose proof (hierarchy_lookup rs [] (name r)) as Hl.
  assert (Hhas : hasRole (name r) rs = true).
  { unfold hasRole. apply existsb_exists. exists r. split; [exact Hin|].
    apply String.eqb_refl. }
  rewrite Hhas, Hadd in Hl. simpl in Hl.
  assert (Ht : truthy (levelMap (JsString.toLowerCase (name r))) = true).
  { unfold Spec.addsLevel in Hadd. now apply andb_true_iff in Hadd. }
  destruct (fold_left noteLevel rs []) as [|e h] eqn:E.
  - simpl in Hl. rewrite <- Hl in Ht. discriminate.
  - cbn [JsMap.keys map]. eexists. split; [reflexivity|]. cbn [levels]. now split.
Qed.

End HierarchyFacts.

(** C4. A role list holding only [guest] yields no hierarchy at all,
    although the level table gives [guest] the level 0: the truthiness
    test on the looked-up level discards the value 0.  Such a list comes
    from a corpus whose one source file compares a role with [guest]. *)
Theorem C4_guest_level_is_discarded :
  RoleModel.levelMap "guest" = Some (RoleModel.Level 0) /\
  RoleModel.extractHierarchy Scenarios.guestOnly = None /\
  let out := RoleModel.extractRoleModel Scenarios.guestRepo Scenarios.root in
  RoleModel.roles out = Scenarios.guestOnly /\ RoleModel.hierarchy out = None.
Proof. vm_compute. repeat split; reflexivity. Qed.

(** a role list with no name of the table has no hierarchy *)
Example hierarchy_of_superfan :
  RoleModel.extractHierarchy
    [{| RoleModel.name := "superfan"; RoleModel.permissions := [] |}] = None.
Proof. reflexivity. Qed.

(** the roles of the table with a non-zero level are mapped as the table
    says *)
Example hierarchy_of_admin_and_viewer :
  RoleModel.extractHierarchy
    [{| RoleModel.name := "Admin"; RoleModel.permissions := [] |};
     {| RoleModel.name := "superfan"; RoleModel.permissions := [] |};
     {| RoleModel.name := "viewer"; RoleModel.permissions := [] |}] =
  Some {| RoleModel.levels :=
            [("Admin", RoleModel.Level 3); ("viewer", RoleModel.Level 1)] |}.
Proof. reflexivity. Qed.

(** ** C7: the role object literal *)

(** C7. On the object literal of the scenario the extractor returns one
    role, [viewer] with the permission [read], and the hierarchy
    [viewer: 1]: the entry for [admin] is lost, because the body of the
    literal is split at every comma, also at the comma inside the
    permission array of [admin]. *)
Theorem C7_object_literal_loses_admin :
  let out := RoleModel.extractRoleModel Scenarios.rolesRepo Scenarios.root in
  RoleModel.roles out =
    [{| RoleModel.name := "viewer"; RoleModel.permissions := ["read"] |}] /\
  RoleModel.hierarchy out =
    Some {| RoleModel.levels := [("viewer", RoleModel.Level 1)] |}.
Proof. vm_compute. split; reflexivity. Qed.

(** the entries the split produces, and what the entry pattern finds in
    each *)
Example object_literal_entries :
  map (fun entry =>
         match Regex.jsMatch RoleModel.roleEntryPattern entry with
         | Some m => Regex.group m 1
         | None => None
         end)
      (map JsString.trim
         (JsString.split ","%char
            (" admin: [" ++ Scenarios.q "read" ++ "," ++ Scenarios.q "write" ++
             "], viewer: [" ++ Scenarios.q "read" ++ "] "))) =
  [None; None; Some "viewer"].
Proof. vm_compute. reflexivity. Qed.

(** ** C5: the access-token lifetime *)

Section TokenLifetimeFacts.
Import TokenStrategy.

Lemma lifetime_stepFlags (content : string) (t : TokenConfig) :
  lifetime (stepFlags content t) = lifetime t.
Proof.
  unfold stepFlags.
  destruct (JsString.includes "httpOnly" content),
           (JsString.includes "secure:" content),
           (JsString.includes "sameSite" content); simpl;
    try reflexivity;
    destruct (firstGroup sameSitePattern content); reflexivity.
Qed.

Lemma lifetime_stepFile (repoPath : string) (st : TokenStrategyResult) (f : Fs.File) :
  lifetime (accessToken (stepFile repoPath st f)) =
  List.last
    (match extractTokenLifetime (Fs.content f) accessTokenNames with
     | Some n => if N.eqb n 0 then [] else [n]
     | None => []
     end)
    (lifetime (accessToken st)).
Proof.
  unfold stepFile. cbn [accessToken]. rewrite lifetime_stepFlags. unfold stepLifetime.
  destruct (extractTokenLifetime (Fs.content f) accessTokenNames) as [n|];
    [|reflexivity].
  unfold truthyNumber. destruct (N.eqb n 0); reflexivity.
Qed.

Lemma last_app_default {A : Type} (l1 l2 : list A) (d : A) :
  List.last (l1 ++ l2) d = List.last l2 (List.last l1 d).
Proof.
  revert l1. induction l2 as [|y l2 IH] using rev_ind; intros l1.
  - now rewrite app_nil_r.
  - rewrite app_assoc, !last_last. reflexivity.
Qed.

Lemma lifetime_fold (repoPath : string) (files : list Fs.File) (st : TokenStrategyResult) :
  lifetime (accessToken (fold_left (stepFile repoPath) files st)) =
  List.last (Spec.adoptedLifetimes files) (lifetime (accessToken st)).
Proof.
  revert st. induction files as [|f files IH]; intros st; [reflexivity|].
  cbn [fold_left]. rewrite IH, lifetime_stepFile.
  unfold Spec.adoptedLifetimes. cbn [flat_map].
  now rewrite last_app_default.
Qed.

End TokenLifetimeFacts.

(** C5, as the code has it.  The access-token lifetime returned is the
    LAST non-zero lifetime that a scanned file carries, in enumeration
    order, and 3600 when no scanned file carries one: each file with an
    annotation overwrites what an earlier file set. *)
Theorem C5_last_annotated_file_wins :
  forall (fs : Fs.FileSystem) (repoPath : string),
    TokenStrategy.lifetime
      (TokenStrategy.accessToken (TokenStrategy.extractTokenStrategy fs repoPath)) =
    List.last (Spec.adoptedLifetimes (TokenStrategy.tokenFiles fs repoPath)) 3600%N.
Proof.
  intros fs repoPath. unfold TokenStrategy.extractTokenStrategy.
  now rewrite lifetime_fold.
Qed.

(** C5 fails as stated: with a first file annotated 900 and a second
    annotated 7200, the first annotated lifetime is 900 and the extractor
    returns 7200. *)
Lemma C5_first_annotated_file_is_overwritten :
  ~ Spec.firstAnnotatedFileWins Scenarios.twoLifetimesRepo Scenarios.root.
Proof. unfold Spec.firstAnnotatedFileWins. vm_compute. discriminate. Qed.

Example two_lifetimes_values :
  Spec.firstAnnotatedLifetime
    (TokenStrategy.tokenFiles Scenarios.twoLifetimesRepo Scenarios.root) = Some 900%N /\
  TokenStrategy.lifetime
    (TokenStrategy.accessToken
       (TokenStrategy.extractTokenStrategy Scenarios.twoLifetimesRepo Scenarios.root)) =
  7200%N.
Proof. vm_compute. split; reflexivity. Qed.

(** with a single annotated file, or none, both readings agree *)
Example lifetime_defaults_to_3600 :
  TokenStrategy.lifetime
    (TokenStrategy.accessToken
       (TokenStrategy.extractTokenStrategy Scenarios.oneLetterDirRepo Scenarios.root)) =
  3600%N.
Proof. vm_compute. reflexivity. Qed.

(** ** Substring facts *)

Section IncludesFacts.

Lemma prefix_app_l (a b s : string) :
  String.prefix (a ++ b) s = true -> String.prefix a s = true.
Proof.
  revert s. induction a as [|c a IH]; intros s.
  - destruct s; reflexivity.
  - destruct s as [|d s]; simpl; [discriminate|].
    destruct (ascii_dec c d); [apply IH | discriminate].
Qed.

Lemma prefix_refl (s : string) : String.prefix s s = true.
Proof.
  induction s as [|c s IH]; simpl; [reflexivity|].
  destruct (ascii_dec c c); [exact IH | congruence].
Qed.

(** a text that includes [a ++ b] includes [a] *)
Lemma includes_app_l (a b s : string) :
  JsString.includes (a ++ b) s = true -> JsString.includes a s = true.
Proof.
  induction s as [|c s IH];
    rewrite (includes_unfold_eq (a ++ b)), (includes_unfold_eq a);
    destruct (String.prefix (a ++ b) _) eqn:E;
    try (intros _; now rewrite (prefix_app_l _ _ _ E)).
  - discriminate.
  - intros H. rewrite (IH H). now destruct (String.prefix a (String c s)).
Qed.

Lemma includes_missing_l (a b s : string) :
  JsString.includes a s = false -> JsString.includes (a ++ b) s = false.
Proof.
  intros H. destruct (JsString.includes (a ++ b) s) eqn:E; [|reflexivity].
  apply includes_app_l in E. congruence.
Qed.

(** a text includes its own ending *)
Lemma includes_app_r (p e : string) : JsString.includes e (p ++ e) = true.
Proof.
  induction p as [|c p IH].
  - rewrite includes_unfold_eq. simpl. now rewrite prefix_refl.
  - rewrite includes_unfold_eq. cbn [String.append]. rewrite IH.
    now destruct (String.prefix e (String c (p ++ e))).
Qed.

End IncludesFacts.

(** ** C6: the NextAuth scenario *)

(** C6. With the configuration in [app/api/[...nextauth]/route.ts] the
    pipeline reports the provider [unknown] and no callback sample: the
    glob segment written [[...nextauth]] is a bracket expression, which
    matches a one-character directory name and not the directory of the
    scenario, so the NextAuth branch is never taken.  The session strategy
    is [jwt], reached as the default. *)
Theorem C6_nextauth_route_is_not_detected :
  forall now : string,
    Glob.matches AuthProvider.pat_nextAuthRoute "app/api/[...nextauth]/route.ts" = false /\
    exists m,
      snd (Extractor.extractAuthSystem Scenarios.nextAuthRouteRepo now Scenarios.root) =
        inr m /\
      AuthProvider.type (Extractor.authProvider m) = "unknown" /\
      AuthProvider.callbacks (Extractor.authProvider m) = None /\
      Extractor.sessionStorage m = SessionStorage.defaultSession.
Proof.
  intros now. split; [vm_compute; reflexivity|].
  eexists. split; [vm_compute; reflexivity|].
  cbn. repeat split; reflexivity.
Qed.

(** what the bracket expression does match *)
Example nextauth_bracket_matches_one_letter :
  Glob.matches AuthProvider.pat_nextAuthRoute "app/api/n/route.ts" = true /\
  Glob.matches AuthProvider.pat_nextAuthRoute "a/b.ts" = true.
Proof. vm_compute. split; reflexivity. Qed.

(** The same configuration in a file named [next-auth.ts] gives what the
    scenario expects. *)
Example nextauth_file_is_detected :
  let p := AuthProvider.extractAuthProvider Scenarios.nextAuthFileRepo Scenarios.root in
  AuthProvider.type p = "next-auth" /\
  AuthProvider.providers (AuthProvider.configuration p) = ["google"] /\
  option_map (map AuthProvider.name) (AuthProvider.callbacks p) = Some ["session"] /\
  SessionStorage.strategy
    (SessionStorage.extractSessionStorage Scenarios.nextAuthFileRepo Scenarios.root) = "jwt".
Proof. vm_compute. repeat split; reflexivity. Qed.

(** ** C8: the guarded API route *)

Section RelativePathFacts.

Lemma prefix_app_self (l s : string) : String.prefix l (l ++ s) = true.
Proof.
  induction l as [|c l IH]; simpl; [now destruct s|].
  destruct (ascii_dec c c); [exact IH | congruence].
Qed.

Lemma drop_app (w s : string) : JsString.drop (String.length w) (w ++ s) = s.
Proof. induction w as [|c w IH]; simpl; [reflexivity | exact IH]. Qed.

(** taking the path of the tree off the absolute path of one of its files *)
Lemma removeFirst_prefix (p s : string) : JsString.removeFirst p (p ++ s) = s.
Proof.
  destruct p as [|c p]; [now destruct s|].
  change (String c p ++ s) with (String c (p ++ s)).
  cbn [JsString.removeFirst].
  change (String c (p ++ s)) with (String c p ++ s).
  rewrite prefix_app_self. apply drop_app.
Qed.



End RelativePathFacts.

Section GuardFacts.
Variable fs : Fs.FileSystem.
Variable repoPath : string.
Variable t : Fs.WorkingTree.
Variable text : string.

(** the working tree holds the route file of the scenario, among other
    files; as in any directory tree, no path is listed twice *)
Hypothesis Htree : fs repoPath = Some t.
Hypothesis Hpaths : NoDup (map fst (Fs.files t)).
Hypothesis Hfile : In ("app/api/orders/route.ts", text) (Fs.files t).

(** the path of the working tree does not interfere with the path tests *)
Hypothesis Hmodules :
  JsString.includes "node_modules" (repoPath ++ "/app/api/orders/route.ts") = false.
Hypothesis Hapi : JsString.includes "api/" (repoPath ++ "/app/api") = false.









End GuardFacts.


Example no_guard_for_the_plain_route_file :
  Guards.apiGuards
    (PermissionCheck.extractPermissionChecks
       (Scenarios.ordersRepo Scenarios.deleteText) Scenarios.root) = [] /\
  Guards.apiGuards
    (PermissionCheckLib.extractPermissionChecks
       (Scenarios.ordersRepo Scenarios.deleteText) Scenarios.root) = [].
Proof. vm_compute. split; reflexivity. Qed.



(** ** C9: a missing repository path *)

(** C9. When the repository path does not exist, [extractAuthSystem]
    rejects with an error that names the path; no extractor has been
    called and no record is produced. *)
Theorem C9_missing_path_rejects :
  forall (fs : Fs.FileSystem) (now repoPath : string),
    Fs.existsSync fs repoPath = false ->
    Extractor.extractAuthSystem fs now repoPath =
    ([], inl (Extractor.ErrorMessage ("Repository path does not exist: " ++ repoPath))).
Proof.
  intros fs now repoPath H. unfold Extractor.extractAuthSystem. rewrite H. reflexivity.
Qed.

Lemma C9_missing_path_rejects_witness :
  Fs.existsSync (Scenarios.tree []) "/srv/none" = false /\
  Extractor.extractAuthSystem (Scenarios.tree []) "2024-01-01T00:00:00.000Z" "/srv/none" =
  ([], inl (Extractor.ErrorMessage "Repository path does not exist: /srv/none")).
Proof.
  split; [reflexivity|].
  apply (C9_missing_path_rejects (Scenarios.tree []) "2024-01-01T00:00:00.000Z" "/srv/none").
  reflexivity.
Defined.

(** when the path exists, the five extractors are called in the order of
    the source *)
Example existing_path_runs_extractors :
  fst (Extractor.extractAuthSystem Scenarios.rolesRepo "t" Scenarios.root) =
  ["extractAuthProvider"; "extractSessionStorage"; "extractTokenStrategy";
   "extractRoleModel"; "extractPermissionChecks"].
Proof. vm_compute. reflexivity. Qed.

(** ** C10: the lookup helpers of the generated artifact *)

(** C10. [isProtectedRoute p] holds exactly when some protected route has
    the path [p]; [getRequiredRole p] and [getRequiredPermission p] are the
    fields of the first route, in list order, whose path is [p], and are
    undefined when no route has that path. *)
Theorem C10_lookup_helpers_match_exact_path :
  forall (AuthMemory : Extractor.AuthMemory) (p : string),
    let routes := Guards.protectedRoutes (Extractor.permissionChecks AuthMemory) in
    (Generator.isProtectedRoute AuthMemory p = true <->
     exists r, In r routes /\ Guards.path r = p) /\
    (forall before r after,
        routes = (before ++ r :: after)%list ->
        Guards.path r = p ->
        (forall x, In x before -> Guards.path x <> p) ->
        Generator.getRequiredRole AuthMemory p = Guards.requiredRole r /\
        Generator.getRequiredPermission AuthMemory p = Guards.requiredPermission r) /\
    ((forall r, In r routes -> Guards.path r <> p) ->
     Generator.getRequiredRole AuthMemory p = None /\
     Generator.getRequiredPermission AuthMemory p = None).
Proof.
  intros AuthMemory p routes.
  unfold Generator.isProtectedRoute, Generator.getRequiredRole,
    Generator.getRequiredPermission, Generator.routesOf. fold routes.
  split; [|split].
  - rewrite existsb_exists. split; intros [r [Hin He]]; exists r; split; auto.
    + now apply String.eqb_eq.
    + now apply String.eqb_eq.
  - intros before r after Heq Hp Hb.
    assert (Hf : find (fun x => String.eqb (Guards.path x) p) routes = Some r).
    { rewrite Heq, find_app_split.
      assert (Hn : find (fun x => String.eqb (Guards.path x) p) before = None).
      { apply find_none_all. intros x Hx. apply String.eqb_neq. now apply Hb. }
      rewrite Hn. simpl. apply String.eqb_eq in Hp. now rewrite Hp. }
    rewrite Hf. split; reflexivity.
  - intros Hnone.
    assert (Hf : find (fun x => String.eqb (Guards.path x) p) routes = None).
    { apply find_none_all. intros x Hx. apply String.eqb_neq. now apply Hnone. }
    rewrite Hf. split; reflexivity.
Qed.

(** ** C2: the archive fallback *)

Section AcquisitionFacts.
Import Acquisition.
Variable net : Network.

(** what it takes for an attempt to end the search *)
Lemma attempt_extracted (n : nat) (branch url : string) (payload : list byte) :
  attempt net n branch url = Extracted payload <->
  exists status statusText,
    fetch net n url = Response true status statusText payload /\
    payload <> [] /\
    isZipFile payload = true /\
    extractAllTo net payload = None.
Proof.
  unfold attempt. split.
  - destruct (fetch net n url) as [msg | ok status statusText body]; [discriminate|].
    destruct ok; cbn -[isZipFile]; [|discriminate].
    destruct body as [|b0 body]; cbn -[isZipFile]; [discriminate|].
    destruct (isZipFile (b0 :: body)) eqn:Hz; cbn -[isZipFile]; [|discriminate].
    destruct (extractAllTo net (b0 :: body)) eqn:Hx; [discriminate|].
    intros H. inversion H; subst. exists status, statusText.
    repeat split; auto. discriminate.
  - intros [status [statusText [Hf [Hne [Hz Hx]]]]]. rewrite Hf. cbn -[isZipFile].
    destruct payload as [|b0 body]; [contradiction|]. cbn -[isZipFile].
    rewrite Hz, Hx. reflexivity.
Qed.

(** the test on the first two bytes, read on the payload *)
Lemma isZipFile_magic (payload : list byte) :
  isZipFile payload = true <-> firstn 2 payload = [x50; x4b].
Proof.
  destruct payload as [|b0 [|b1 rest]]; cbn [isZipFile firstn];
    try (split; discriminate).
  rewrite andb_true_iff. split.
  - intros [H0 H1]. apply Byte.byte_dec_bl in H0, H1. now subst.
  - intros H. inversion H. split; apply Byte.byte_dec_lb; reflexivity.
Qed.

(** an attempt ends the search exactly when the response is as the
    amended claim asks *)
Lemma attempt_ends_the_search (n : nat) (branch url : string) (payload : list byte) :
  attempt net n branch url = Extracted payload <-> Spec.endsTheSearch net n url payload.
Proof.
  rewrite attempt_extracted. unfold Spec.endsTheSearch.
  split; intros [status [statusText [Hf [Hne [Hz Hx]]]]]; exists status, statusText;
    repeat split; auto; now apply isZipFile_magic.
Qed.

Lemma rejected_does_not_end (n : nat) (branch url detail : string) (payload : list byte) :
  attempt net n branch url = Rejected detail -> ~ Spec.endsTheSearch net n url payload.
Proof.
  intros Hr He. apply (attempt_ends_the_search n branch url payload) in He.
  rewrite Hr in He. discriminate.
Qed.

(** every detail gathered is that of the attempt at the same place *)
Lemma firstExtracted_details (n : nat) (combos : list (string * string))
  (ds us : list string) (found : option (list byte)) :
  firstExtracted net n combos = (ds, us, found) ->
  forall j b u, j < List.length ds -> nth_error combos j = Some (b, u) ->
    exists d, nth_error ds j = Some d /\ attempt net (n + j) b u = Rejected d.
Proof.
  revert n ds us. induction combos as [|[b0 u0] combos IH]; intros n ds us; simpl.
  - intros H. inversion H; subst. simpl. intros j b u Hj. lia.
  - destruct (attempt net n b0 u0) as [payload|detail] eqn:Ha.
    + intros H. inversion H; subst. simpl. intros j b u Hj. lia.
    + destruct (firstExtracted net (S n) combos) as [[ds' us'] f] eqn:E.
      intros H. inversion H; subst. intros [|j] b u Hj Hn.
      * simpl in Hn. inversion Hn; subst. exists detail. rewrite Nat.add_0_r. auto.
      * simpl in Hj, Hn. destruct (IH _ _ _ E j b u) as [d [Hd Hat]]; [lia | exact Hn |].
        exists d. simpl. rewrite <- Nat.add_succ_comm. auto.
Qed.

Lemma firstExtracted_app (n : nat) (l1 l2 : list (string * string)) :
  Acquisition.firstExtracted net n (l1 ++ l2) =
  match Acquisition.firstExtracted net n l1 with
  | (ds1, us1, Some p) => (ds1, us1, Some p)
  | (ds1, us1, None) =>
      let '(ds2, us2, found) := Acquisition.firstExtracted net (n + List.length l1) l2 in
      ((ds1 ++ ds2)%list, (us1 ++ us2)%list, found)
  end.
Proof.
  revert n. induction l1 as [|[b u] l1 IH]; intros n; simpl.
  - rewrite Nat.add_0_r. now destruct (Acquisition.firstExtracted net n l2) as [[ds us] f].
  - destruct (attempt net n b u); [reflexivity|].
    rewrite IH. destruct (Acquisition.firstExtracted net (S n) l1) as [[ds1 us1] [p|]]; [reflexivity|].
    rewrite <- Nat.add_succ_comm.
    now destruct (Acquisition.firstExtracted net (S n + List.length l1) l2) as [[ds2 us2] f].
Qed.

(** when nothing is extracted, every combination was requested and each
    left one detail *)
Lemma firstExtracted_exhausted (n : nat) (combos : list (string * string))
  (ds us : list string) :
  Acquisition.firstExtracted net n combos = (ds, us, None) ->
  us = map snd combos /\ List.length ds = List.length combos.
Proof.
  revert n ds us. induction combos as [|[b u] combos IH]; intros n ds us; simpl.
  - intros H. inversion H. split; reflexivity.
  - destruct (attempt net n b u); [discriminate|].
    destruct (Acquisition.firstExtracted net (S n) combos) as [[ds' us'] f] eqn:E.
    intros H. inversion H; subst. destruct (IH _ _ _ E) as [-> Hl].
    split; simpl; congruence.
Qed.

(** when a payload is extracted, the search stopped there: the rejected
    attempts are the combinations before it, and no later one was
    requested *)
Lemma firstExtracted_stops (n : nat) (combos : list (string * string))
  (ds us : list string) (p : list byte) :
  Acquisition.firstExtracted net n combos = (ds, us, Some p) ->
  us = map snd (firstn (S (List.length ds)) combos) /\
  exists b u, nth_error combos (List.length ds) = Some (b, u) /\
              attempt net (n + List.length ds) b u = Extracted p.
Proof.
  revert n ds us. induction combos as [|[b u] combos IH]; intros n ds us; simpl.
  - discriminate.
  - destruct (attempt net n b u) as [payload|detail] eqn:Ha.
    + intros H. inversion H; subst. simpl. split; [reflexivity|].
      exists b, u. rewrite Nat.add_0_r. auto.
    + destruct (Acquisition.firstExtracted net (S n) combos) as [[ds' us'] f] eqn:E.
      intros H. inversion H; subst. destruct (IH _ _ _ E) as [-> [b' [u' [Hn Hat]]]].
      split; [reflexivity|]. exists b', u'. simpl.
      rewrite <- Nat.add_succ_comm. auto.
Qed.

Lemma tryFormats_flat (branch : string) (urls : list string) (st : DownloadState) :
  tryFormats net branch urls st =
  let '(ds, us, found) :=
    Acquisition.firstExtracted net (List.length (requested st)) (map (fun u => (branch, u)) urls) in
  (match found with Some _ => true | None => false end,
   {| errors := (errors st ++ ds)%list;
      requested := (requested st ++ us)%list;
      extracted := match found with Some p => Some p | None => extracted st end |}).
Proof.
  revert st. induction urls as [|u urls IH]; intros st; simpl.
  - rewrite !app_nil_r. now destruct st.
  - destruct (attempt net (List.length (requested st)) branch u); simpl.
    + rewrite app_nil_r. reflexivity.
    + rewrite IH. simpl. rewrite length_app. simpl. rewrite Nat.add_1_r.
      destruct (Acquisition.firstExtracted net (S (List.length (requested st)))
                  (map (fun u0 => (branch, u0)) urls)) as [[ds us] f].
      now rewrite <- !app_assoc.
Qed.

Lemma tryBranches_flat (owner repo : string) (branches : list string) (st : DownloadState) :
  extracted st = None ->
  tryBranches net owner repo branches st =
  let '(ds, us, found) :=
    Acquisition.firstExtracted net (List.length (requested st))
      (Spec.combinations owner repo branches) in
  {| errors := (errors st ++ ds)%list;
     requested := (requested st ++ us)%list;
     extracted := found |}.
Proof.
  intros Hx. revert st Hx.
  induction branches as [|b branches IH]; intros st Hx.
  - simpl. rewrite !app_nil_r. destruct st; simpl in *. now subst.
  - cbn [tryBranches]. rewrite tryFormats_flat.
    unfold Spec.combinations. cbn [flat_map]. fold (Spec.combinations owner repo branches).
    rewrite firstExtracted_app.
    destruct (Acquisition.firstExtracted net (List.length (requested st))
                (map (fun u => (b, u)) (urlFormats owner repo b)))
      as [[ds1 us1] [p|]] eqn:E1.
    + reflexivity.
    + rewrite IH by exact Hx. cbn [requested errors].
      destruct (firstExtracted_exhausted _ _ _ _ E1) as [Hus _].
      rewrite length_app. subst us1. rewrite length_map.
      destruct (Acquisition.firstExtracted net
                  (List.length (requested st) +
                   List.length (map (fun u => (b, u)) (urlFormats owner repo b)))
                  (Spec.combinations owner repo branches)) as [[ds2 us2] f].
      now rewrite <- !app_assoc.
Qed.

Lemma branches_firstSeen (d : string) :
  branchesToTry d = Spec.firstSeen [d; "main"; "master"].
Proof.
  unfold branchesToTry, arrayFromSet, setAdd. cbn -[String.eqb].
  change (String.eqb "master" "main") with false.
  destruct (String.eqb "main" d) eqn:E1, (String.eqb "master" d) eqn:E2;
    cbn -[String.eqb]; rewrite ?E1, ?E2; reflexivity.
Qed.

Lemma branches_at_most_three (d : string) : List.length (branchesToTry d) <= 3.
Proof.
  unfold branchesToTry, arrayFromSet, setAdd. cbn -[String.eqb].
  destruct (String.eqb "main" d), (String.eqb "master" d); cbn -[String.eqb];
    try lia;
    destruct (String.eqb "master" d); cbn; lia.
Qed.

Lemma combinations_length (owner repo : string) (branches : list string) :
  List.length (Spec.combinations owner repo branches) = 3 * List.length branches.
Proof.
  induction branches as [|b branches IH]; [reflexivity|].
  unfold Spec.combinations in *. cbn [flat_map].
  rewrite length_app, length_map, IH. cbn [urlFormats List.length]. lia.
Qed.

Lemma discovery_failure_gives_main (owner repo : string) :
  Spec.discoveryFails net owner repo = true ->
  branchesToTry (discoverBranch net owner repo) = ["main"; "master"].
Proof.
  unfold Spec.discoveryFails, discoverBranch.
  destruct (repoInfo net _) as [|ok db]; [reflexivity|].
  destruct ok; [discriminate | reflexivity].
Qed.

Lemma failure_message_holds_details (branches details : list string) :
  JsString.includes (JsString.join "; " details) (failureMessage branches details) = true.
Proof.
  unfold failureMessage. rewrite <- !string_app_assoc_eq. apply includes_app_r.
Qed.

End AcquisitionFacts.

(** C2, as the code has it.  When the clone fails, the branches tried are
    [defaultBranch, main, master] without repetition, in first-seen order
    (just [main, master] when the default branch cannot be fetched), each
    with its three archive URLs, so at most nine combinations.  They are
    requested in that order.  Either some combination is answered with a
    successful response whose body is not empty, begins with the bytes
    0x50 0x4B and is unpacked without error: then the first such
    combination ends the search, its body is the archive downloaded, and
    the requests made are the combinations up to it.  Or no combination is
    answered so: then every combination has been requested, each attempt
    has left its detail, and the handler fails with a message that holds
    the details of all the attempts, joined. *)
Theorem C2_fallback_order_and_failure :
  forall (net : Acquisition.Network) (repoUrl owner repo : string),
    Acquisition.gitClone net repoUrl = false ->
    let branches := Acquisition.branchesToTry (Acquisition.discoverBranch net owner repo) in
    let combos := Spec.combinations owner repo branches in
    branches =
      Spec.firstSeen [Acquisition.discoverBranch net owner repo; "main"; "master"] /\
    (Spec.discoveryFails net owner repo = true -> branches = ["main"; "master"]) /\
    List.length combos = 3 * List.length branches /\
    List.length combos <= 9 /\
    ((exists i branch url payload,
         nth_error combos i = Some (branch, url) /\
         Spec.endsTheSearch net i url payload /\
         (forall j b u p, j < i -> nth_error combos j = Some (b, u) ->
                          ~ Spec.endsTheSearch net j u p) /\
         Acquisition.acquire net repoUrl owner repo =
           Acquisition.Downloaded payload (map snd (firstn (S i) combos))) \/
     ((forall j b u p, nth_error combos j = Some (b, u) ->
                       ~ Spec.endsTheSearch net j u p) /\
      exists details,
        Acquisition.acquire net repoUrl owner repo =
          Acquisition.DownloadFailed (Acquisition.failureMessage branches details)
                                     (map snd combos) /\
        List.length details = List.length combos /\
        (forall j b u, nth_error combos j = Some (b, u) ->
           exists d, nth_error details j = Some d /\
                     Acquisition.attempt net j b u = Acquisition.Rejected d) /\
        JsString.includes (JsString.join "; " details)
          (Acquisition.failureMessage branches details) = true)).
Proof.
  intros net repoUrl owner repo Hclone branches combos.
  split; [apply branches_firstSeen|].
  split; [apply discovery_failure_gives_main|].
  split; [apply combinations_length|].
  split.
  { unfold combos. rewrite combinations_length.
    pose proof (branches_at_most_three (Acquisition.discoverBranch net owner repo)).
    fold branches in H. lia. }
  unfold Acquisition.acquire. rewrite Hclone. unfold Acquisition.downloadZip.
  fold branches. rewrite tryBranches_flat by reflexivity.
  cbn [Acquisition.requested Acquisition.initialState List.length]. fold combos.
  destruct (Acquisition.firstExtracted net 0 combos) as [[details urls] [payload|]] eqn:E;
    cbn [Acquisition.extracted Acquisition.requested Acquisition.errors app].
  - left. destruct (firstExtracted_stops _ _ _ _ _ _ E) as [Hus [b [u [Hnth Hatt]]]].
    exists (List.length details), b, u, payload.
    split; [exact Hnth|]. split; [now apply (attempt_ends_the_search net _ b)|].
    split; [|now rewrite Hus].
    intros j b' u' p Hj Hn.
    destruct (firstExtracted_details net _ _ _ _ _ E j b' u' Hj Hn) as [d [_ Hat]].
    now apply (rejected_does_not_end net _ b' u' d).
  - right. destruct (firstExtracted_exhausted _ _ _ _ _ E) as [Hu Hl].
    assert (Hall : forall j b u, nth_error combos j = Some (b, u) ->
              exists d, nth_error details j = Some d /\
                        Acquisition.attempt net j b u = Acquisition.Rejected d).
    { intros j b u Hn.
      apply (firstExtracted_details net _ _ _ _ _ E j b u); [|exact Hn].
      rewrite Hl. apply nth_error_Some. rewrite Hn. discriminate. }
    split.
    + intros j b u p Hn. destruct (Hall j b u Hn) as [d [_ Hat]].
      now apply (rejected_does_not_end net _ b u d).
    + exists details. rewrite Hu. repeat split; auto.
      apply failure_message_holds_details.
Qed.

Lemma C2_fallback_order_and_failure_witness :
  Acquisition.gitClone Scenarios.flakyNetwork "https://github.com/o/r" = false /\
  exists i branch url,
    nth_error (Spec.combinations "o" "r" ["main"; "master"]) i = Some (branch, url) /\
    Spec.endsTheSearch Scenarios.flakyNetwork i url Scenarios.goodZip /\
    Acquisition.acquire Scenarios.flakyNetwork "https://github.com/o/r" "o" "r" =
      Acquisition.Downloaded Scenarios.goodZip
        (map snd (firstn (S i) (Spec.combinations "o" "r" ["main"; "master"]))).
Proof.
  split; [reflexivity|].
  pose proof (C2_fallback_order_and_failure Scenarios.flakyNetwork
                "https://github.com/o/r" "o" "r" eq_refl) as H.
  cbv zeta in H. destruct H as [_ [_ [_ [_ H]]]].
  assert (Hrun : Acquisition.acquire Scenarios.flakyNetwork "https://github.com/o/r" "o" "r" =
                 Acquisition.Downloaded Scenarios.goodZip
                   ["https://github.com/o/r/archive/main.zip";
                    "https://api.github.com/repos/o/r/zipball/main"])
    by (vm_compute; reflexivity).
  destruct H as [[i [branch [url [payload [Hn [He [_ Ha]]]]]]] | [_ [details [Ha _]]]].
  - assert (Hp : Scenarios.goodZip = payload).
    { pose proof Ha as Hb. rewrite Hrun in Hb.
      apply (f_equal (fun a => match a with
                               | Acquisition.Downloaded p _ => p
                               | _ => []
                               end)) in Hb.
      exact Hb. }
    subst payload. exists i, branch, url. auto.
  - rewrite Hrun in Ha. discriminate.
Defined.

(** on the dead network all six combinations are requested, and the error
    lists them *)
Example dead_network_fails_after_six :
  Acquisition.acquire Scenarios.deadNetwork "https://github.com/o/r" "o" "r" =
  Acquisition.DownloadFailed
    ("Failed to download repository. Tried branches: main, master. Details: " ++
     "Branch main (https://github.com/o/r/archive/main.zip): 404 Not Found; " ++
     "Branch main (https://api.github.com/repos/o/r/zipball/main): 404 Not Found; " ++
     "Branch main (https://github.com/o/r/archive/refs/heads/main.zip): 404 Not Found; " ++
     "Branch master (https://github.com/o/r/archive/master.zip): 404 Not Found; " ++
     "Branch master (https://api.github.com/repos/o/r/zipball/master): 404 Not Found; " ++
     "Branch master (https://github.com/o/r/archive/refs/heads/master.zip): 404 Not Found")
    ["https://github.com/o/r/archive/main.zip";
     "https://api.github.com/repos/o/r/zipball/main";
     "https://github.com/o/r/archive/refs/heads/main.zip";
     "https://github.com/o/r/archive/master.zip";
     "https://api.github.com/repos/o/r/zipball/master";
     "https://github.com/o/r/archive/refs/heads/master.zip"].
Proof. vm_compute. reflexivity. Qed.

(** C2 fails as stated: the first combination answers with a non-empty
    body that begins with the bytes 0x50 0x4B, yet the search does not stop
    there, because unpacking that body throws; the second combination is
    requested and is the one extracted. *)
Lemma C2_magic_bytes_do_not_stop_the_search :
  ~ Spec.stopsAtFirstZipResponse Scenarios.flakyNetwork "https://github.com/o/r" "o" "r".
Proof.
  unfold Spec.stopsAtFirstZipResponse. intros H.
  specialize (H 0 "main" "https://github.com/o/r/archive/main.zip" eq_refl eq_refl).
  assert (Hlt : forall j b u, j < 0 ->
            nth_error
              (Spec.combinations "o" "r"
                 (Acquisition.branchesToTry
                    (Acquisition.discoverBranch Scenarios.flakyNetwork "o" "r"))) j =
              Some (b, u) ->
            Spec.zipResponse (Acquisition.fetch Scenarios.flakyNetwork j u) = false)
    by (intros j b u Hj; lia).
  specialize (H Hlt). vm_compute in H. discriminate.
Qed.

Example flaky_network_requests :
  Acquisition.acquire Scenarios.flakyNetwork "https://github.com/o/r" "o" "r" =
  Acquisition.Downloaded Scenarios.goodZip
    ["https://github.com/o/r/archive/main.zip";
     "https://api.github.com/repos/o/r/zipball/main"].
Proof. vm_compute. reflexivity. Qed.

(** ** File-name patterns and the words they look for *)

Section GlobFacts.

Lemma includes_cons (l s : string) (c : ascii) :
  JsString.includes l s = true -> JsString.includes l (String c s) = true.
Proof.
  intros H. rewrite includes_unfold_eq, H. now destruct (String.prefix l (String c s)).
Qed.

Lemma includes_app_pre (l pre s : string) :
  JsString.includes l s = true -> JsString.includes l (pre ++ s) = true.
Proof.
  intros H. induction pre as [|c pre IH]; [exact H|]. now apply includes_cons.
Qed.

Lemma prefix_app_r (l s post : string) :
  String.prefix l s = true -> String.prefix l (s ++ post) = true.
Proof.
  revert s. induction l as [|a l IH]; intros s H.
  - destruct (s ++ post)%string; reflexivity.
  - destruct s as [|b s]; [discriminate|]. simpl in *.
    destruct (ascii_dec a b); [now apply IH | discriminate].
Qed.

Lemma includes_app_post (l s post : string) :
  JsString.includes l s = true -> JsString.includes l (s ++ post) = true.
Proof.
  induction s as [|c s IH]; rewrite includes_unfold_eq;
    destruct (String.prefix l _) eqn:E; intros H.
  - rewrite includes_unfold_eq. now rewrite (prefix_app_r _ _ post E).
  - discriminate.
  - rewrite includes_unfold_eq. now rewrite (prefix_app_r _ _ post E).
  - cbn [String.append]. apply includes_cons, IH, H.
Qed.

Lemma stripPrefix_prefix (l s r : string) :
  Regex.stripPrefix l s = Some r -> String.prefix l s = true.
Proof.
  revert s. induction l as [|a l IH]; intros s H.
  - destruct s; reflexivity.
  - destruct s as [|b s]; [discriminate|]. simpl in *.
    destruct (Ascii.eqb_spec a b); [|discriminate]. subst.
    destruct (ascii_dec b b); [now apply IH | congruence].
Qed.

Lemma includes_of_prefix (l s : string) :
  String.prefix l s = true -> JsString.includes l s = true.
Proof. intros H. now rewrite includes_unfold_eq, H. Qed.

(** the pieces of [split] are pieces of the text *)
Lemma splitAux_pieces (sep : ascii) (s : string) :
  forall cur rest,
    JsString.splitAux sep s = (cur, rest) ->
    (exists post, s = cur ++ post)%string /\
    (forall n, In n rest -> exists pre post, s = pre ++ n ++ post)%string.
Proof.
  induction s as [|c s IH]; intros cur rest H; simpl in H.
  - inversion H; subst. split; [now exists ""|]. intros n [].
  - destruct (JsString.splitAux sep s) as [cur0 rest0] eqn:E.
    destruct (IH _ _ eq_refl) as [[post0 Hc] Hr].
    destruct (Ascii.eqb c sep); inversion H; subst cur rest.
    + split; [now exists (String c s)|].
      intros n [<- | Hn].
      * exists (String c ""), post0. simpl. now rewrite <- Hc.
      * destruct (Hr n Hn) as [pre [post Hs]].
        exists (String c pre), post. simpl. now rewrite <- Hs.
    + split; [exists post0; simpl; now rewrite <- Hc|].
      intros n Hn. destruct (Hr n Hn) as [pre [post Hs]].
      exists (String c pre), post. simpl. now rewrite <- Hs.
Qed.

Lemma split_pieces (sep : ascii) (s n : string) :
  In n (JsString.split sep s) -> exists pre post, (s = pre ++ n ++ post)%string.
Proof.
  unfold JsString.split. destruct (JsString.splitAux sep s) as [cur rest] eqn:E.
  destruct (splitAux_pieces _ _ _ _ E) as [[post Hc] Hr].
  intros [<- | Hn]; [now exists "", post | now apply Hr].
Qed.

(** a word found in a segment of a path is found in the path *)
Lemma includes_segment (kw rel n : string) :
  In n (JsString.split "/"%char rel) ->
  JsString.includes kw n = true -> JsString.includes kw rel = true.
Proof.
  intros Hn Hk. destruct (split_pieces _ _ _ Hn) as [pre [post ->]].
  now apply includes_app_pre, includes_app_post.
Qed.

Lemma anySuffix_includes (l : string) (rest : list Glob.atom) (n : string) :
  Glob.anySuffix (Glob.matchAtoms (Glob.ALit l :: rest)) n = true ->
  JsString.includes l n = true.
Proof.
  induction n as [|c n IH]; cbn [Glob.anySuffix Glob.matchAtoms]; intros H;
    apply orb_true_iff in H; destruct H as [H | H].
  - destruct (Regex.stripPrefix l "") eqn:E; [|discriminate].
    now apply includes_of_prefix, (stripPrefix_prefix _ _ _ E).
  - discriminate.
  - destruct (Regex.stripPrefix l (String c n)) eqn:E; [|discriminate].
    now apply includes_of_prefix, (stripPrefix_prefix _ _ _ E).
  - now apply includes_cons, IH.
Qed.

(** a pattern [**/SEGMENT] matches through a segment of the path *)
Lemma anyTail_segment (atoms : list Glob.atom) (names : list string) :
  Glob.anyTail (Glob.matchSegs [Glob.Seg atoms]) names = true ->
  exists n, In n names /\ Glob.matchAtoms atoms n = true.
Proof.
  induction names as [|n names IH]; cbn [Glob.anyTail Glob.matchSegs]; intros H;
    apply orb_true_iff in H; destruct H as [H | H]; try discriminate.
  - apply andb_true_iff in H. destruct H as [H _].
    unfold Glob.matchSegment in H. apply andb_true_iff in H.
    exists n. split; [now left | apply H].
  - apply andb_true_iff in H. destruct H as [_ H].
    destruct (IH H) as [m [Hm Ha]]. exists m. split; [now right | exact Ha].
Qed.

(** a path matched by [**/next-auth.EXT] holds the word [next-auth] *)
Lemma nextAuthFile_names_keyword (rel : string) :
  Glob.matches AuthProvider.pat_nextAuthFile rel = true ->
  JsString.includes "next-auth" rel = true.
Proof.
  unfold Glob.matches, AuthProvider.pat_nextAuthFile. cbn [Glob.matchSegs]. intros H.
  destruct (anyTail_segment _ _ H) as [n [Hn Ha]].
  apply (includes_segment _ _ n Hn).
  cbn [Glob.matchAtoms] in Ha.
  destruct (Regex.stripPrefix "next-auth." n) eqn:E; [|discriminate].
  apply (includes_app_l "next-auth" ".").
  now apply includes_of_prefix, (stripPrefix_prefix _ _ _ E).
Qed.

(** a path matched by one of the middleware patterns holds the word
    [middleware] *)
Lemma middleware_names_keyword (rel : string) :
  Glob.matches Guards.pat_middlewareAny rel = true \/
  Glob.matches Guards.pat_middlewareExact rel = true ->
  JsString.includes "middleware" rel = true.
Proof.
  unfold Glob.matches, Guards.pat_middlewareAny, Guards.pat_middlewareExact.
  cbn [Glob.matchSegs]. intros [H | H];
    destruct (anyTail_segment _ _ H) as [n [Hn Ha]];
    apply (includes_segment _ _ n Hn).
  - exact (anySuffix_includes "middleware"
             [Glob.AStar; Glob.ALit "."; Glob.ts_tsx_js] n Ha).
  - cbn [Glob.matchAtoms] in Ha.
    destruct (Regex.stripPrefix "middleware." n) eqn:E; [|discriminate].
    apply (includes_app_l "middleware" ".").
    now apply includes_of_prefix, (stripPrefix_prefix _ _ _ E).
Qed.

End GlobFacts.

(** ** C3: a corpus without auth keywords *)

(** C3. A working tree whose only file is an empty [a/b.ts] mentions no
    auth keyword, neither in its text nor in its path; the pipeline
    returns a record, but the provider in it is [next-auth], not
    [unknown]: the directory name [a] is one character of the bracket
    expression the NextAuth route pattern was written with. *)
Theorem C3_one_letter_directory_is_taken_for_nextauth :
  forall now : string,
    Spec.keywordFree "a/b.ts" = true /\
    Spec.keywordFree "" = true /\
    exists m,
      snd (Extractor.extractAuthSystem Scenarios.oneLetterDirRepo now Scenarios.root) =
        inr m /\
      AuthProvider.type (Extractor.authProvider m) = "next-auth".
Proof.
  intros now. split; [vm_compute; reflexivity|]. split; [vm_compute; reflexivity|].
  eexists. split; [vm_compute; reflexivity|]. reflexivity.
Qed.

(** a [package.json] that cannot be parsed makes the pipeline reject,
    whatever the sources hold *)
Example unparsable_manifest_rejects :
  Extractor.extractAuthSystem
    (fun _ => Some {| Fs.files := []; Fs.packageJson := Some Fs.Unparsable |})
    "t" "/srv/repo" = ([], inl Extractor.ManifestFailure).
Proof. reflexivity. Qed.

Section TotalityFacts.
Variable fs : Fs.FileSystem.
Variable repoPath : string.
Variable t : Fs.WorkingTree.
Hypothesis Htree : fs repoPath = Some t.
Hypothesis Hfree : forall f, In f (Fs.files t) -> Spec.keywordFree (snd f) = true.
Hypothesis Hpaths : forall f, In f (Fs.files t) -> Spec.keywordFree (fst f) = true.

Lemma keywordFree_use (s kw : string) :
  Spec.keywordFree s = true -> In kw Spec.authKeywords -> JsString.includes kw s = false.
Proof.
  unfold Spec.keywordFree. rewrite forallb_forall. intros H Hin.
  apply negb_true_iff. now apply H.
Qed.

Lemma globSync_In (pat : Glob.pattern) (g : Fs.File) :
  In g (Fs.globSync fs pat repoPath) ->
  exists f, In f (Fs.files t) /\ Fs.content g = snd f /\ Glob.matches pat (fst f) = true.
Proof.
  unfold Fs.globSync. rewrite Htree. intros H.
  apply in_map_iff in H. destruct H as [f [<- Hf]].
  apply filter_In in Hf. destruct Hf as [Hin Hm]. exists f. auto.
Qed.

Lemma globbed_keyword_free (pat : Glob.pattern) (g : Fs.File) (kw : string) :
  In g (Fs.globSync fs pat repoPath) -> In kw Spec.authKeywords ->
  JsString.includes kw (Fs.content g) = false.
Proof.
  intros Hg Hkw. destruct (globSync_In _ _ Hg) as [f [Hin [-> _]]].
  apply keywordFree_use; auto.
Qed.

Lemma globSync_none (pat : Glob.pattern) :
  (forall f, In f (Fs.files t) -> Glob.matches pat (fst f) = false) ->
  Fs.globSync fs pat repoPath = [].
Proof.
  intros H. unfold Fs.globSync. rewrite Htree.
  rewrite filter_none; [reflexivity | exact H].
Qed.

(** closes a goal [includes kw (content g) = false] for a globbed file *)
Ltac absent Hg :=
  first [ apply (globbed_keyword_free _ _ _ Hg); cbn; tauto
        | apply includes_missing_l with (a := "strategy:");
          apply (globbed_keyword_free _ _ _ Hg); cbn; tauto ].

Lemma no_role_files : RoleModel.roleFiles fs repoPath = [].
Proof.
  unfold RoleModel.roleFiles. apply filter_none. intros g Hg.
  unfold RoleModel.isRoleFile.
  repeat (apply orb_false_iff; split); absent Hg.
Qed.

Lemma no_token_files : TokenStrategy.tokenFiles fs repoPath = [].
Proof.
  unfold TokenStrategy.tokenFiles. apply filter_none. intros g Hg.
  unfold TokenStrategy.isTokenFile.
  repeat (apply orb_false_iff; split); absent Hg.
Qed.

Lemma no_guarded_api :
  filter (fun f => PermissionCheckLib.isProtectedApi (Fs.content f))
         (PermissionCheck.apiRouteFiles fs repoPath) = [].
Proof.
  apply filter_none. intros g Hg. unfold PermissionCheck.apiRouteFiles in Hg.
  apply filter_In in Hg. destruct Hg as [Hg _].
  unfold PermissionCheckLib.isProtectedApi.
  repeat (apply orb_false_iff; split); absent Hg.
Qed.

Lemma no_component_files : PermissionCheckLib.componentFiles fs repoPath = [].
Proof.
  unfold PermissionCheckLib.componentFiles. apply filter_none. intros g Hg.
  unfold PermissionCheckLib.isComponentFile.
  repeat (apply orb_false_iff; split); absent Hg.
Qed.

Lemma no_session_strategy (files : list Fs.File) :
  (forall g, In g files -> In g (Fs.globSync fs SessionStorage.pat_nextAuthFiles repoPath)) ->
  SessionStorage.fromNextAuthFiles files repoPath = None.
Proof.
  induction files as [|g files IH]; intros H; [reflexivity|].
  cbn [SessionStorage.fromNextAuthFiles].
  assert (Hg := H g (or_introl eq_refl)).
  assert (Hj : SessionStorage.saysStrategy "jwt" (Fs.content g) = false).
  { unfold SessionStorage.saysStrategy. apply orb_false_iff; split; absent Hg. }
  assert (Hd : SessionStorage.saysStrategy "database" (Fs.content g) = false).
  { unfold SessionStorage.saysStrategy. apply orb_false_iff; split; absent Hg. }
  rewrite Hj, Hd. apply IH. intros g' Hg'. apply H. now right.
Qed.

Lemma default_session :
  SessionStorage.extractSessionStorage fs repoPath = SessionStorage.defaultSession.
Proof.
  unfold SessionStorage.extractSessionStorage.
  rewrite no_session_strategy by auto.
  rewrite filter_none.
  - rewrite filter_none; [reflexivity|]. intros g Hg.
    unfold SessionStorage.isLocalStorageFile.
    apply andb_false_iff. left. absent Hg.
  - intros g Hg. unfold SessionStorage.isCookieFile.
    repeat (apply orb_false_iff; split); absent Hg.
Qed.

Lemma no_file_name_match (f : string * string) :
  In f (Fs.files t) ->
  Glob.matches AuthProvider.pat_nextAuthFile (fst f) = false /\
  Glob.matches Guards.pat_middlewareAny (fst f) = false /\
  Glob.matches Guards.pat_middlewareExact (fst f) = false.
Proof.
  intros Hf. pose proof (Hpaths f Hf) as Hk.
  assert (Hn : JsString.includes "next-auth" (fst f) = false)
    by (apply keywordFree_use; [exact Hk | cbn; tauto]).
  assert (Hm : JsString.includes "middleware" (fst f) = false)
    by (apply keywordFree_use; [exact Hk | cbn; tauto]).
  repeat split.
  - destruct (Glob.matches AuthProvider.pat_nextAuthFile (fst f)) eqn:E; [|reflexivity].
    apply nextAuthFile_names_keyword in E. congruence.
  - destruct (Glob.matches Guards.pat_middlewareAny (fst f)) eqn:E; [|reflexivity].
    rewrite middleware_names_keyword in Hm; [discriminate | now left].
  - destruct (Glob.matches Guards.pat_middlewareExact (fst f)) eqn:E; [|reflexivity].
    rewrite middleware_names_keyword in Hm; [discriminate | now right].
Qed.

(** no directory of the tree is taken for the NextAuth route directory *)
Hypothesis Hroute :
  forall f, In f (Fs.files t) ->
    Glob.matches AuthProvider.pat_nextAuthRoute (fst f) = false.

Lemma unknown_provider :
  AuthProvider.extractAuthProvider fs repoPath = AuthProvider.unknownProvider.
Proof.
  unfold AuthProvider.extractAuthProvider, AuthProvider.nextAuthPath.
  rewrite (globSync_none AuthProvider.pat_nextAuthFile)
    by (intros f Hf; now destruct (no_file_name_match f Hf) as [? [? ?]]).
  rewrite (globSync_none AuthProvider.pat_nextAuthRoute) by exact Hroute.
  cbn [hd_error].
  rewrite find_none_all.
  - rewrite find_none_all; [reflexivity|]. intros g Hg.
    apply orb_false_iff; split; absent Hg.
  - intros g Hg. apply orb_false_iff; split; absent Hg.
Qed.

Lemma no_permission_checks :
  PermissionCheckLib.extractPermissionChecks fs repoPath =
  {| Guards.middleware := []; Guards.protectedRoutes := []; Guards.apiGuards := [];
     Guards.componentGuards := None |}.
Proof.
  unfold PermissionCheckLib.extractPermissionChecks, PermissionCheck.middlewareFiles.
  rewrite no_guarded_api, no_component_files.
  rewrite !globSync_none
    by (intros f Hf; now destruct (no_file_name_match f Hf) as [? [? ?]]).
  reflexivity.
Qed.

Hypothesis Hmanifest : Fs.packageJson t <> Some Fs.Unparsable.

(** Totality, with what it takes.  On a tree that exists, whose
    [package.json] (if any) can be read, whose texts and paths mention no
    auth keyword, and in which no path is matched by the pattern written
    for the NextAuth route directory, the pipeline returns a record holding
    the documented defaults and empty lists. *)
Theorem totality_without_keywords (now : string) :
  exists m,
    snd (Extractor.extractAuthSystem fs now repoPath) = inr m /\
    Extractor.authProvider m = AuthProvider.unknownProvider /\
    Extractor.sessionStorage m = SessionStorage.defaultSession /\
    Extractor.tokenStrategy m = TokenStrategy.initial /\
    RoleModel.roles (Extractor.roleModel m) = [] /\
    RoleModel.permissions_ (Extractor.roleModel m) = [] /\
    Guards.middleware (Extractor.permissionChecks m) = [] /\
    Guards.protectedRoutes (Extractor.permissionChecks m) = [] /\
    Guards.apiGuards (Extractor.permissionChecks m) = [].
Proof.
  unfold Extractor.extractAuthSystem, Fs.existsSync, Extractor.detectFramework.
  rewrite Htree. cbn [negb].
  rewrite unknown_provider, default_session, no_permission_checks.
  unfold TokenStrategy.extractTokenStrategy, RoleModel.extractRoleModel,
    RoleModel.gatheredRoles, RoleModel.gatheredPermissions.
  rewrite no_token_files, no_role_files.
  destruct (Fs.packageJson t) as [[|n r e]|]; [contradiction| |];
    eexists; (split; [reflexivity|]); cbn; repeat split; reflexivity.
Qed.

End TotalityFacts.

(** the hypotheses of [totality_without_keywords] can be met *)
Example totality_on_a_plain_tree :
  exists m,
    snd (Extractor.extractAuthSystem
           (Scenarios.tree [("src/index.ts", "export const x = 1")]) "t" Scenarios.root) =
      inr m /\
    Extractor.authProvider m = AuthProvider.unknownProvider /\
    Extractor.sessionStorage m = SessionStorage.defaultSession.
Proof.
  destruct (totality_without_keywords
              (Scenarios.tree [("src/index.ts", "export const x = 1")]) Scenarios.root
              {| Fs.files := [("src/index.ts", "export const x = 1")];
                 Fs.packageJson := None |}
              eq_refl) with (now := "t") as [m [H1 [H2 [H3 _]]]].
  - intros f [<- | []]. vm_compute. reflexivity.
  - intros f [<- | []]. vm_compute. reflexivity.
  - intros f [<- | []]. vm_compute. reflexivity.
  - discriminate.
  - exists m. auto.
Qed.

(* ================================================================== *)
(** * Further properties of the extractors and of the handler *)

(* ================================================================== *)
(** ** Repetitions of a character class *)

Section ClassStarFacts.
Import Regex.

Lemma stripPrefix_app (l s : string) : stripPrefix l (l ++ s) = Some s.
Proof.
  induction l as [|c l IH]; simpl; [reflexivity|].
  now rewrite Ascii.eqb_refl.
Qed.

Lemma stripPrefix_inv (l s r : string) : stripPrefix l s = Some r -> s = l ++ r.
Proof.
  revert s. induction l as [|c l IH]; intros s; simpl.
  - intros H. now inversion H.
  - destruct s as [|d s]; [discriminate|].
    destruct (Ascii.eqb c d) eqn:E; [|discriminate].
    apply Ascii.eqb_eq in E. subst d. intros H. now rewrite (IH _ H).
Qed.

Lemma take_app_length (w s : string) : JsString.take (String.length w) (w ++ s) = w.
Proof. induction w as [|c w IH]; simpl; [now destruct s | now rewrite IH]. Qed.

Lemma string_length_app (a b : string) :
  String.length (a ++ b) = String.length a + String.length b.
Proof. induction a as [|c a IH]; simpl; [reflexivity | now rewrite IH]. Qed.

(** one round of the loop of a repeated class *)
Lemma star_class_nil (p : ascii -> bool) (pos : nat) (caps : Caps) (k : Cont) :
  rmatch (RStar (RChar p)) pos "" caps k = k pos "" caps.
Proof. reflexivity. Qed.

Lemma star_class_cons (p : ascii -> bool) (c : ascii) (t : string) (pos : nat)
  (caps : Caps) (k : Cont) :
  rmatch (RStar (RChar p)) pos (String c t) caps k =
  if p c then
    match rmatch (RStar (RChar p)) (S pos) t caps k with
    | Some x => Some x
    | None => k pos (String c t) caps
    end
  else k pos (String c t) caps.
Proof.
  cbn [rmatch String.length starLoop].
  destruct (p c); [|reflexivity].
  assert (E : (S pos =? pos) = false) by (apply Nat.eqb_neq; lia).
  rewrite E. reflexivity.
Qed.

(** a greedy repetition takes the whole run when the rest then matches *)
Lemma star_class_longest (p : ascii -> bool) (w rest : string) (k : Cont) :
  Chars.every p w = true ->
  (forall c t, rest = String c t -> p c = false) ->
  forall pos caps x,
    k (pos + String.length w) rest caps = Some x ->
    rmatch (RStar (RChar p)) pos (w ++ rest) caps k = Some x.
Proof.
  intros Hw Hrest. induction w as [|a w IH]; intros pos caps x Hk.
  - simpl in Hk. rewrite Nat.add_0_r in Hk. change (("" ++ rest)%string) with rest.
    destruct rest as [|c t]; [exact Hk|].
    rewrite star_class_cons, (Hrest c t eq_refl). exact Hk.
  - simpl in Hw. apply andb_true_iff in Hw. destruct Hw as [Ha Hw].
    change ((String a w ++ rest)%string) with (String a (w ++ rest)).
    rewrite star_class_cons, Ha.
    rewrite (IH Hw (S pos) caps x); [reflexivity|].
    simpl in Hk. now rewrite Nat.add_succ_r in Hk.
Qed.

(** what a repetition of a class has consumed when the match succeeds *)
Lemma star_class_inv (p : ascii -> bool) (k : Cont) :
  forall s pos caps x,
    rmatch (RStar (RChar p)) pos s caps k = Some x ->
    exists w rest,
      s = w ++ rest /\ Chars.every p w = true /\
      k (pos + String.length w) rest caps = Some x.
Proof.
  induction s as [|c t IH]; intros pos caps x H.
  - exists "", "". simpl. rewrite Nat.add_0_r. auto.
  - rewrite star_class_cons in H.
    destruct (p c) eqn:Ec.
    + destruct (rmatch (RStar (RChar p)) (S pos) t caps k) as [y|] eqn:E.
      * inversion H; subst y.
        destruct (IH _ _ _ E) as [w [rest [Hs [Hw Hk]]]].
        exists (String c w), rest. simpl. rewrite Ec, Hw, Hs.
        rewrite Nat.add_succ_r. auto.
      * exists "", (String c t). simpl. rewrite Nat.add_0_r. auto.
    + exists "", (String c t). simpl. rewrite Nat.add_0_r. auto.
Qed.

(** a repetition of a class fails when the rest fails at every place the
    loop can stop *)
Lemma star_class_fails (p : ascii -> bool) (k : Cont) :
  forall s pos caps,
    (forall w rest, s = w ++ rest -> k (pos + String.length w) rest caps = None) ->
    rmatch (RStar (RChar p)) pos s caps k = None.
Proof.
  induction s as [|c t IH]; intros pos caps Hk.
  - simpl. specialize (Hk "" "" eq_refl). simpl in Hk. now rewrite Nat.add_0_r in Hk.
  - rewrite star_class_cons.
    assert (H0 : k pos (String c t) caps = None).
    { specialize (Hk "" (String c t) eq_refl). simpl in Hk. now rewrite Nat.add_0_r in Hk. }
    rewrite H0. destruct (p c); [|reflexivity].
    rewrite IH; [reflexivity|].
    intros w rest Hs. specialize (Hk (String c w) rest). simpl in Hk.
    rewrite Nat.add_succ_r in Hk. apply Hk. now rewrite Hs.
Qed.

(** an expression anchored at the start matches nowhere else *)
Lemma searchFrom_anchored (subj : string) (r : regex) :
  forall s pos, 0 < pos -> searchFrom subj (RSeq RBegin r) pos s = None.
Proof.
  induction s as [|c s IH]; intros pos Hpos; cbn [searchFrom rmatch].
  - destruct (pos =? 0) eqn:E; [apply Nat.eqb_eq in E; lia | reflexivity].
  - destruct (pos =? 0) eqn:E; [apply Nat.eqb_eq in E; lia|]. apply IH. lia.
Qed.

Lemma every_app (p : ascii -> bool) (a b : string) :
  Chars.every p (a ++ b) = Chars.every p a && Chars.every p b.
Proof. induction a as [|c a IH]; simpl; [reflexivity | now rewrite IH, andb_assoc]. Qed.

End ClassStarFacts.

(* ================================================================== *)
(** ** The repository URL *)

Section MatchSteps.
Import Regex.

Lemma rmatch_seq (a b : regex) (pos : nat) (s : string) (caps : Caps) (k : Cont) :
  rmatch (RSeq a b) pos s caps k =
  rmatch a pos s caps (fun pos' s' caps' => rmatch b pos' s' caps' k).
Proof. reflexivity. Qed.

Lemma rmatch_str_app (l s : string) (pos : nat) (caps : Caps) (k : Cont) :
  rmatch (RStr l) pos (l ++ s) caps k = k (pos + String.length l) s caps.
Proof. cbn [rmatch]. now rewrite stripPrefix_app. Qed.

Lemma rmatch_str_inv (l s : string) (pos : nat) (caps : Caps) (k : Cont) x :
  rmatch (RStr l) pos s caps k = Some x ->
  exists r, s = l ++ r /\ k (pos + String.length l) r caps = Some x.
Proof.
  cbn [rmatch]. destruct (stripPrefix l s) as [r|] eqn:E; [|discriminate].
  intros H. exists r. split; [now apply stripPrefix_inv | exact H].
Qed.

(** a group holding one or more characters of a class, followed by
    something that class does not begin *)
Lemma class_group_fwd (g : nat) (p : ascii -> bool) (w rest : string) (k : Cont) :
  w <> "" ->
  Chars.every p w = true ->
  (forall c t, rest = String c t -> p c = false) ->
  forall pos caps x,
    k (pos + String.length w) rest ((g, (pos, pos + String.length w)) :: caps) = Some x ->
    rmatch (RGroup g (RPlus (RChar p))) pos (w ++ rest) caps k = Some x.
Proof.
  intros Hne Hw Hrest pos caps x Hk.
  destruct w as [|a w]; [congruence|].
  simpl in Hw. apply andb_true_iff in Hw. destruct Hw as [Ha Hw].
  change (rmatch (RGroup g (RPlus (RChar p))) pos (String a w ++ rest) caps k)
    with (if p a
          then rmatch (RStar (RChar p)) (S pos) (w ++ rest) caps
                 (fun pos' s' caps' => k pos' s' ((g, (pos, pos')) :: caps'))
          else None).
  rewrite Ha. apply star_class_longest; [exact Hw | exact Hrest|].
  simpl in Hk. rewrite Nat.add_succ_r in Hk. exact Hk.
Qed.

Lemma class_group_inv (g : nat) (p : ascii -> bool) (k : Cont) :
  forall s pos caps x,
    rmatch (RGroup g (RPlus (RChar p))) pos s caps k = Some x ->
    exists w rest,
      s = w ++ rest /\ w <> "" /\ Chars.every p w = true /\
      k (pos + String.length w) rest ((g, (pos, pos + String.length w)) :: caps) = Some x.
Proof.
  intros s pos caps x H. destruct s as [|a t]; [discriminate|].
  change (rmatch (RGroup g (RPlus (RChar p))) pos (String a t) caps k)
    with (if p a
          then rmatch (RStar (RChar p)) (S pos) t caps
                 (fun pos' s' caps' => k pos' s' ((g, (pos, pos')) :: caps'))
          else None) in H.
  destruct (p a) eqn:Ea; [|discriminate].
  destruct (star_class_inv _ _ _ _ _ _ H) as [w [rest [Hs [Hw Hk]]]].
  exists (String a w), rest. simpl. rewrite Ea, Hw, Hs.
  rewrite Nat.add_succ_r. repeat split; [discriminate | exact Hk].
Qed.

Lemma searchFrom_here (subj : string) (r : regex) (pos : nat) (s : string)
  (e : nat) (caps : Caps) :
  rmatch r pos s [] accept = Some (e, caps) ->
  searchFrom subj r pos s = Some (mkMatch subj pos e caps).
Proof. intros H. destruct s; cbn [searchFrom]; now rewrite H. Qed.

Lemma searchFrom_anchored_inv (r : regex) (s : string) (m : MatchResult) :
  searchFrom s (RSeq RBegin r) 0 s = Some m ->
  m = mkMatch s 0 (mend m) (mcaps m) /\
  rmatch r 0 s [] accept = Some (mend m, mcaps m).
Proof.
  assert (Hb : forall t, rmatch (RSeq RBegin r) 0 t [] accept = rmatch r 0 t [] accept)
    by reflexivity.
  destruct s as [|c s]; cbn [searchFrom]; rewrite Hb.
  - destruct (rmatch r 0 "" [] accept) as [[e caps]|]; [|discriminate].
    intros H. inversion H. auto.
  - destruct (rmatch r 0 (String c s) [] accept) as [[e caps]|].
    + intros H. inversion H. auto.
    + rewrite searchFrom_anchored by lia. discriminate.
Qed.

(** the text of a capture that spans the run [w] after [pre] *)
Lemma span_text (pre w post : string) :
  JsString.take (String.length pre + String.length w - String.length pre)
    (JsString.drop (String.length pre) (pre ++ w ++ post)) = w.
Proof.
  rewrite drop_app.
  replace (String.length pre + String.length w - String.length pre)
    with (String.length w) by lia.
  apply take_app_length.
Qed.

End MatchSteps.

Section RepoUrlFacts.
Import Regex Handler.

Lemma rmatch_begin0 (s : string) (caps : Caps) (k : Cont) :
  rmatch RBegin 0 s caps k = k 0 s caps.
Proof. reflexivity. Qed.

Lemma string_app_nil_r (s : string) : s ++ "" = s.
Proof. induction s as [|c s IH]; simpl; [reflexivity | now rewrite IH]. Qed.

(** the match of the expression on a well-formed URL, and its captures *)
Lemma github_match_fwd (owner repo : string) :
  owner <> "" -> repo <> "" ->
  Chars.every cls_name owner = true -> Chars.every cls_name repo = true ->
  exists e caps,
    rmatch githubRegex 0 ("https://github.com/" ++ owner ++ "/" ++ repo) [] accept =
      Some (e, caps) /\
    lookupCap 1 caps = Some (19, 19 + String.length owner) /\
    lookupCap 2 caps =
      Some (19 + String.length owner + 1,
            19 + String.length owner + 1 + String.length repo).
Proof.
  intros Ho Hr Hco Hcr. eexists. eexists. split.
  - unfold githubRegex. cbn [RCat].
    rewrite rmatch_seq, rmatch_begin0, rmatch_seq, rmatch_str_app, rmatch_seq.
    apply class_group_fwd; [exact Ho | exact Hco | |].
    { intros c t E. inversion E. reflexivity. }
    rewrite rmatch_seq, rmatch_str_app, rmatch_seq.
    rewrite <- (string_app_nil_r repo) at 1.
    apply class_group_fwd; [exact Hr | exact Hcr | discriminate |].
    reflexivity.
  - cbn. split; reflexivity.
Qed.

Lemma span_text_at (subj pre w post : string) (a b : nat) :
  subj = pre ++ w ++ post -> a = String.length pre -> b = a + String.length w ->
  JsString.take (b - a) (JsString.drop a subj) = w.
Proof. intros -> -> ->. apply span_text. Qed.

Lemma parse_well_formed (owner repo : string) :
  owner <> "" -> repo <> "" ->
  Chars.every cls_name owner = true -> Chars.every cls_name repo = true ->
  parseRepoUrl ("https://github.com/" ++ owner ++ "/" ++ repo) = Some (owner, repo).
Proof.
  intros Ho Hr Hco Hcr.
  destruct (github_match_fwd owner repo Ho Hr Hco Hcr) as [e [caps [Hm [H1 H2]]]].
  unfold parseRepoUrl, jsMatch. rewrite (searchFrom_here _ _ _ _ _ _ Hm).
  unfold group. cbn [mcaps subject]. rewrite H1, H2.
  rewrite (span_text_at _ "https://github.com/" owner ("/" ++ repo));
    [|reflexivity|reflexivity|reflexivity].
  rewrite (span_text_at _ ("https://github.com/" ++ owner ++ "/") repo "");
    [reflexivity| | |reflexivity].
  - rewrite string_app_nil_r, !string_app_assoc_eq. reflexivity.
  - rewrite !string_length_app. reflexivity.
Qed.

Lemma github_tail_inv (pos : nat) (rest : string) (caps : Caps) x :
  rmatch (RSeq (ROpt (RStr ".git")) REnd) pos rest caps accept = Some x ->
  rest = ".git" \/ rest = "".
Proof.
  rewrite rmatch_seq. unfold ROpt. cbn [rmatch].
  destruct (stripPrefix ".git" rest) as [r|] eqn:E.
  - destruct r as [|c r].
    + intros _. left. apply stripPrefix_inv in E. now rewrite string_app_nil_r in E.
    + destruct rest as [|d rest]; [discriminate|]. discriminate.
  - destruct rest; [auto | discriminate].
Qed.

(** the shape of every URL the expression accepts *)
Lemma github_match_inv (url : string) (m : MatchResult) :
  jsMatch githubRegex url = Some m ->
  exists owner repo,
    url = "https://github.com/" ++ owner ++ "/" ++ repo /\
    owner <> "" /\ repo <> "" /\
    Chars.every cls_name owner = true /\ Chars.every cls_name repo = true.
Proof.
  unfold jsMatch, githubRegex. cbn [RCat]. intros H.
  apply searchFrom_anchored_inv in H. destruct H as [_ H].
  rewrite rmatch_seq in H. apply rmatch_str_inv in H. destruct H as [r1 [E1 H]].
  rewrite rmatch_seq in H. apply class_group_inv in H.
  destruct H as [owner [r2 [E2 [Ho [Hco H]]]]].
  rewrite rmatch_seq in H. apply rmatch_str_inv in H. destruct H as [r3 [E3 H]].
  rewrite rmatch_seq in H. apply class_group_inv in H.
  destruct H as [w [r4 [E4 [Hw [Hcw H]]]]].
  apply github_tail_inv in H.
  exists owner, (w ++ r4). subst. repeat split; try assumption.
  - destruct w; [congruence | discriminate].
  - rewrite every_app, Hcw. destruct H as [-> | ->]; reflexivity.
Qed.

End RepoUrlFacts.

(* ================================================================== *)
(** ** The endpoint of a route file *)

Section EndpointFacts.
Import Regex Guards.

(** a text without the character [c] holds only other characters *)
Lemma every_not_char (c : ascii) (s : string) :
  JsString.includes (String c "") s = false -> Chars.every (cls_not c) s = true.
Proof.
  induction s as [|d t IH]; [reflexivity|].
  rewrite includes_unfold_eq. cbn [String.prefix Chars.every].
  unfold cls_not at 1.
  destruct (ascii_dec c d) as [->|Hne].
  - destruct t; discriminate.
  - intros H. rewrite (IH H).
    destruct (Ascii.eqb d c) eqn:E; [apply Ascii.eqb_eq in E; congruence | reflexivity].
Qed.

Lemma stripPrefix_other (c : ascii) (l s : string) :
  Chars.every (cls_not c) s = true -> stripPrefix (String c l) s = None.
Proof.
  destruct s as [|d t]; [reflexivity|]. cbn [Chars.every stripPrefix].
  unfold cls_not. intros H. apply andb_true_iff in H. destruct H as [H _].
  destruct (Ascii.eqb c d) eqn:E; [|reflexivity].
  apply Ascii.eqb_eq in E. subst. now rewrite Ascii.eqb_refl in H.
Qed.

Lemma class_plus_fwd (p : ascii -> bool) (w rest : string) (k : Cont) :
  w <> "" ->
  Chars.every p w = true ->
  (forall c t, rest = String c t -> p c = false) ->
  forall pos caps x,
    k (pos + String.length w) rest caps = Some x ->
    rmatch (RPlus (RChar p)) pos (w ++ rest) caps k = Some x.
Proof.
  intros Hne Hw Hrest pos caps x Hk.
  destruct w as [|a w]; [congruence|].
  simpl in Hw. apply andb_true_iff in Hw. destruct Hw as [Ha Hw].
  change (rmatch (RPlus (RChar p)) pos (String a w ++ rest) caps k)
    with (if p a then rmatch (RStar (RChar p)) (S pos) (w ++ rest) caps k else None).
  rewrite Ha. apply star_class_longest; [exact Hw | exact Hrest|].
  simpl in Hk. rewrite Nat.add_succ_r in Hk. exact Hk.
Qed.

(** a loop whose iterations begin with a character the text does not
    begin with leaves at once *)
Lemma starLoop_stuck (c : ascii) (l : string) (b : regex) (k : Cont) (fuel pos : nat)
  (s : string) (caps : Caps) :
  stripPrefix (String c l) s = None ->
  starLoop (rmatch (RSeq (RStr (String c l)) b)) k fuel pos s caps = k pos s caps.
Proof.
  intros H. destruct fuel as [|fuel]; [reflexivity|].
  cbn [starLoop]. rewrite rmatch_seq. cbn [rmatch]. now rewrite H.
Qed.

Lemma starLoop_unfold step (k : Cont) (fuel pos : nat) (s : string) (caps : Caps) :
  starLoop step k (S fuel) pos s caps =
  match step pos s caps
          (fun pos' s' caps' =>
             if pos' =? pos then None else starLoop step k fuel pos' s' caps') with
  | Some x => Some x
  | None => k pos s caps
  end.
Proof. reflexivity. Qed.

(** the path group of the extended detector on a route with one segment *)
Lemma segments_group_one (seg post : string) (k : Cont) (pos : nat) (caps : Caps) x :
  seg <> "" ->
  Chars.every (cls_not "/"%char) seg = true ->
  Chars.every (cls_not "/"%char) post = true ->
  k (pos + String.length seg + 6) post ((1, (pos, pos + String.length seg)) :: caps) = Some x ->
  rmatch (RSeq (RGroup 1 (RSeq (RPlus notSlash) (RStar (RSeq (RStr "/") (RPlus notSlash)))))
               (RStr "/route"))
         pos (seg ++ "/route" ++ post) caps k = Some x.
Proof.
  intros Hne Hseg Hpost Hk.
  rewrite rmatch_seq.
  change (rmatch (RGroup 1 (RSeq (RPlus notSlash)
                                 (RStar (RSeq (RStr "/") (RPlus notSlash)))))
            pos (seg ++ "/route" ++ post) caps
            (fun pos' s' caps' => rmatch (RStr "/route") pos' s' caps' k))
    with (rmatch (RPlus (RChar (cls_not "/"%char))) pos (seg ++ "/route" ++ post) caps
            (fun p1 s1 c1 =>
               starLoop (rmatch (RSeq (RStr "/") (RPlus notSlash)))
                 (fun p2 s2 c2 => rmatch (RStr "/route") p2 s2 ((1, (pos, p2)) :: c2) k)
                 (String.length s1) p1 s1 c1)).
  apply class_plus_fwd; [exact Hne | exact Hseg | |].
  { intros c t E. inversion E. reflexivity. }
  set (K2 := fun (p2 : nat) (s2 : string) (c2 : Caps) =>
               rmatch (RStr "/route") p2 s2 ((1, (pos, p2)) :: c2) k).
  set (p1 := pos + String.length seg).
  change (String.length ("/route" ++ post)) with (S (String.length ("route" ++ post))).
  rewrite starLoop_unfold.
  assert (Hstep :
    rmatch (RSeq (RStr "/") (RPlus notSlash)) p1 ("/route" ++ post) caps
      (fun pos' s' caps' =>
         if pos' =? p1 then None
         else starLoop (rmatch (RSeq (RStr "/") (RPlus notSlash))) K2
                (String.length ("route" ++ post)) pos' s' caps') = None).
  { rewrite rmatch_seq.
    change ("/route" ++ post) with ("/" ++ ("route" ++ post)).
    rewrite rmatch_str_app.
    change (rmatch (RPlus notSlash) (p1 + String.length "/") ("route" ++ post) caps ?K)
      with (rmatch (RStar (RChar (cls_not "/"%char))) (S (p1 + 1)) ("oute" ++ post) caps K).
    apply star_class_fails. intros w rest Hs.
    assert (Hrest : Chars.every (cls_not "/"%char) rest = true).
    { assert (H : Chars.every (cls_not "/"%char) ("oute" ++ post) = true)
        by (rewrite every_app, Hpost; reflexivity).
      rewrite Hs, every_app in H. apply andb_true_iff in H. tauto. }
    destruct (_ =? p1); [reflexivity|].
    rewrite starLoop_stuck by (apply stripPrefix_other; exact Hrest).
    unfold K2. cbn [rmatch]. now rewrite (stripPrefix_other _ _ _ Hrest). }
  rewrite Hstep. unfold K2.
  rewrite rmatch_str_app. unfold p1. exact Hk.
Qed.

Lemma firstGroup_here (r : regex) (text : string) (e a b : nat) (caps : Caps) (w : string) :
  rmatch r 0 text [] accept = Some (e, caps) ->
  lookupCap 1 caps = Some (a, b) ->
  JsString.take (b - a) (JsString.drop a text) = w ->
  firstGroup r text = Some w.
Proof.
  intros Hm Hc Hw. unfold firstGroup, jsMatch.
  rewrite (searchFrom_here _ _ _ _ _ _ Hm). unfold group. cbn [mcaps subject].
  now rewrite Hc, Hw.
Qed.

Lemma route_group_lib (seg post : string) :
  seg <> "" ->
  Chars.every (cls_not "/"%char) seg = true ->
  firstGroup PermissionCheckLib.routePathPattern ("api/" ++ seg ++ "/route" ++ post) =
  Some seg.
Proof.
  intros Hne Hseg.
  eapply firstGroup_here.
  - unfold PermissionCheckLib.routePathPattern. cbn [RCat].
    rewrite rmatch_seq, rmatch_str_app, rmatch_seq.
    apply class_group_fwd; [exact Hne | exact Hseg | |].
    { intros c t E. inversion E. reflexivity. }
    rewrite rmatch_str_app. reflexivity.
  - reflexivity.
  - apply (span_text_at _ "api/" seg ("/route" ++ post)); reflexivity.
Qed.

Lemma route_group_ext (seg post : string) :
  seg <> "" ->
  Chars.every (cls_not "/"%char) seg = true ->
  Chars.every (cls_not "/"%char) post = true ->
  firstGroup PermissionCheck.routePathPattern ("api/" ++ seg ++ "/route" ++ post) =
  Some seg.
Proof.
  intros Hne Hseg Hpost.
  eapply firstGroup_here.
  - unfold PermissionCheck.routePathPattern. cbn [RCat].
    rewrite rmatch_seq, rmatch_str_app.
    apply segments_group_one; [exact Hne | exact Hseg | exact Hpost |].
    reflexivity.
  - reflexivity.
  - apply (span_text_at _ "api/" seg ("/route" ++ post)); reflexivity.
Qed.

Lemma no_earlier_api (pre rest : string) :
  JsString.includes "api/" (pre ++ "api") = false ->
  startsNowhere "api/" pre ("api/" ++ rest) = true.
Proof.
  intros H. apply (startsNowhere_of_includes "api/" pre ("api/" ++ rest) 3);
    [simpl; lia | exact H].
Qed.

Lemma route_endpoints (pre seg post repoPath : string) :
  JsString.includes "api/" (pre ++ "api") = false ->
  seg <> "" ->
  JsString.includes "/" seg = false ->
  PermissionCheckLib.routeEndpoint (pre ++ "api/" ++ seg ++ "/route" ++ post) repoPath =
    "/api/" ++ seg /\
  (JsString.includes "/" post = false ->
   PermissionCheck.routeEndpoint (pre ++ "api/" ++ seg ++ "/route" ++ post) repoPath =
     "/api/" ++ seg).
Proof.
  intros Hpre Hne Hseg.
  apply every_not_char in Hseg.
  pose proof (no_earlier_api pre (seg ++ "/route" ++ post) Hpre) as Hskip.
  split.
  - unfold PermissionCheckLib.routeEndpoint, PermissionCheckLib.routePathPattern.
    cbn [RCat]. rewrite firstGroup_in_suffix by (reflexivity || exact Hskip).
    change (RSeq (RStr "api/") (RSeq (RGroup 1 (RPlus notSlash)) (RStr "/route")))
      with PermissionCheckLib.routePathPattern.
    now rewrite route_group_lib.
  - intros Hpost. apply every_not_char in Hpost.
    unfold PermissionCheck.routeEndpoint, PermissionCheck.routePathPattern.
    cbn [RCat]. rewrite firstGroup_in_suffix by (reflexivity || exact Hskip).
    change (RSeq (RStr "api/")
              (RSeq (RGroup 1 (RSeq (RPlus notSlash)
                                    (RStar (RSeq (RStr "/") (RPlus notSlash)))))
                    (RStr "/route")))
      with PermissionCheck.routePathPattern.
    rewrite route_group_ext by assumption.
    unfold JsString.startsWith. now rewrite prefix_app_self.
Qed.

End EndpointFacts.

(* ================================================================== *)
(** ** Literals a match cannot do without *)

Section LiteralFacts.
Import Regex RegexLiterals.

(** a continuation is only ever called on a suffix of the text *)
Lemma rmatch_suffix (r : regex) :
  forall pos s caps (k : Cont) x,
    rmatch r pos s caps k = Some x ->
    exists w pos' s' caps', s = w ++ s' /\ k pos' s' caps' = Some x.
Proof.
  induction r as [|p|lit|a IHa b IHb|a IHa b IHb|a IHa|a IHa|i a IHa| |];
    intros pos s caps k x; cbn [rmatch].
  - intros H. exists "", pos, s, caps. auto.
  - destruct s as [|c s]; [discriminate|]. destruct (p c); [|discriminate].
    intros H. exists (String c ""), (S pos), s, caps. auto.
  - destruct (stripPrefix lit s) as [s'|] eqn:E; [|discriminate].
    intros H. exists lit, (pos + String.length lit), s', caps.
    split; [now apply stripPrefix_inv | exact H].
  - intros H. destruct (IHa _ _ _ _ _ H) as [w1 [p1 [s1 [c1 [E1 H1]]]]].
    destruct (IHb _ _ _ _ _ H1) as [w2 [p2 [s2 [c2 [E2 H2]]]]].
    exists (w1 ++ w2), p2, s2, c2. split; [|exact H2].
    now rewrite E1, E2, string_app_assoc_eq.
  - destruct (rmatch a pos s caps k) as [y|] eqn:Ea.
    + intros H. inversion H; subst y. exact (IHa _ _ _ _ _ Ea).
    + intros H. exact (IHb _ _ _ _ _ H).
  - generalize (String.length s) at 1. intros fuel. revert pos s caps.
    induction fuel as [|fuel IH]; intros pos s caps; simpl.
    + intros H. exists "", pos, s, caps. auto.
    + destruct (rmatch a pos s caps _) as [y|] eqn:Ea.
      * intros H. inversion H; subst y.
        destruct (IHa _ _ _ _ _ Ea) as [w1 [p1 [s1 [c1 [E1 H1]]]]].
        destruct (p1 =? pos); [discriminate|].
        destruct (IH _ _ _ H1) as [w2 [p2 [s2 [c2 [E2 H2]]]]].
        exists (w1 ++ w2), p2, s2, c2. split; [|exact H2].
        now rewrite E1, E2, string_app_assoc_eq.
      * intros H. exists "", pos, s, caps. auto.
  - generalize (String.length s) at 1. intros fuel. revert pos s caps.
    induction fuel as [|fuel IH]; intros pos s caps; simpl.
    + intros H. exists "", pos, s, caps. auto.
    + destruct (k pos s caps) as [y|] eqn:Ek.
      * intros H. inversion H; subst y. exists "", pos, s, caps. auto.
      * intros H. destruct (IHa _ _ _ _ _ H) as [w1 [p1 [s1 [c1 [E1 H1]]]]].
        destruct (p1 =? pos); [discriminate|].
        destruct (IH _ _ _ H1) as [w2 [p2 [s2 [c2 [E2 H2]]]]].
        exists (w1 ++ w2), p2, s2, c2. split; [|exact H2].
        now rewrite E1, E2, string_app_assoc_eq.
  - intros H. destruct (IHa _ _ _ _ _ H) as [w1 [p1 [s1 [c1 [E1 H1]]]]].
    exists w1, p1, s1, ((i, (pos, p1)) :: c1). auto.
  - destruct (pos =? 0); [|discriminate]. intros H. exists "", pos, s, caps. auto.
  - destruct s; [|discriminate]. intros H. exists "", pos, "", caps. auto.
Qed.

(** a match of an expression that requires a literal is found only in a
    text that holds the literal *)
Lemma rmatch_requires (lit : string) (r : regex) :
  requires lit r = true ->
  forall pos s caps (k : Cont) x,
    rmatch r pos s caps k = Some x -> JsString.includes lit s = true.
Proof.
  induction r as [|p|l|a IHa b IHb|a IHa b IHb|a IHa|a IHa|i a IHa| |];
    cbn [requires]; try discriminate; intros Hreq pos s caps k x.
  - cbn [rmatch]. destruct (stripPrefix l s) as [s'|] eqn:E; [|discriminate].
    intros _. apply stripPrefix_inv in E. subst s.
    apply includes_app_post. exact Hreq.
  - rewrite rmatch_seq. intros H.
    apply orb_true_iff in Hreq. destruct Hreq as [Ha | Hb].
    + exact (IHa Ha _ _ _ _ _ H).
    + destruct (rmatch_suffix _ _ _ _ _ _ H) as [w [p1 [s1 [c1 [E1 H1]]]]].
      subst s. apply includes_app_pre. exact (IHb Hb _ _ _ _ _ H1).
  - apply andb_true_iff in Hreq. destruct Hreq as [Ha Hb]. cbn [rmatch].
    destruct (rmatch a pos s caps k) as [y|] eqn:Ea.
    + intros _. exact (IHa Ha _ _ _ _ _ Ea).
    + intros H. exact (IHb Hb _ _ _ _ _ H).
  - cbn [rmatch]. intros H. exact (IHa Hreq _ _ _ _ _ H).
Qed.

Lemma searchFrom_requires (lit subj : string) (r : regex) :
  requires lit r = true ->
  forall s pos,
    JsString.includes lit s = false -> searchFrom subj r pos s = None.
Proof.
  intros Hreq. induction s as [|c s IH]; intros pos Hs; cbn [searchFrom].
  - destruct (rmatch r pos "" [] accept) as [[e caps]|] eqn:E; [|reflexivity].
    rewrite (rmatch_requires _ _ Hreq _ _ _ _ _ E) in Hs. discriminate.
  - destruct (rmatch r pos (String c s) [] accept) as [[e caps]|] eqn:E.
    + rewrite (rmatch_requires _ _ Hreq _ _ _ _ _ E) in Hs. discriminate.
    + apply IH. destruct (JsString.includes lit s) eqn:E2; [|reflexivity].
      rewrite (includes_cons _ _ c E2) in Hs. discriminate.
Qed.

Lemma jsMatch_requires (lit : string) (r : regex) (s : string) :
  requires lit r = true -> JsString.includes lit s = false -> jsMatch r s = None.
Proof. intros Hreq Hs. unfold jsMatch. now apply searchFrom_requires with (lit := lit). Qed.

Lemma execAll_requires (lit : string) (r : regex) (s : string) :
  requires lit r = true -> JsString.includes lit s = false -> execAll r s = [].
Proof.
  intros Hreq Hs. unfold execAll. cbn [execLoop].
  now rewrite (searchFrom_requires lit s r Hreq s 0 Hs).
Qed.

End LiteralFacts.

(* ================================================================== *)
(** ** More on the role model *)

Section RoleModelFacts.
Import RoleModel.

(** once a check pattern is stored, later files leave the implementation
    alone *)
Lemma noteImplementation_kept (repoPath : string) (files : list Fs.File)
  (impl : RoleModelImplementation) :
  String.eqb (checkPattern impl) "" = false ->
  fold_left (noteImplementation repoPath) files impl = impl.
Proof.
  intros H. induction files as [|f files IH]; [reflexivity|].
  cbn [fold_left]. unfold noteImplementation at 2.
  destruct (extractRoleCheckPattern (Fs.content f)) as [p|]; [|exact IH].
  rewrite H, andb_false_r. exact IH.
Qed.

Lemma noteImplementation_first (repoPath : string) (files : list Fs.File) :
  fold_left (noteImplementation repoPath) files emptyImplementation =
  match find (fun f => match extractRoleCheckPattern (Fs.content f) with
                       | Some p => negb (String.eqb p "")
                       | None => false
                       end) files with
  | Some f =>
      {| filePath := JsString.removeFirst repoPath (Fs.path f);
         template := JsString.substring0 1000 (Fs.content f);
         checkPattern := match extractRoleCheckPattern (Fs.content f) with
                         | Some p => p
                         | None => ""
                         end |}
  | None => emptyImplementation
  end.
Proof.
  induction files as [|f files IH]; [reflexivity|].
  cbn [fold_left find]. unfold noteImplementation at 2.
  destruct (extractRoleCheckPattern (Fs.content f)) as [p|] eqn:Ep; [|exact IH].
  cbn [checkPattern emptyImplementation]. rewrite andb_true_r.
  destruct (String.eqb p "") eqn:E; cbn [negb]; [exact IH|].
  rewrite Ep. apply noteImplementation_kept. exact E.
Qed.

Lemma levelMap_range (key : string) (n : N) :
  levelMap key = Some (Level n) -> (n <= 3)%N.
Proof.
  unfold levelMap, levelTable. cbn [JsMap.get].
  repeat match goal with
         | |- context [String.eqb ?a key] => destruct (String.eqb a key)
         end;
    try (intros H; inversion H; lia).
  destruct (existsb _ _); discriminate.
Qed.

End RoleModelFacts.

(** X1.  The implementation sample of the role model comes from the first
    role file, in enumeration order, whose text yields a non-empty role
    check; later files never replace it, and without such a file the
    three fields stay empty. *)
Theorem role_implementation_comes_from_first_check :
  forall (fs : Fs.FileSystem) (repoPath : string),
    let impl := RoleModel.implementation (RoleModel.extractRoleModel fs repoPath) in
    match find (fun f => match RoleModel.extractRoleCheckPattern (Fs.content f) with
                         | Some p => negb (String.eqb p "")
                         | None => false
                         end) (RoleModel.roleFiles fs repoPath) with
    | Some f =>
        RoleModel.extractRoleCheckPattern (Fs.content f) =
          Some (RoleModel.checkPattern impl) /\
        RoleModel.filePath impl = JsString.removeFirst repoPath (Fs.path f) /\
        RoleModel.template impl = JsString.substring0 1000 (Fs.content f)
    | None => impl = RoleModel.emptyImplementation
    end.
Proof.
  intros fs repoPath. cbv zeta.
  unfold RoleModel.extractRoleModel. cbn [RoleModel.implementation].
  rewrite noteImplementation_first.
  destruct (find _ (RoleModel.roleFiles fs repoPath)) as [f|] eqn:E; [|reflexivity].
  apply find_some in E. destruct E as [_ E].
  cbn [RoleModel.checkPattern RoleModel.filePath RoleModel.template].
  destruct (RoleModel.extractRoleCheckPattern (Fs.content f)); [|discriminate].
  auto.
Qed.

(** X2.  The hierarchy is present exactly when some role is rated, and
    then maps exactly the rated names, each to the value the level table
    gives its lowercased form.  A name is rated when a role carries it, the
    table's value for its lowercased form is truthy, and it is not
    [__proto__]. *)
Theorem hierarchy_holds_exactly_the_rated_roles :
  forall rs : list RoleModel.RoleDefinition,
    let rated k :=
      RoleModel.hasRole k rs &&
      (RoleModel.truthy (RoleModel.levelMap (JsString.toLowerCase k)) &&
       negb (String.eqb k "__proto__")) in
    match RoleModel.extractHierarchy rs with
    | Some h =>
        (exists k, rated k = true) /\
        forall k, JsMap.get k (RoleModel.levels h) =
                  if rated k then RoleModel.levelMap (JsString.toLowerCase k) else None
    | None => forall k, rated k = false
    end.
Proof.
  intros rs. cbv zeta.
  pose proof (fun k => hierarchy_lookup rs [] k) as Hl.
  unfold Spec.addsLevel in Hl. cbn [JsMap.get] in Hl.
  unfold RoleModel.extractHierarchy.
  destruct (fold_left RoleModel.noteLevel rs []) as [|[k0 v0] h] eqn:E;
    cbn [JsMap.keys map].
  - intros k. specialize (Hl k). cbn [JsMap.get] in Hl.
    destruct (RoleModel.hasRole k rs); [|reflexivity]. cbn [andb] in Hl |- *.
    destruct (RoleModel.truthy (RoleModel.levelMap (JsString.toLowerCase k))) eqn:Ht;
      [|reflexivity].
    cbn [andb] in Hl |- *.
    destruct (negb (String.eqb k "__proto__")); [|reflexivity].
    rewrite <- Hl in Ht. discriminate.
  - cbn [RoleModel.levels]. split; [|exact Hl].
    exists k0. specialize (Hl k0). cbn [JsMap.get] in Hl.
    rewrite String.eqb_refl in Hl.
    destruct (RoleModel.hasRole k0 rs &&
              (RoleModel.truthy (RoleModel.levelMap (JsString.toLowerCase k0)) &&
               negb (String.eqb k0 "__proto__"))); [reflexivity | discriminate].
Qed.

(** X3.  Every numeric level of a hierarchy is 1, 2 or 3: the hierarchy
    never holds the level 0. *)
Theorem hierarchy_levels_are_one_to_three :
  forall (rs : list RoleModel.RoleDefinition) (h : RoleModel.RoleHierarchy)
         (k : string) (n : N),
    RoleModel.extractHierarchy rs = Some h ->
    JsMap.get k (RoleModel.levels h) = Some (RoleModel.Level n) ->
    (1 <= n <= 3)%N.
Proof.
  intros rs h k n Hh Hk.
  pose proof (hierarchy_lookup rs [] k) as Hl.
  unfold RoleModel.extractHierarchy in Hh.
  destruct (fold_left RoleModel.noteLevel rs []) as [|e l] eqn:E;
    cbn [JsMap.keys map] in Hh; [discriminate|].
  inversion Hh; subst h. cbn [RoleModel.levels] in Hk. rewrite Hk in Hl.
  destruct (RoleModel.hasRole k rs && Spec.addsLevel k) eqn:Hr;
    [|cbn [JsMap.get] in Hl; discriminate].
  apply andb_true_iff in Hr. destruct Hr as [_ Hr].
  unfold Spec.addsLevel in Hr. apply andb_true_iff in Hr. destruct Hr as [Ht _].
  rewrite <- Hl in Ht. cbn [RoleModel.truthy] in Ht.
  symmetry in Hl. apply levelMap_range in Hl.
  apply negb_true_iff, N.eqb_neq in Ht. lia.
Qed.

Lemma hierarchy_levels_are_one_to_three_witness :
  RoleModel.extractHierarchy
    [{| RoleModel.name := "Admin"; RoleModel.permissions := [] |}] =
    Some {| RoleModel.levels := [("Admin", RoleModel.Level 3)] |} /\
  (1 <= 3 <= 3)%N.
Proof.
  split; [reflexivity|].
  apply (hierarchy_levels_are_one_to_three
           [{| RoleModel.name := "Admin"; RoleModel.permissions := [] |}]
           {| RoleModel.levels := [("Admin", RoleModel.Level 3)] |} "Admin" 3%N);
    reflexivity.
Defined.

Lemma toLowerCase_proto (k : string) :
  JsString.toLowerCase k = "constructor" -> String.eqb k "__proto__" = false.
Proof.
  intros H. destruct (String.eqb k "__proto__") eqn:E; [|reflexivity].
  apply String.eqb_eq in E. subst k. discriminate.
Qed.

(** X4.  A role whose lowercased name is [constructor] puts an entry in
    the hierarchy whose value is not a number but the member the level
    table inherits under that key. *)
Theorem constructor_role_gets_an_inherited_level :
  forall (rs : list RoleModel.RoleDefinition) (r : RoleModel.RoleDefinition),
    In r rs ->
    JsString.toLowerCase (RoleModel.name r) = "constructor" ->
    exists h,
      RoleModel.extractHierarchy rs = Some h /\
      JsMap.get (RoleModel.name r) (RoleModel.levels h) =
        Some (RoleModel.Inherited "constructor").
Proof.
  intros rs r Hin Hlow.
  destruct (extractHierarchy_some rs r Hin) as [h [Hh [Hg _]]].
  - unfold Spec.addsLevel. rewrite Hlow, (toLowerCase_proto _ Hlow). reflexivity.
  - exists h. split; [exact Hh|]. rewrite Hg, Hlow. reflexivity.
Qed.

Lemma constructor_role_gets_an_inherited_level_witness :
  exists h,
    RoleModel.extractHierarchy
      [{| RoleModel.name := "viewer"; RoleModel.permissions := [] |};
       {| RoleModel.name := "Constructor"; RoleModel.permissions := [] |}] = Some h /\
    JsMap.get "Constructor" (RoleModel.levels h) = Some (RoleModel.Inherited "constructor").
Proof.
  apply (constructor_role_gets_an_inherited_level
           [{| RoleModel.name := "viewer"; RoleModel.permissions := [] |};
            {| RoleModel.name := "Constructor"; RoleModel.permissions := [] |}]
           {| RoleModel.name := "Constructor"; RoleModel.permissions := [] |}).
  - simpl. auto.
  - reflexivity.
Defined.

(** X5.  A text that does not hold the word [role] yields no role,
    whatever else it holds. *)
Theorem no_role_without_the_word_role :
  forall content : string,
    JsString.includes "role" content = false ->
    RoleModel.extractRoles content = [].
Proof.
  intros content H.
  assert (Hm : forall n, RoleModel.mentionsRole content n = false).
  { intros n. unfold RoleModel.mentionsRole.
    change ("role === " ++ JsString.dq ++ n ++ JsString.dq)
      with ("role" ++ (" === " ++ JsString.dq ++ n ++ JsString.dq)).
    change ("role === '" ++ n ++ "'") with ("role" ++ (" === '" ++ n ++ "'")).
    change ("role: " ++ JsString.dq ++ n ++ JsString.dq)
      with ("role" ++ (": " ++ JsString.dq ++ n ++ JsString.dq)).
    change ("role: '" ++ n ++ "'") with ("role" ++ (": '" ++ n ++ "'")).
    now rewrite !(includes_missing_l "role" _ content H). }
  unfold RoleModel.extractRoles, RoleModel.pushUserRoles, RoleModel.pushCommonRoles,
    RoleModel.pushObjectRoles, RoleModel.pushArrayRoles.
  rewrite (jsMatch_requires "role" RoleModel.roleArrayPattern content eq_refl H).
  rewrite (jsMatch_requires "role" RoleModel.roleObjectPattern content eq_refl H).
  rewrite (execAll_requires "role" RoleModel.userRolePattern content eq_refl H).
  cbn [fold_left RoleModel.commonRoles]. now rewrite !Hm.
Qed.

Lemma no_role_without_the_word_role_witness :
  RoleModel.isRoleFile "const Roles = ['admin', 'user']" = true /\
  RoleModel.extractRoles "const Roles = ['admin', 'user']" = [].
Proof.
  split; [reflexivity|].
  apply (no_role_without_the_word_role "const Roles = ['admin', 'user']").
  reflexivity.
Defined.

(* ================================================================== *)
(** ** More on the token strategy *)

Section TokenFacts.
Import TokenStrategy.

Lemma globSync_path (fs : Fs.FileSystem) (pat : Glob.pattern) (repoPath : string)
  (f : Fs.File) :
  In f (Fs.globSync fs pat repoPath) ->
  exists rel, Fs.path f = repoPath ++ "/" ++ rel.
Proof.
  unfold Fs.globSync. destruct (fs repoPath) as [t|]; [|intros []].
  intros H. apply in_map_iff in H. destruct H as [e [<- _]].
  exists (fst e). reflexivity.
Qed.

Lemma relative_path_not_empty (fs : Fs.FileSystem) (pat : Glob.pattern)
  (repoPath : string) (f : Fs.File) :
  In f (Fs.globSync fs pat repoPath) ->
  String.eqb (JsString.removeFirst repoPath (Fs.path f)) "" = false.
Proof.
  intros H. destruct (globSync_path _ _ _ _ H) as [rel ->].
  now rewrite removeFirst_prefix.
Qed.

Lemma length_take (n : nat) (s : string) :
  String.length (JsString.take n s) <= String.length s /\
  String.length (JsString.take n s) <= n.
Proof.
  revert s. induction n as [|n IH]; intros s; [simpl; lia|].
  destruct s as [|c s]; simpl; [lia|]. specialize (IH s). lia.
Qed.

Lemma refresh_in_both_names (content : string) :
  JsString.includes "refresh_token" content || JsString.includes "refreshToken" content =
    true ->
  JsString.includes "refresh" content = true.
Proof.
  intros H. apply orb_true_iff in H. destruct H as [H | H].
  - exact (includes_app_l "refresh" "_token" content H).
  - exact (includes_app_l "refresh" "Token" content H).
Qed.

Lemma refresh_strategy_type (content file repoPath : string) :
  type (extractRefreshStrategy content file repoPath) = "automatic" \/
  type (extractRefreshStrategy content file repoPath) = "manual".
Proof.
  unfold extractRefreshStrategy.
  repeat match goal with
         | |- context [if ?b then _ else _] => destruct b
         end; cbn [type]; auto.
Qed.

(** what one file does to the refresh token and to the refresh strategy *)
Lemma stepFile_refresh (repoPath : string) (st : TokenStrategyResult) (f : Fs.File) :
  if JsString.includes "refresh_token" (Fs.content f) ||
     JsString.includes "refreshToken" (Fs.content f)
  then (exists t, refreshToken (stepFile repoPath st f) = Some t /\
                  lifetime t <> 0%N /\ storage t = "httpOnly" /\ httpOnly t = None) /\
       refreshStrategy (stepFile repoPath st f) =
         extractRefreshStrategy (Fs.content f) (Fs.path f) repoPath
  else refreshToken (stepFile repoPath st f) = refreshToken st /\
       refreshStrategy (stepFile repoPath st f) = refreshStrategy st.
Proof.
  unfold stepFile. cbn [refreshToken refreshStrategy].
  destruct (JsString.includes "refresh_token" (Fs.content f) ||
            JsString.includes "refreshToken" (Fs.content f)) eqn:E; [|auto].
  rewrite (refresh_in_both_names _ E). cbn [andb orb]. split; [|reflexivity].
  eexists. split; [reflexivity|]. cbn [lifetime storage httpOnly].
  split; [|auto].
  destruct (extractTokenLifetime (Fs.content f) refreshTokenNames) as [n|];
    [|discriminate].
  destruct (N.eqb n 0) eqn:En; [discriminate | now apply N.eqb_neq].
Qed.

Lemma refresh_fold (repoPath : string) (files : list Fs.File) :
  forall st : TokenStrategyResult,
    let out := fold_left (stepFile repoPath) files st in
    if existsb (fun f => JsString.includes "refresh_token" (Fs.content f) ||
                         JsString.includes "refreshToken" (Fs.content f)) files
    then (exists t, refreshToken out = Some t /\
                    lifetime t <> 0%N /\ storage t = "httpOnly" /\ httpOnly t = None) /\
         (type (refreshStrategy out) = "automatic" \/
          type (refreshStrategy out) = "manual")
    else refreshToken out = refreshToken st /\ refreshStrategy out = refreshStrategy st.
Proof.
  induction files as [|f files IH]; intros st; cbv zeta; cbn [fold_left existsb]; [auto|].
  specialize (IH (stepFile repoPath st f)). cbv zeta in IH.
  pose proof (stepFile_refresh repoPath st f) as Hs.
  destruct (JsString.includes "refresh_token" (Fs.content f) ||
            JsString.includes "refreshToken" (Fs.content f)); cbn [orb].
  - destruct Hs as [Ht Hr].
    destruct (existsb _ files); [exact IH|].
    destruct IH as [-> ->]. split; [exact Ht|]. rewrite Hr. apply refresh_strategy_type.
  - destruct Hs as [Ht Hr].
    destruct (existsb _ files); [exact IH|].
    destruct IH as [-> ->]. auto.
Qed.

Lemma access_lifetime_fold (repoPath : string) (files : list Fs.File)
  (st : TokenStrategyResult) :
  lifetime (accessToken st) <> 0%N ->
  lifetime (accessToken (fold_left (stepFile repoPath) files st)) <> 0%N.
Proof.
  revert st. induction files as [|f files IH]; intros st H; cbn [fold_left]; [exact H|].
  apply IH. rewrite lifetime_stepFile.
  destruct (extractTokenLifetime (Fs.content f) accessTokenNames) as [n|]; [|exact H].
  destruct (N.eqb n 0) eqn:En; [exact H|]. cbn [List.last]. now apply N.eqb_neq.
Qed.

(** the storage fields of the access token, file by file *)
Lemma stepFile_storage (repoPath : string) (st : TokenStrategyResult) (f : Fs.File) :
  storage (accessToken (stepFile repoPath st f)) =
    (if JsString.includes "httpOnly" (Fs.content f) then "httpOnly"
     else storage (accessToken st)) /\
  httpOnly (accessToken (stepFile repoPath st f)) =
    (if JsString.includes "httpOnly" (Fs.content f) then Some true
     else httpOnly (accessToken st)).
Proof.
  unfold stepFile. cbn [accessToken]. unfold stepFlags, stepLifetime.
  destruct (extractTokenLifetime (Fs.content f) accessTokenNames) as [n|];
    [destruct (truthyNumber (Some n))|];
    destruct (JsString.includes "httpOnly" (Fs.content f));
    destruct (JsString.includes "secure:" (Fs.content f));
    destruct (JsString.includes "sameSite" (Fs.content f));
    try destruct (firstGroup sameSitePattern (Fs.content f));
    cbn [storage httpOnly withLifetime]; auto.
Qed.

Lemma storage_fold (repoPath : string) (files : list Fs.File) :
  forall st : TokenStrategyResult,
    storage (accessToken st) = "httpOnly" ->
    let out := fold_left (stepFile repoPath) files st in
    storage (accessToken out) = "httpOnly" /\
    httpOnly (accessToken out) =
      if existsb (fun f => JsString.includes "httpOnly" (Fs.content f)) files
      then Some true else httpOnly (accessToken st).
Proof.
  induction files as [|f files IH]; intros st H; cbv zeta; cbn [fold_left existsb]; [auto|].
  destruct (stepFile_storage repoPath st f) as [Hs Hh].
  assert (H' : storage (accessToken (stepFile repoPath st f)) = "httpOnly").
  { rewrite Hs. now destruct (JsString.includes "httpOnly" (Fs.content f)). }
  destruct (IH _ H') as [IH1 IH2]. split; [exact IH1|].
  rewrite IH2, Hh.
  destruct (JsString.includes "httpOnly" (Fs.content f)), (existsb _ files); reflexivity.
Qed.

(** the implementation sample, file by file *)
Lemma implementation_fold (repoPath : string) (files : list Fs.File) :
  (forall f, In f files ->
             String.eqb (JsString.removeFirst repoPath (Fs.path f)) "" = false) ->
  forall (st : TokenStrategyResult) (seen : list Fs.File),
    String.eqb (implFilePath (tokenImplementation st)) "" = false ->
    (exists f, In f seen /\
       tokenImplementation st =
         {| implFilePath := JsString.removeFirst repoPath (Fs.path f);
            template := JsString.substring0 1000 (Fs.content f);
            refreshLogic := extractRefreshLogic (Fs.content f) |}) ->
    (forall f, In f seen ->
       String.length (template (tokenImplementation st)) <= String.length (Fs.content f)) ->
    let impl := tokenImplementation (fold_left (stepFile repoPath) files st) in
    (exists f, In f (seen ++ files) /\
       impl = {| implFilePath := JsString.removeFirst repoPath (Fs.path f);
                 template := JsString.substring0 1000 (Fs.content f);
                 refreshLogic := extractRefreshLogic (Fs.content f) |}) /\
    (forall f, In f (seen ++ files) ->
       String.length (template impl) <= String.length (Fs.content f)).
Proof.
  induction files as [|g files IH]; intros Hp st seen Hne Hex Hle; cbv zeta.
  - rewrite app_nil_r. cbn [fold_left]. auto.
  - cbn [fold_left].
    specialize (IH (fun f Hf => Hp f (or_intror Hf)) (stepFile repoPath st g)
                   (seen ++ [g])%list).
    cbv zeta in IH. rewrite <- app_assoc in IH. cbn [app] in IH.
    assert (Himpl :
      tokenImplementation (stepFile repoPath st g) =
      if String.length (Fs.content g) <? String.length (template (tokenImplementation st))
      then {| implFilePath := JsString.removeFirst repoPath (Fs.path g);
              template := JsString.substring0 1000 (Fs.content g);
              refreshLogic := extractRefreshLogic (Fs.content g) |}
      else tokenImplementation st).
    { unfold stepFile. cbn [tokenImplementation]. now rewrite Hne. }
    apply IH; rewrite Himpl;
      destruct (String.length (Fs.content g) <?
                String.length (template (tokenImplementation st))) eqn:E.
    + cbn [implFilePath]. apply Hp. now left.
    + exact Hne.
    + exists g. split; [apply in_or_app; right; now left | reflexivity].
    + destruct Hex as [f [Hf Hst]]. exists f. split; [apply in_or_app; now left | exact Hst].
    + apply Nat.ltb_lt in E. cbn [template]. unfold JsString.substring0.
      pose proof (length_take 1000 (Fs.content g)) as [Ht _].
      intros f Hf. apply in_app_or in Hf. destruct Hf as [Hf | [<- | []]]; [|exact Ht].
      specialize (Hle f Hf). lia.
    + apply Nat.ltb_ge in E.
      intros f Hf. apply in_app_or in Hf. destruct Hf as [Hf | [<- | []]];
        [now apply Hle | exact E].
Qed.

Lemma token_lifetimes_nonzero (fs : Fs.FileSystem) (repoPath : string) :
  lifetime (accessToken (extractTokenStrategy fs repoPath)) <> 0%N /\
  forall t, refreshToken (extractTokenStrategy fs repoPath) = Some t -> lifetime t <> 0%N.
Proof.
  unfold extractTokenStrategy. split.
  - apply access_lifetime_fold. discriminate.
  - pose proof (refresh_fold repoPath (tokenFiles fs repoPath) initial) as H.
    cbv zeta in H.
    destruct (existsb _ (tokenFiles fs repoPath)).
    + destruct H as [[t [Ht [Hl _]]] _]. intros t' Ht'. rewrite Ht in Ht'.
      inversion Ht'. subst t'. exact Hl.
    + destruct H as [-> _]. discriminate.
Qed.

End TokenFacts.

(** X6.  A refresh strategy is reported exactly when a refresh token is:
    when some token file names [refresh_token] or [refreshToken], the
    result has a refresh token and a strategy of type [automatic] or
    [manual]; otherwise it has no refresh token and the strategy type is
    [none]. *)
Theorem refresh_strategy_goes_with_refresh_token :
  forall (fs : Fs.FileSystem) (repoPath : string),
    let out := TokenStrategy.extractTokenStrategy fs repoPath in
    if existsb (fun f => JsString.includes "refresh_token" (Fs.content f) ||
                         JsString.includes "refreshToken" (Fs.content f))
               (TokenStrategy.tokenFiles fs repoPath)
    then (exists t, TokenStrategy.refreshToken out = Some t) /\
         (TokenStrategy.type (TokenStrategy.refreshStrategy out) = "automatic" \/
          TokenStrategy.type (TokenStrategy.refreshStrategy out) = "manual")
    else TokenStrategy.refreshToken out = None /\
         TokenStrategy.type (TokenStrategy.refreshStrategy out) = "none".
Proof.
  intros fs repoPath. cbv zeta. unfold TokenStrategy.extractTokenStrategy.
  pose proof (refresh_fold repoPath (TokenStrategy.tokenFiles fs repoPath)
                TokenStrategy.initial) as H.
  cbv zeta in H.
  destruct (existsb _ (TokenStrategy.tokenFiles fs repoPath)).
  - destruct H as [[t [Ht _]] Hty]. split; [now exists t | exact Hty].
  - destruct H as [-> ->]. split; reflexivity.
Qed.

(** X7.  No token lifetime in the result is zero: an annotation of 0 is
    passed over for the access token and replaced by the default for the
    refresh token. *)
Theorem token_lifetimes_are_never_zero :
  forall (fs : Fs.FileSystem) (repoPath : string),
    let out := TokenStrategy.extractTokenStrategy fs repoPath in
    TokenStrategy.lifetime (TokenStrategy.accessToken out) <> 0%N /\
    forall t, TokenStrategy.refreshToken out = Some t -> TokenStrategy.lifetime t <> 0%N.
Proof. intros fs repoPath. exact (token_lifetimes_nonzero fs repoPath). Qed.

(** X8.  The storage of the access token is always [httpOnly], whether or
    not any file mentions it; the [httpOnly] flag is set exactly when some
    token file holds the word.  A refresh token is always stored [httpOnly]
    with no flag. *)
Theorem token_storage_is_always_httpOnly :
  forall (fs : Fs.FileSystem) (repoPath : string),
    let out := TokenStrategy.extractTokenStrategy fs repoPath in
    TokenStrategy.storage (TokenStrategy.accessToken out) = "httpOnly" /\
    TokenStrategy.httpOnly (TokenStrategy.accessToken out) =
      (if existsb (fun f => JsString.includes "httpOnly" (Fs.content f))
                  (TokenStrategy.tokenFiles fs repoPath)
       then Some true else None) /\
    forall t, TokenStrategy.refreshToken out = Some t ->
              TokenStrategy.storage t = "httpOnly" /\ TokenStrategy.httpOnly t = None.
Proof.
  intros fs repoPath. cbv zeta. unfold TokenStrategy.extractTokenStrategy.
  destruct (storage_fold repoPath (TokenStrategy.tokenFiles fs repoPath)
              TokenStrategy.initial eq_refl) as [Hs Hh].
  split; [exact Hs|]. split; [exact Hh|].
  pose proof (refresh_fold repoPath (TokenStrategy.tokenFiles fs repoPath)
                TokenStrategy.initial) as H.
  cbv zeta in H.
  destruct (existsb _ (TokenStrategy.tokenFiles fs repoPath)) in H.
  - destruct H as [[t [Ht [_ Hst]]] _]. intros t' Ht'. rewrite Ht in Ht'.
    inversion Ht'. subst t'. exact Hst.
  - destruct H as [-> _]. discriminate.
Qed.

(** X9.  The implementation sample of the token strategy is taken from one
    of the token files, cut to 1000 characters, and is no longer than any
    token file: a later file replaces the sample only when the whole file
    is shorter than the sample kept so far.  Without token files the
    sample is empty. *)
Theorem token_sample_is_no_longer_than_any_token_file :
  forall (fs : Fs.FileSystem) (repoPath : string),
    let files := TokenStrategy.tokenFiles fs repoPath in
    let impl :=
      TokenStrategy.tokenImplementation (TokenStrategy.extractTokenStrategy fs repoPath) in
    match files with
    | [] => impl = TokenStrategy.tokenImplementation TokenStrategy.initial
    | _ :: _ =>
        (exists f, In f files /\
           TokenStrategy.implFilePath impl = JsString.removeFirst repoPath (Fs.path f) /\
           TokenStrategy.template impl = JsString.substring0 1000 (Fs.content f) /\
           TokenStrategy.refreshLogic impl =
             TokenStrategy.extractRefreshLogic (Fs.content f)) /\
        String.length (TokenStrategy.template impl) <= 1000 /\
        forall f, In f files ->
          String.length (TokenStrategy.template impl) <= String.length (Fs.content f)
    end.
Proof.
  intros fs repoPath. cbv zeta. unfold TokenStrategy.extractTokenStrategy.
  assert (Hp : forall f, In f (TokenStrategy.tokenFiles fs repoPath) ->
                 String.eqb (JsString.removeFirst repoPath (Fs.path f)) "" = false).
  { intros f Hf. unfold TokenStrategy.tokenFiles in Hf. apply filter_In in Hf.
    destruct Hf as [Hf _]. exact (relative_path_not_empty _ _ _ _ Hf). }
  destruct (TokenStrategy.tokenFiles fs repoPath) as [|f0 files]; [reflexivity|].
  cbn [fold_left].
  assert (H0 : TokenStrategy.tokenImplementation
                 (TokenStrategy.stepFile repoPath TokenStrategy.initial f0) =
               {| TokenStrategy.implFilePath := JsString.removeFirst repoPath (Fs.path f0);
                  TokenStrategy.template := JsString.substring0 1000 (Fs.content f0);
                  TokenStrategy.refreshLogic :=
                    TokenStrategy.extractRefreshLogic (Fs.content f0) |})
    by reflexivity.
  destruct (implementation_fold repoPath files
              (fun f Hf => Hp f (or_intror Hf))
              (TokenStrategy.stepFile repoPath TokenStrategy.initial f0) [f0])
    as [[f [Hin Himpl]] Hle].
  - rewrite H0. cbn [TokenStrategy.implFilePath]. apply Hp. now left.
  - exists f0. split; [now left | exact H0].
  - intros f [<- | []]. rewrite H0. cbn [TokenStrategy.template].
    apply (length_take 1000 (Fs.content f0)).
  - cbn [app] in Hin, Hle. split; [|split].
    + exists f. split; [exact Hin|]. rewrite Himpl. auto.
    + rewrite Himpl. cbn [TokenStrategy.template].
      apply (length_take 1000 (Fs.content f)).
    + exact Hle.
Qed.

(* ================================================================== *)
(** ** More on the session storage and the provider *)

Section SessionFacts.
Import SessionStorage.

(** the strategy found in the NextAuth files is [jwt] or [database], read
    from some of those files *)
Lemma fromNextAuthFiles_some (files : list Fs.File) (repoPath : string)
  (r : SessionStorageResult) :
  fromNextAuthFiles files repoPath = Some r ->
  exists f, In f files /\
    (r = extractJWTStrategy (Fs.content f) (Fs.path f) repoPath \/
     r = extractDatabaseStrategy (Fs.content f) (Fs.path f) repoPath).
Proof.
  induction files as [|f files IH]; cbn [fromNextAuthFiles]; [discriminate|].
  destruct (saysStrategy "jwt" (Fs.content f)).
  { intros H. inversion H. exists f. split; [now left | now left]. }
  destruct (saysStrategy "database" (Fs.content f)).
  { intros H. inversion H. exists f. split; [now left | now right]. }
  intros H. destruct (IH H) as [g [Hg Hr]]. exists g. split; [now right | exact Hr].
Qed.

(** the four shapes a result can have *)
Lemma session_cases (fs : Fs.FileSystem) (repoPath : string) :
  let r := extractSessionStorage fs repoPath in
  (exists content p, r = extractJWTStrategy content p repoPath) \/
  (exists content p, r = extractDatabaseStrategy content p repoPath) \/
  (exists f, r = extractCookieStorage f repoPath) \/
  (exists f, r = extractLocalStorage f repoPath) \/
  r = defaultSession.
Proof.
  cbv zeta. unfold extractSessionStorage.
  destruct (fromNextAuthFiles _ repoPath) as [r|] eqn:E.
  - destruct (fromNextAuthFiles_some _ _ _ E) as [f [_ [-> | ->]]]; eauto 6.
  - destruct (filter _ _) as [|f ?]; [|eauto 6].
    destruct (filter _ _) as [|f ?]; eauto 6.
Qed.

End SessionFacts.

(** X10.  In every result of the session extractor the configuration type
    repeats the strategy, and the strategy is one of [jwt], [database],
    [cookie] and [localStorage] (never [hybrid]).  The storage location is
    [database] or [localStorage] for those two strategies and
    [httpOnly cookie] for the others.  The session lifetime is the
    access-token lifetime itself for [cookie]; for every other result, the
    defaults included, it is 24 times that lifetime, as long as the product
    does not exceed 2^53 and so is computed exactly. *)
Theorem session_result_is_one_of_four_shapes :
  forall (fs : Fs.FileSystem) (repoPath : string),
    let r := SessionStorage.extractSessionStorage fs repoPath in
    let s := SessionStorage.strategy r in
    let l := SessionStorage.lifetime r in
    SessionStorage.type (SessionStorage.configuration r) = s /\
    In s ["jwt"; "database"; "cookie"; "localStorage"] /\
    SessionStorage.storageLocation (SessionStorage.implementation r) =
      (if String.eqb s "database" then "database"
       else if String.eqb s "localStorage" then "localStorage"
       else "httpOnly cookie") /\
    (s = "cookie" -> SessionStorage.session l = SessionStorage.accessToken l) /\
    (s <> "cookie" ->
     (SessionStorage.accessToken l * 24 <= 2 ^ 53)%N ->
     SessionStorage.session l = (SessionStorage.accessToken l * 24)%N).
Proof.
  intros fs repoPath. cbv zeta.
  destruct (session_cases fs repoPath)
    as [[c [p ->]] | [[c [p ->]] | [[f ->] | [[f ->] | ->]]]];
    cbn; repeat split; auto; try discriminate; try congruence.
Qed.

Lemma session_result_is_one_of_four_shapes_witness :
  SessionStorage.strategy (SessionStorage.extractSessionStorage Corpora.jwtRepo "/srv/shop") =
    "jwt" /\
  SessionStorage.session
    (SessionStorage.lifetime
       (SessionStorage.extractSessionStorage Corpora.jwtRepo "/srv/shop")) = 21600%N.
Proof.
  split; [vm_compute; reflexivity|].
  pose proof (session_result_is_one_of_four_shapes Corpora.jwtRepo "/srv/shop") as H.
  cbv zeta in H. destruct H as [_ [_ [_ [_ H]]]].
  rewrite H.
  - vm_compute. reflexivity.
  - vm_compute. discriminate.
  - vm_compute. discriminate.
Defined.

Section CodeBlockFacts.
Import AuthProvider.

(** The scan stops, if it stops, right after a closing brace that brings
    the count of open braces back to zero. *)
Lemma scanBlock_stops (s : string) :
  forall (braceCount : Z) (inBlock : bool) (i : nat),
    scanBlock s braceCount inBlock i = 0 \/
    exists m,
      scanBlock s braceCount inBlock i = i + S m /\
      (braceCount + Z.of_nat (Chars.count "{" (JsString.take (S m) s))
       - Z.of_nat (Chars.count "}" (JsString.take (S m) s)) = 0)%Z /\
      (inBlock = true \/ 1 <= Chars.count "{" (JsString.take (S m) s)) /\
      exists u, JsString.take (S m) s = u ++ "}".
Proof.
  induction s as [|c t IH]; intros bc ib i; [now left|].
  cbn [scanBlock].
  destruct (Ascii.eqb c "{") eqn:Eo.
  - apply Ascii.eqb_eq in Eo. subst c.
    destruct (IH (bc + 1)%Z true (S i)) as [H | [m [H [Hn [_ [u Hu]]]]]]; [now left|].
    right. exists (S m). split; [lia|].
    change (JsString.take (S (S m)) (String "{" t))
      with (String "{" (JsString.take (S m) t)).
    cbn [Chars.count]. cbn [Ascii.eqb Bool.eqb]. split; [lia|]. split; [right; lia|].
    exists (String "{" u). now rewrite Hu.
  - destruct (Ascii.eqb c "}") eqn:Ec.
    + apply Ascii.eqb_eq in Ec. subst c.
      destruct (ib && (bc - 1 =? 0)%Z) eqn:Eb.
      * apply andb_true_iff in Eb. destruct Eb as [Hib Hz]. apply Z.eqb_eq in Hz.
        right. exists 0. split; [lia|].
        change (JsString.take 1 (String "}" t)) with "}".
        cbn. split; [lia|]. split; [now left|]. now exists "".
      * destruct (IH (bc - 1)%Z ib (S i)) as [H | [m [H [Hn [Hi [u Hu]]]]]]; [now left|].
        right. exists (S m). split; [lia|].
        change (JsString.take (S (S m)) (String "}" t))
          with (String "}" (JsString.take (S m) t)).
        cbn [Chars.count]. cbn [Ascii.eqb Bool.eqb]. split; [lia|].
        split; [destruct Hi; [now left | right; lia]|].
        exists (String "}" u). now rewrite Hu.
    + destruct (IH bc ib (S i)) as [H | [m [H [Hn [Hi [u Hu]]]]]]; [now left|].
      right. exists (S m). split; [lia|].
      change (JsString.take (S (S m)) (String c t))
        with (String c (JsString.take (S m) t)).
      cbn [Chars.count]. rewrite Eo, Ec. split; [lia|].
      split; [destruct Hi; [now left | right; lia]|].
      exists (String c u). now rewrite Hu.
Qed.

Lemma indexOf_none (p s : string) :
  indexOf p s = None -> JsString.includes p s = false.
Proof.
  induction s as [|c t IH]; cbn [indexOf]; rewrite includes_unfold_eq.
  - destruct (String.prefix p ""); [discriminate | reflexivity].
  - destruct (String.prefix p (String c t)); [discriminate|].
    destruct (indexOf p t); [discriminate|]. intros _. now apply IH.
Qed.

End CodeBlockFacts.

(** X11.  The block [extractCodeBlock] returns is empty (the text ended
    before the first block was closed) or holds as many opening as closing
    braces, at least one of each, and ends with the closing brace; no
    block is returned only when the text does not hold the start
    pattern. *)
Theorem code_block_is_empty_or_balanced :
  forall content startPattern : string,
    match AuthProvider.extractCodeBlock content startPattern with
    | None => JsString.includes startPattern content = false
    | Some block =>
        block = "" \/
        (Chars.count "{" block = Chars.count "}" block /\
         1 <= Chars.count "{" block /\
         exists body, block = body ++ "}")
    end.
Proof.
  intros content startPattern. unfold AuthProvider.extractCodeBlock.
  destruct (AuthProvider.indexOf startPattern content) as [i|] eqn:E;
    [|now apply indexOf_none].
  destruct (scanBlock_stops (JsString.drop i content) 0%Z false 0)
    as [-> | [m [-> [Hn [Hi Hu]]]]]; [now left|].
  right. cbn [Nat.add]. split; [lia|]. split; [|exact Hu].
  destruct Hi as [Hi | Hi]; [discriminate | exact Hi].
Qed.

(** X12.  The two extractors that read an adapter from a NextAuth file
    disagree when the file names both the MongoDB and the Prisma adapter:
    the provider extractor keeps the last adapter it tests for, the session
    extractor the first. *)
Theorem adapter_precedence_differs_between_extractors :
  forall (f : Fs.File) (repoPath : string),
    JsString.includes "MongoDBAdapter" (Fs.content f) = true ->
    JsString.includes "PrismaAdapter" (Fs.content f) = true ->
    AuthProvider.adapter
      (AuthProvider.configuration (AuthProvider.extractNextAuth f repoPath)) =
      Some "prisma" /\
    SessionStorage.adapter
      (SessionStorage.configuration
         (SessionStorage.extractDatabaseStrategy (Fs.content f) (Fs.path f) repoPath)) =
      Some "mongodb".
Proof.
  intros f repoPath Hm Hp. cbn. now rewrite Hm, Hp.
Qed.

Lemma adapter_precedence_differs_between_extractors_witness :
  let f := {| Fs.path := "/srv/shop/lib/next-auth.ts";
              Fs.content := "adapter: MongoDBAdapter(client), // was PrismaAdapter(db)" |} in
  AuthProvider.adapter
    (AuthProvider.configuration (AuthProvider.extractNextAuth f "/srv/shop")) =
    Some "prisma" /\
  SessionStorage.adapter
    (SessionStorage.configuration
       (SessionStorage.extractDatabaseStrategy (Fs.content f) (Fs.path f) "/srv/shop")) =
    Some "mongodb".
Proof.
  cbv zeta.
  apply (adapter_precedence_differs_between_extractors
           {| Fs.path := "/srv/shop/lib/next-auth.ts";
              Fs.content := "adapter: MongoDBAdapter(client), // was PrismaAdapter(db)" |}
           "/srv/shop"); reflexivity.
Defined.

(* ================================================================== *)
(** ** More on the pipeline *)

Section PipelineFacts.
Import Extractor.

(** what a run that returns a record has put in it *)
Lemma extractAuthSystem_record (fs : Fs.FileSystem) (now repoPath : string)
  (m : AuthMemory) :
  snd (extractAuthSystem fs now repoPath) = inr m ->
  authProvider m = AuthProvider.extractAuthProvider fs repoPath /\
  sessionStorage m = SessionStorage.extractSessionStorage fs repoPath /\
  tokenStrategy m = TokenStrategy.extractTokenStrategy fs repoPath /\
  roleModel m = RoleModel.extractRoleModel fs repoPath /\
  permissionChecks m = PermissionCheckLib.extractPermissionChecks fs repoPath /\
  projectName (metadata m) =
    (if String.eqb (JsString.lastSegment repoPath) "" then "unknown"
     else JsString.lastSegment repoPath) /\
  instructions m =
    {| setup := generateSetupInstructions (authProvider m) (sessionStorage m)
                  (tokenStrategy m);
       usage := generateUsageInstructions (authProvider m) (sessionStorage m)
                  (tokenStrategy m);
       security := generateSecurityInstructions (sessionStorage m) (tokenStrategy m) |}.
Proof.
  unfold extractAuthSystem.
  destruct (Fs.existsSync fs repoPath); cbn [negb]; [|discriminate].
  destruct (detectFramework fs repoPath) as [log [e|fw]]; cbn; [discriminate|].
  intros H. inversion H. cbn. repeat split; reflexivity.
Qed.

Lemma splitAux_app_sep (sep : ascii) (a b : string) (d : string) :
  exists cur rest,
    JsString.splitAux sep (a ++ String sep b) = (cur, rest) /\
    rest <> [] /\
    List.last rest d = List.last (JsString.split sep b) d.
Proof.
  induction a as [|c a IH].
  - cbn [String.append JsString.splitAux]. unfold JsString.split.
    destruct (JsString.splitAux sep b) as [cur rest]. rewrite Ascii.eqb_refl.
    exists "", (cur :: rest). repeat split. discriminate.
  - change (String c a ++ String sep b) with (String c (a ++ String sep b)).
    cbn [JsString.splitAux].
    destruct IH as [cur [rest [-> [Hne Hl]]]].
    destruct (Ascii.eqb c sep).
    + exists "", (cur :: rest). repeat split; [discriminate|].
      destruct rest; [congruence | exact Hl].
    + exists (String c cur), rest. auto.
Qed.

Lemma split_no_sep (sep : ascii) (s : string) :
  Chars.every (Regex.cls_not sep) s = true -> JsString.splitAux sep s = (s, []).
Proof.
  induction s as [|c s IH]; [reflexivity|]. cbn [Chars.every JsString.splitAux].
  intros H. apply andb_true_iff in H. destruct H as [Hc Hs].
  rewrite (IH Hs). unfold Regex.cls_not in Hc. apply negb_true_iff in Hc.
  now rewrite Hc.
Qed.

Lemma lastSegment_app (dir name : string) :
  JsString.includes "/" name = false ->
  JsString.lastSegment (dir ++ "/" ++ name) = name.
Proof.
  intros H. apply every_not_char in H. unfold JsString.lastSegment.
  unfold JsString.split at 1.
  change ("/" ++ name) with (String "/" name).
  destruct (splitAux_app_sep "/" dir name "") as [cur [rest [-> [Hne Hl]]]].
  transitivity (List.last rest "").
  - destruct rest; [congruence | reflexivity].
  - rewrite Hl. unfold JsString.split. now rewrite (split_no_sep _ _ H).
Qed.

End PipelineFacts.

(** X13.  The project name of a record is the last component of the path
    of the working tree, and [unknown] when the path ends with a slash. *)
Theorem project_name_is_last_path_component :
  forall (fs : Fs.FileSystem) (now dir name : string) (m : Extractor.AuthMemory),
    JsString.includes "/" name = false ->
    snd (Extractor.extractAuthSystem fs now (dir ++ "/" ++ name)) = inr m ->
    Extractor.projectName (Extractor.metadata m) =
      if String.eqb name "" then "unknown" else name.
Proof.
  intros fs now dir name m Hname Hm.
  destruct (extractAuthSystem_record _ _ _ _ Hm) as [_ [_ [_ [_ [_ [Hp _]]]]]].
  now rewrite Hp, (lastSegment_app dir name Hname).
Qed.

Section InstructionFacts.
Import Extractor.

Lemma in_setup_six (p : AuthProvider.AuthProviderResult)
  (s : SessionStorage.SessionStorageResult) (t : TokenStrategy.TokenStrategyResult) :
  In "6. Implement refresh token strategy" (generateSetupInstructions p s t) <->
  TokenStrategy.refreshToken t <> None.
Proof.
  unfold generateSetupInstructions. rewrite !in_app_iff. split.
  - intros [H | [H | H]].
    + destruct (String.eqb (AuthProvider.type p) "next-auth"); [|destruct H].
      rewrite in_app_iff in H. destruct H as [H | H].
      * cbn in H. repeat (destruct H as [H | H]; [discriminate|]). destruct H.
      * destruct (AuthProvider.adapter (AuthProvider.configuration p)) as [a|];
          [|destruct H].
        destruct (String.eqb a ""); [destruct H|].
        destruct H as [H | []]. discriminate.
    + destruct (String.eqb (SessionStorage.strategy s) "jwt");
        [|destruct (String.eqb (SessionStorage.strategy s) "database")];
        cbn in H; repeat (destruct H as [H | H]; [discriminate|]); destruct H.
    + destruct (TokenStrategy.refreshToken t); [discriminate | destruct H].
  - intros H. right. right.
    destruct (TokenStrategy.refreshToken t); [now left | congruence].
Qed.

Lemma in_usage_refresh (p : AuthProvider.AuthProviderResult)
  (s : SessionStorage.SessionStorageResult) (t : TokenStrategy.TokenStrategyResult)
  (x : string) :
  In ("Token refresh strategy: " ++ x) (generateUsageInstructions p s t) <->
  TokenStrategy.type (TokenStrategy.refreshStrategy t) <> "none" /\
  x = TokenStrategy.type (TokenStrategy.refreshStrategy t).
Proof.
  unfold generateUsageInstructions. rewrite !in_app_iff. cbv zeta. split.
  - intros [H | [H | H]].
    + destruct (String.eqb (AuthProvider.type p) "next-auth"); cbn in H;
        repeat (destruct H as [H | H]; [discriminate|]); destruct H.
    + destruct (String.eqb (SessionStorage.strategy s) "jwt"); cbn in H;
        repeat (destruct H as [H | H]; [discriminate|]); destruct H.
    + destruct (String.eqb (TokenStrategy.type (TokenStrategy.refreshStrategy t)) "none")
        eqn:E; [destruct H|].
      apply String.eqb_neq in E. destruct H as [H | []].
      split; [exact E|]. cbn in H. now inversion H.
  - intros [Hn ->]. right. right. apply String.eqb_neq in Hn. rewrite Hn. now left.
Qed.

End InstructionFacts.

(** X14.  In a record of the pipeline the setup step on the refresh token
    and the usage line on the refresh strategy come together: the list of
    setup steps holds step 6 exactly when the usage list holds a line on the
    refresh strategy. *)
Theorem refresh_instructions_come_together :
  forall (fs : Fs.FileSystem) (now repoPath : string) (m : Extractor.AuthMemory),
    snd (Extractor.extractAuthSystem fs now repoPath) = inr m ->
    (In "6. Implement refresh token strategy"
        (Extractor.setup (Extractor.instructions m)) <->
     exists t, In ("Token refresh strategy: " ++ t)
                  (Extractor.usage (Extractor.instructions m))).
Proof.
  intros fs now repoPath m Hm.
  destruct (extractAuthSystem_record _ _ _ _ Hm) as [_ [_ [Ht [_ [_ [_ Hi]]]]]].
  rewrite Hi. cbn [Extractor.setup Extractor.usage]. rewrite in_setup_six.
  pose proof (refresh_fold repoPath (TokenStrategy.tokenFiles fs repoPath)
                TokenStrategy.initial) as H.
  cbv zeta in H. fold (TokenStrategy.extractTokenStrategy fs repoPath) in H.
  rewrite <- Ht in H.
  destruct (existsb _ (TokenStrategy.tokenFiles fs repoPath)).
  - destruct H as [[t [Hr _]] Hty]. split.
    + intros _. exists (TokenStrategy.type (TokenStrategy.refreshStrategy
                                             (Extractor.tokenStrategy m))).
      apply in_usage_refresh. split; [|reflexivity].
      destruct Hty as [-> | ->]; discriminate.
    + intros _. rewrite Hr. discriminate.
  - destruct H as [Hr Hs]. split.
    + intros Hn. rewrite Hr in Hn. now contradiction Hn.
    + intros [t Hin]. apply in_usage_refresh in Hin. destruct Hin as [Hn _].
      rewrite Hs in Hn. now contradiction Hn.
Qed.

(** X15.  In a record of the pipeline the security instructions always
    hold the line on the access-token lifetime, in fourth place, and hold a
    line on the refresh-token lifetime exactly when there is a refresh
    token: six entries without one, seven with one. *)
Theorem security_instructions_always_give_the_lifetimes :
  forall (fs : Fs.FileSystem) (now repoPath : string) (m : Extractor.AuthMemory),
    snd (Extractor.extractAuthSystem fs now repoPath) = inr m ->
    let lines := Extractor.security (Extractor.instructions m) in
    (exists line, nth_error lines 3 = Some line /\
                  JsString.startsWith "Access token lifetime: " line = true) /\
    match TokenStrategy.refreshToken (Extractor.tokenStrategy m) with
    | Some _ =>
        List.length lines = 7 /\
        exists line, nth_error lines 4 = Some line /\
                     JsString.startsWith "Refresh token lifetime: " line = true
    | None => List.length lines = 6
    end.
Proof.
  intros fs now repoPath m Hm. cbv zeta.
  destruct (extractAuthSystem_record _ _ _ _ Hm) as [_ [_ [Ht [_ [_ [_ Hi]]]]]].
  rewrite Hi. cbn [Extractor.security]. unfold Extractor.generateSecurityInstructions.
  destruct (token_lifetimes_nonzero fs repoPath) as [Ha Hr]. rewrite <- Ht in Ha, Hr.
  apply N.eqb_neq in Ha. rewrite Ha. cbn [app nth_error]. split.
  - eexists. split; [reflexivity|]. apply prefix_app_self.
  - destruct (TokenStrategy.refreshToken (Extractor.tokenStrategy m)) as [r|] eqn:Er;
      [|reflexivity].
    specialize (Hr r eq_refl). apply N.eqb_neq in Hr. rewrite Hr.
    cbn [app nth_error List.length]. split; [reflexivity|].
    eexists. split; [reflexivity|]. apply prefix_app_self.
Qed.

Lemma project_name_is_last_path_component_witness :
  match snd (Extractor.extractAuthSystem Corpora.tokenRepo "t" "/srv/shop") with
  | inr m => Extractor.projectName (Extractor.metadata m) = "shop"
  | inl _ => False
  end.
Proof.
  destruct (snd (Extractor.extractAuthSystem Corpora.tokenRepo "t" "/srv/shop"))
    as [e|m] eqn:H; [vm_compute in H; discriminate|].
  apply (project_name_is_last_path_component Corpora.tokenRepo "t" "/srv" "shop" m);
    [reflexivity | exact H].
Defined.

Lemma refresh_instructions_come_together_witness :
  match snd (Extractor.extractAuthSystem Corpora.tokenRepo "t" "/srv/shop") with
  | inr m =>
      In "6. Implement refresh token strategy"
         (Extractor.setup (Extractor.instructions m)) /\
      (In "6. Implement refresh token strategy"
          (Extractor.setup (Extractor.instructions m)) <->
       exists t, In ("Token refresh strategy: " ++ t)
                    (Extractor.usage (Extractor.instructions m)))
  | inl _ => False
  end.
Proof.
  destruct (snd (Extractor.extractAuthSystem Corpora.tokenRepo "t" "/srv/shop"))
    as [e|m] eqn:H; [vm_compute in H; discriminate|].
  split.
  - vm_compute in H. injection H as <-. cbn. auto.
  - exact (refresh_instructions_come_together Corpora.tokenRepo "t" "/srv/shop" m H).
Defined.

Lemma security_instructions_always_give_the_lifetimes_witness :
  match snd (Extractor.extractAuthSystem Corpora.tokenRepo "t" "/srv/shop") with
  | inr m =>
      nth_error (Extractor.security (Extractor.instructions m)) 3 =
        Some "Access token lifetime: 3600 seconds" /\
      List.length (Extractor.security (Extractor.instructions m)) = 7
  | inl _ => False
  end.
Proof.
  destruct (snd (Extractor.extractAuthSystem Corpora.tokenRepo "t" "/srv/shop"))
    as [e|m] eqn:H; [vm_compute in H; discriminate|].
  pose proof (security_instructions_always_give_the_lifetimes
                Corpora.tokenRepo "t" "/srv/shop" m H) as Hs.
  cbv zeta in Hs. destruct Hs as [_ Hs].
  vm_compute in H. injection H as <-. split; [reflexivity|].
  cbn in Hs. tauto.
Defined.

(* ================================================================== *)
(** ** More on the permission checks *)

Section CollectFacts.
Import Guards.

Lemma collect_total {A B : Type} (g : A -> B) (xs : list A) :
  collect (fun x => Some (g x)) xs = map g xs.
Proof. induction xs as [|x xs IH]; [reflexivity|]. cbn. now rewrite <- IH. Qed.

Lemma collect_app {A B : Type} (f : A -> option B) (xs ys : list A) :
  collect f (xs ++ ys) = (collect f xs ++ collect f ys)%list.
Proof. unfold collect. apply flat_map_app. Qed.

Lemma collect_length {A B : Type} (f : A -> option B) (xs : list A) :
  List.length (collect f xs) <= List.length xs.
Proof.
  induction xs as [|x xs IH]; [simpl; lia|]. cbn.
  destruct (f x); cbn; unfold collect in IH; lia.
Qed.

Lemma collect_In {A B : Type} (f : A -> option B) (xs : list A) (y : B) :
  In y (collect f xs) -> exists x, In x xs /\ f x = Some y.
Proof.
  unfold collect. rewrite in_flat_map. intros [x [Hx Hy]]. exists x. split; [exact Hx|].
  destruct (f x); [|destruct Hy]. destruct Hy as [<- | []]. reflexivity.
Qed.

Lemma globSync_filter (fs : Fs.FileSystem) (pat : Glob.pattern) (repoPath : string)
  (f : Fs.File) :
  In f (Fs.globSync fs pat repoPath) <->
  exists t e, fs repoPath = Some t /\ In e (Fs.files t) /\
              Glob.matches pat (fst e) = true /\
              f = {| Fs.path := Fs.absolute repoPath (fst e); Fs.content := snd e |}.
Proof.
  unfold Fs.globSync. destruct (fs repoPath) as [t|].
  - rewrite in_map_iff. split.
    + intros [e [<- He]]. apply filter_In in He. destruct He as [He Hm].
      exists t, e. auto.
    + intros [t' [e [Ht [He [Hm ->]]]]]. inversion Ht. subst t'.
      exists e. split; [reflexivity|]. apply filter_In. auto.
  - split; [intros [] | intros [t [e [Ht _]]]; discriminate].
Qed.

End CollectFacts.

Section MiddlewareFacts.
Import Guards.

Lemma anyTail_mono (f g : list string -> bool) (names : list string) :
  (forall ns, f ns = true -> g ns = true) ->
  Glob.anyTail f names = true -> Glob.anyTail g names = true.
Proof.
  intros Hfg. induction names as [|n ns IH]; cbn [Glob.anyTail].
  - rewrite !orb_false_r. apply Hfg.
  - intros H. apply orb_true_iff in H. apply orb_true_iff. destruct H as [H | H].
    + left. now apply Hfg.
    + right. apply andb_true_iff in H. destruct H as [Hd Ht].
      rewrite Hd. cbn. now apply IH.
Qed.

(** a name the exact pattern accepts is accepted by the wider one *)
Lemma middleware_segment (n : string) :
  Glob.matchSegment [Glob.ALit "middleware."; Glob.ts_tsx_js] n = true ->
  Glob.matchSegment
    [Glob.AStar; Glob.ALit "middleware"; Glob.AStar; Glob.ALit "."; Glob.ts_tsx_js] n = true.
Proof.
  unfold Glob.matchSegment. intros H. apply andb_true_iff in H. destruct H as [_ H].
  cbn [Glob.matchAtoms] in H.
  destruct (Regex.stripPrefix "middleware." n) as [r|] eqn:E; [|discriminate].
  apply stripPrefix_inv in E. subst n.
  apply andb_true_iff. split; [reflexivity|].
  cbn [Glob.matchAtoms]. cbn [String.append Glob.anySuffix].
  apply orb_true_iff. left. cbn [Glob.matchAtoms Regex.stripPrefix Ascii.eqb Bool.eqb].
  cbn [Glob.anySuffix]. apply orb_true_iff. left.
  cbn [Glob.matchAtoms Regex.stripPrefix Ascii.eqb Bool.eqb]. exact H.
Qed.

Lemma middleware_exact_is_any (rel : string) :
  Glob.matches pat_middlewareExact rel = true ->
  Glob.matches pat_middlewareAny rel = true.
Proof.
  unfold Glob.matches, pat_middlewareExact, pat_middlewareAny. cbn [Glob.matchSegs].
  apply anyTail_mono. intros [|n ns]; [discriminate|].
  intros H. apply andb_true_iff in H. destruct H as [H1 H2].
  now rewrite (middleware_segment n H1), H2.
Qed.

Lemma middleware_file_listed_twice (fs : Fs.FileSystem) (repoPath : string) (f : Fs.File) :
  In f (Fs.globSync fs pat_middlewareExact repoPath) ->
  exists l1 l2 l3,
    PermissionCheck.middlewareFiles fs repoPath = (l1 ++ f :: l2 ++ f :: l3)%list.
Proof.
  intros H.
  assert (H' : In f (Fs.globSync fs pat_middlewareAny repoPath)).
  { apply globSync_filter in H. destruct H as [t [e [Ht [He [Hm ->]]]]].
    apply globSync_filter. exists t, e. repeat split; auto.
    now apply middleware_exact_is_any. }
  apply in_split in H. destruct H as [a [b Hab]].
  apply in_split in H'. destruct H' as [c [d Hcd]].
  exists c, (d ++ a)%list, b. unfold PermissionCheck.middlewareFiles.
  rewrite Hab, Hcd. rewrite <- (app_assoc c (f :: d) (a ++ f :: b)). cbn [app].
  now rewrite <- (app_assoc d a (f :: b)).
Qed.

Lemma middleware_pattern_listed_twice (fs : Fs.FileSystem) (repoPath : string)
  (f : Fs.File) (m : MiddlewarePattern) :
  In f (Fs.globSync fs pat_middlewareExact repoPath) ->
  extractMiddlewarePattern (Fs.content f) (Fs.path f) repoPath = Some m ->
  exists l1 l2 l3,
    collect (fun g => extractMiddlewarePattern (Fs.content g) (Fs.path g) repoPath)
            (PermissionCheck.middlewareFiles fs repoPath) =
    (l1 ++ m :: l2 ++ m :: l3)%list.
Proof.
  intros Hin Hm. destruct (middleware_file_listed_twice _ _ _ Hin) as [a [b [c ->]]].
  rewrite collect_app. cbn [collect flat_map]. fold (@collect Fs.File MiddlewarePattern).
  rewrite Hm.
  change (flat_map _ (b ++ f :: c)) with
    (collect (fun g => extractMiddlewarePattern (Fs.content g) (Fs.path g) repoPath)
             (b ++ f :: c)).
  rewrite collect_app. cbn [collect flat_map]. rewrite Hm. cbn [app].
  eexists. eexists. eexists. reflexivity.
Qed.

End MiddlewareFacts.

(** X16.  A file named [middleware.ts] (or [.tsx], [.js]) is enumerated by
    both middleware patterns, and the two enumerations are concatenated:
    when it holds a middleware function, its pattern stands twice in the
    middleware list, in the extended detector and in the copy the pipeline
    calls. *)
Theorem middleware_file_is_reported_twice :
  forall (fs : Fs.FileSystem) (repoPath : string) (f : Fs.File)
         (m : Guards.MiddlewarePattern),
    In f (Fs.globSync fs Guards.pat_middlewareExact repoPath) ->
    Guards.extractMiddlewarePattern (Fs.content f) (Fs.path f) repoPath = Some m ->
    (exists l1 l2 l3,
        Guards.middleware (PermissionCheck.extractPermissionChecks fs repoPath) =
        (l1 ++ m :: l2 ++ m :: l3)%list) /\
    (exists l1 l2 l3,
        Guards.middleware (PermissionCheckLib.extractPermissionChecks fs repoPath) =
        (l1 ++ m :: l2 ++ m :: l3)%list).
Proof.
  intros fs repoPath f m Hin Hm. split;
    exact (middleware_pattern_listed_twice fs repoPath f m Hin Hm).
Qed.

Lemma middleware_file_is_reported_twice_witness :
  exists m l1 l2 l3,
    Guards.extractMiddlewarePattern Corpora.middlewareText "/srv/shop/middleware.ts"
      "/srv/shop" = Some m /\
    Guards.middleware
      (PermissionCheckLib.extractPermissionChecks Corpora.middlewareRepo "/srv/shop") =
    (l1 ++ m :: l2 ++ m :: l3)%list.
Proof.
  destruct (middleware_file_is_reported_twice Corpora.middlewareRepo "/srv/shop"
              {| Fs.path := "/srv/shop/middleware.ts";
                 Fs.content := Corpora.middlewareText |}
              {| Guards.name := "middleware"; Guards.type := "global";
                 Guards.filePath := "/middleware.ts";
                 Guards.template := "return verifyToken(req)";
                 Guards.location := "middleware.ts";
                 Guards.checks := ["token"] |})
    as [_ [l1 [l2 [l3 H]]]].
  - vm_compute. left. reflexivity.
  - vm_compute. reflexivity.
  - eexists. exists l1, l2, l3. split; [vm_compute; reflexivity | exact H].
Defined.

Section GuardPairFacts.
Import Guards.

Lemma lib_routes_of_guards (repoPath : string) (files : list Fs.File) :
  map (fun r => (path r, protection r))
      (collect (fun f => PermissionCheckLib.extractProtectedRoute
                           (Fs.content f) (Fs.path f) repoPath) files) =
  map (fun g => (endpoint g, guardProtection g))
      (collect (fun f => PermissionCheckLib.extractAPIGuard
                           (Fs.content f) (Fs.path f) repoPath) files).
Proof.
  unfold PermissionCheckLib.extractProtectedRoute, PermissionCheckLib.extractAPIGuard.
  rewrite !collect_total, !map_map. reflexivity.
Qed.

Lemma ext_routes_of_guards (repoPath : string) (files : list Fs.File) :
  map (fun r => (path r, protection r))
      (collect (fun f => PermissionCheck.extractProtectedRoute
                           (Fs.content f) (Fs.path f) repoPath) files) =
  map (fun g => (endpoint g, guardProtection g))
      (collect (fun f => PermissionCheck.extractAPIGuard
                           (Fs.content f) (Fs.path f) repoPath) files).
Proof.
  unfold PermissionCheck.extractProtectedRoute, PermissionCheck.extractAPIGuard.
  rewrite !collect_total, !map_map. reflexivity.
Qed.

Lemma lib_guard_is_route (fs : Fs.FileSystem) (repoPath : string) (g : APIGuard) :
  In g (apiGuards (PermissionCheckLib.extractPermissionChecks fs repoPath)) ->
  exists r, In r (protectedRoutes (PermissionCheckLib.extractPermissionChecks fs repoPath)) /\
            path r = endpoint g /\ protection r = guardProtection g.
Proof.
  unfold PermissionCheckLib.extractPermissionChecks. cbn [apiGuards protectedRoutes].
  intros H.
  apply (in_map (fun g => (endpoint g, guardProtection g))) in H.
  rewrite <- lib_routes_of_guards in H. apply in_map_iff in H.
  destruct H as [r [Hr Hin]]. exists r. inversion Hr. auto.
Qed.

End GuardPairFacts.

(** X17.  API guards and protected routes are made in pairs: in the copy
    the pipeline calls, the protected routes are, in order, the endpoints
    and protections of the API guards; in the extended detector they are
    those followed by at most ten page routes. *)
Theorem api_guards_and_protected_routes_go_in_pairs :
  forall (fs : Fs.FileSystem) (repoPath : string),
    let summary r := (Guards.path r, Guards.protection r) in
    let guardSummary g := (Guards.endpoint g, Guards.guardProtection g) in
    map summary (Guards.protectedRoutes
                   (PermissionCheckLib.extractPermissionChecks fs repoPath)) =
    map guardSummary (Guards.apiGuards
                        (PermissionCheckLib.extractPermissionChecks fs repoPath)) /\
    exists fromApi pages,
      Guards.protectedRoutes (PermissionCheck.extractPermissionChecks fs repoPath) =
        (fromApi ++ pages)%list /\
      List.length pages <= 10 /\
      map summary fromApi =
      map guardSummary (Guards.apiGuards
                          (PermissionCheck.extractPermissionChecks fs repoPath)).
Proof.
  intros fs repoPath. cbv zeta. split.
  - apply lib_routes_of_guards.
  - unfold PermissionCheck.extractPermissionChecks.
    cbn [Guards.protectedRoutes Guards.apiGuards].
    eexists. eexists. split; [reflexivity|]. split; [|apply ext_routes_of_guards].
    etransitivity; [apply collect_length|]. apply firstn_le_length.
Qed.

(** X18.  In a record of the pipeline every endpoint of an API guard is a
    protected route for the lookup helper of the generated artifact. *)
Theorem guarded_endpoints_are_protected_routes :
  forall (fs : Fs.FileSystem) (now repoPath : string) (m : Extractor.AuthMemory),
    snd (Extractor.extractAuthSystem fs now repoPath) = inr m ->
    Forall (fun g => Generator.isProtectedRoute m (Guards.endpoint g) = true)
           (Guards.apiGuards (Extractor.permissionChecks m)).
Proof.
  intros fs now repoPath m Hm. apply Forall_forall. intros g Hg.
  destruct (extractAuthSystem_record _ _ _ _ Hm) as [_ [_ [_ [_ [Hp _]]]]].
  unfold Generator.isProtectedRoute, Generator.routesOf. rewrite Hp in Hg |- *.
  destruct (lib_guard_is_route _ _ _ Hg) as [r [Hr [Hpath _]]].
  apply existsb_exists. exists r. split; [exact Hr|]. now apply String.eqb_eq.
Qed.

Lemma guarded_endpoints_are_protected_routes_witness :
  match snd (Extractor.extractAuthSystem Corpora.routesRepo "t" "/srv/shop") with
  | inr m =>
      map Guards.endpoint (Guards.apiGuards (Extractor.permissionChecks m)) =
        ["/api/users"; "/pages/api/login.ts"] /\
      Forall (fun g => Generator.isProtectedRoute m (Guards.endpoint g) = true)
             (Guards.apiGuards (Extractor.permissionChecks m))
  | inl _ => False
  end.
Proof.
  destruct (snd (Extractor.extractAuthSystem Corpora.routesRepo "t" "/srv/shop"))
    as [e|m] eqn:H; [vm_compute in H; discriminate|].
  split.
  - destruct (extractAuthSystem_record _ _ _ _ H) as [_ [_ [_ [_ [Hp _]]]]].
    rewrite Hp. vm_compute. reflexivity.
  - exact (guarded_endpoints_are_protected_routes Corpora.routesRepo "t" "/srv/shop" m H).
Defined.

Section BoundFacts.
Import Guards.

Lemma nonEmpty_firstn_map {A B : Type} (g : A -> B) (n : nat) (xs : list A) :
  0 < n ->
  match nonEmpty (map g (firstn n xs)) with
  | Some ys => ys <> [] /\ List.length ys = Nat.min n (List.length xs)
  | None => xs = []
  end.
Proof.
  intros Hn. pose proof (length_firstn n xs) as Hl.
  destruct n as [|n]; [lia|]. destruct xs as [|x xs]; [reflexivity|].
  cbn [firstn map nonEmpty]. split; [discriminate|].
  change (x :: firstn n xs) with (firstn (S n) (x :: xs)) in *.
  change (g x :: map g (firstn n xs)) with (map g (firstn (S n) (x :: xs))).
  now rewrite length_map.
Qed.

End BoundFacts.

(** X19.  Component guards are absent (not an empty list) exactly when no
    component file passes the filter, and otherwise there is one for each
    of the first ten such files in the copy the pipeline calls, and for
    each of the first twenty in the extended detector. *)
Theorem component_guards_are_absent_or_bounded :
  forall (fs : Fs.FileSystem) (repoPath : string),
    match Guards.componentGuards
            (PermissionCheckLib.extractPermissionChecks fs repoPath) with
    | Some gs =>
        gs <> [] /\
        List.length gs = Nat.min 10 (List.length (PermissionCheckLib.componentFiles fs repoPath))
    | None => PermissionCheckLib.componentFiles fs repoPath = []
    end /\
    match Guards.componentGuards
            (PermissionCheck.extractPermissionChecks fs repoPath) with
    | Some gs =>
        gs <> [] /\
        List.length gs = Nat.min 20 (List.length (PermissionCheck.componentFiles fs repoPath))
    | None => PermissionCheck.componentFiles fs repoPath = []
    end.
Proof.
  intros fs repoPath. split.
  - unfold PermissionCheckLib.extractPermissionChecks. cbn [Guards.componentGuards].
    unfold PermissionCheckLib.extractComponentGuard. rewrite collect_total.
    apply nonEmpty_firstn_map. lia.
  - unfold PermissionCheck.extractPermissionChecks. cbn [Guards.componentGuards].
    unfold PermissionCheck.extractComponentGuard. rewrite collect_total.
    apply nonEmpty_firstn_map. lia.
Qed.

Section RouteFieldFacts.
Import Guards.

Lemma route_fields_exclusive (r : ProtectedRoute) (content p repoPath : string) :
  PermissionCheckLib.extractProtectedRoute content p repoPath = Some r \/
  PermissionCheck.extractProtectedRoute content p repoPath = Some r \/
  PermissionCheck.extractPageRouteProtection content p repoPath = Some r ->
  (requiredRole r <> None -> protection r = "role" /\ requiredPermission r = None) /\
  (requiredPermission r <> None -> protection r = "permission" /\ requiredRole r = None).
Proof.
  unfold PermissionCheckLib.extractProtectedRoute, PermissionCheck.extractProtectedRoute,
    PermissionCheck.extractPageRouteProtection,
    PermissionCheckLib.classify, PermissionCheck.classify.
  intros [H | [H | H]]; inversion H; clear H; cbn [requiredRole requiredPermission protection].
  - destruct (PermissionCheckLib.isRoleSignal content);
      [|destruct (PermissionCheckLib.isPermissionSignal content)];
      split; intros H; try congruence; auto.
  - destruct (PermissionCheck.isRoleSignal content);
      [|destruct (PermissionCheck.isPermissionSignal content)];
      split; intros H; try congruence; auto.
  - cbv zeta.
    destruct (PermissionCheck.clientAuthSignal content);
      [|destruct (JsString.includes "role" content);
        [|destruct (JsString.includes "permission" content)]];
      split; intros H; try congruence; auto.
Qed.

End RouteFieldFacts.

(** X20.  No protected route carries both a required role and a required
    permission: a required role goes with the protection [role] only, a
    required permission with the protection [permission] only, in both
    detectors. *)
Theorem required_role_and_permission_exclude_each_other :
  forall (fs : Fs.FileSystem) (repoPath : string),
    let exclusive r :=
      (Guards.requiredRole r <> None ->
       Guards.protection r = "role" /\ Guards.requiredPermission r = None) /\
      (Guards.requiredPermission r <> None ->
       Guards.protection r = "permission" /\ Guards.requiredRole r = None) in
    Forall exclusive
      (Guards.protectedRoutes (PermissionCheckLib.extractPermissionChecks fs repoPath)) /\
    Forall exclusive
      (Guards.protectedRoutes (PermissionCheck.extractPermissionChecks fs repoPath)).
Proof.
  intros fs repoPath. cbv zeta. split; apply Forall_forall; intros r H.
  - unfold PermissionCheckLib.extractPermissionChecks in H. cbn [Guards.protectedRoutes] in H.
    apply collect_In in H. destruct H as [f [_ Hf]].
    apply (route_fields_exclusive r (Fs.content f) (Fs.path f) repoPath). auto.
  - unfold PermissionCheck.extractPermissionChecks in H. cbn [Guards.protectedRoutes] in H.
    apply in_app_or in H. destruct H as [H | H];
      apply collect_In in H; destruct H as [f [_ Hf]];
      apply (route_fields_exclusive r (Fs.content f) (Fs.path f) repoPath); auto.
Qed.

Section ApiFileFacts.
Import Guards.


End ApiFileFacts.



(** X22.  The handler accepts a repository URL exactly when it is
    [https://github.com/], an owner, a slash and a repository name, each a
    non-empty run of letters, digits, [_], [-] and [.]; the two names are
    then the owner and the repository it goes on with. *)
Theorem repository_url_is_accepted_iff_well_formed :
  forall url owner repo : string,
    Handler.parseRepoUrl url = Some (owner, repo) <->
    url = "https://github.com/" ++ owner ++ "/" ++ repo /\
    owner <> "" /\ repo <> "" /\
    Chars.every Handler.cls_name owner = true /\
    Chars.every Handler.cls_name repo = true.
Proof.
  intros url owner repo. split.
  - intros H. unfold Handler.parseRepoUrl in H.
    destruct (Regex.jsMatch Handler.githubRegex url) as [m|] eqn:E; [|discriminate].
    destruct (github_match_inv url m E) as [o [r [Hu [Ho [Hr [Hco Hcr]]]]]].
    pose proof (parse_well_formed o r Ho Hr Hco Hcr) as Hp.
    rewrite <- Hu in Hp. unfold Handler.parseRepoUrl in Hp. rewrite E in Hp.
    rewrite Hp in H. inversion H. subst o r. auto.
  - intros [-> [Ho [Hr [Hco Hcr]]]]. now apply parse_well_formed.
Qed.

(** X23.  The suffix [.git] of a repository URL is never taken off: the
    repository name the handler goes on with still ends in [.git], so the
    archive URLs of the fallback are built under that name. *)
Theorem dot_git_suffix_stays_in_the_repository_name :
  forall owner name branch : string,
    owner <> "" ->
    Chars.every Handler.cls_name owner = true ->
    Chars.every Handler.cls_name name = true ->
    Handler.parseRepoUrl ("https://github.com/" ++ owner ++ "/" ++ name ++ ".git") =
      Some (owner, name ++ ".git") /\
    hd_error (Acquisition.urlFormats owner (name ++ ".git") branch) =
      Some ("https://github.com/" ++ owner ++ "/" ++ name ++ ".git/archive/" ++
            branch ++ ".zip").
Proof.
  intros owner name branch Ho Hco Hcn. split.
  - apply parse_well_formed; [exact Ho | | exact Hco |].
    + destruct name; discriminate.
    + rewrite every_app, Hcn. reflexivity.
  - cbn [Acquisition.urlFormats hd_error]. now rewrite !string_app_assoc_eq.
Qed.

Lemma dot_git_suffix_stays_in_the_repository_name_witness :
  Handler.parseRepoUrl "https://github.com/vercel/next.js.git" =
    Some ("vercel", "next.js.git") /\
  hd_error (Acquisition.urlFormats "vercel" "next.js.git" "canary") =
    Some "https://github.com/vercel/next.js.git/archive/canary.zip".
Proof.
  apply (dot_git_suffix_stays_in_the_repository_name "vercel" "next.js" "canary");
    [discriminate | reflexivity | reflexivity].
Defined.

(** X24.  An accepted repository URL is made of letters, digits and the
    characters [_], [-], [.], [/] and [:] only, so the text the handler
    puts on the command line of [git clone] holds no space, no quote and
    no other character. *)
Theorem accepted_url_has_plain_characters_only :
  forall url owner repo : string,
    Handler.parseRepoUrl url = Some (owner, repo) ->
    Chars.every (fun c => Handler.cls_name c || Ascii.eqb c "/" || Ascii.eqb c ":") url =
      true.
Proof.
  intros url owner repo H.
  unfold Handler.parseRepoUrl in H.
  destruct (Regex.jsMatch Handler.githubRegex url) as [m|] eqn:E; [|discriminate].
  destruct (github_match_inv url m E) as [o [r [-> [_ [_ [Hco Hcr]]]]]].
  assert (Hw : forall s, Chars.every Handler.cls_name s = true ->
                 Chars.every (fun c => Handler.cls_name c || Ascii.eqb c "/" ||
                                       Ascii.eqb c ":") s = true).
  { induction s as [|c s IH]; simpl; [reflexivity|].
    intros Hs. apply andb_true_iff in Hs. destruct Hs as [Hc Hs].
    rewrite Hc. simpl. now apply IH. }
  rewrite !every_app. rewrite (Hw o Hco), (Hw r Hcr). reflexivity.
Qed.

Lemma accepted_url_has_plain_characters_only_witness :
  Handler.parseRepoUrl "https://github.com/vercel/next.js" = Some ("vercel", "next.js") /\
  Chars.every (fun c => Handler.cls_name c || Ascii.eqb c "/" || Ascii.eqb c ":")
              "https://github.com/vercel/next.js" = true.
Proof.
  split; [vm_compute; reflexivity|].
  apply (accepted_url_has_plain_characters_only
           "https://github.com/vercel/next.js" "vercel" "next.js").
  vm_compute. reflexivity.
Defined.

(** X25.  For a route file [api/SEGMENT/route...] whose path holds no
    earlier [api/] and no slash after [/route], both detectors give the
    endpoint [/api/SEGMENT], whatever the root of the tree is. *)
Theorem route_file_endpoint_is_its_segment :
  forall pre seg post repoPath : string,
    JsString.includes "api/" (pre ++ "api") = false ->
    seg <> "" ->
    JsString.includes "/" seg = false ->
    JsString.includes "/" post = false ->
    PermissionCheckLib.routeEndpoint (pre ++ "api/" ++ seg ++ "/route" ++ post) repoPath =
      "/api/" ++ seg /\
    PermissionCheck.routeEndpoint (pre ++ "api/" ++ seg ++ "/route" ++ post) repoPath =
      "/api/" ++ seg.
Proof.
  intros pre seg post repoPath Hpre Hne Hseg Hpost.
  destruct (route_endpoints pre seg post repoPath Hpre Hne Hseg) as [H1 H2].
  split; [exact H1 | exact (H2 Hpost)].
Qed.

Lemma route_file_endpoint_is_its_segment_witness :
  PermissionCheckLib.routeEndpoint "/srv/shop/src/app/api/users/route.ts" "/srv/shop" =
    "/api/users" /\
  PermissionCheck.routeEndpoint "/srv/shop/src/app/api/users/route.ts" "/srv/shop" =
    "/api/users".
Proof.
  apply (route_file_endpoint_is_its_segment "/srv/shop/src/app/" "users" ".ts" "/srv/shop");
    [reflexivity | discriminate | reflexivity | reflexivity].
Defined.

Section LazyClassFacts.
Import Regex Guards.

Lemma lazy_class_nil (p : ascii -> bool) (pos : nat) (caps : Caps) (k : Cont) :
  rmatch (RLazy (RChar p)) pos "" caps k = k pos "" caps.
Proof. reflexivity. Qed.

Lemma lazy_class_cons (p : ascii -> bool) (c : ascii) (t : string) (pos : nat)
  (caps : Caps) (k : Cont) :
  rmatch (RLazy (RChar p)) pos (String c t) caps k =
  match k pos (String c t) caps with
  | Some x => Some x
  | None => if p c then rmatch (RLazy (RChar p)) (S pos) t caps k else None
  end.
Proof.
  cbn [rmatch String.length lazyLoop].
  destruct (k pos (String c t) caps); [reflexivity|].
  destruct (p c); [|reflexivity].
  assert (E : (S pos =? pos) = false) by (apply Nat.eqb_neq; lia).
  now rewrite E.
Qed.

(** a lazy repetition of a class runs to the end of the text when the
    rest matches nowhere before *)
Lemma lazy_class_to_end (p : ascii -> bool) (k : Cont) :
  forall s pos caps x,
    Chars.every p s = true ->
    (forall w r, s = w ++ r -> r <> "" -> k (pos + String.length w) r caps = None) ->
    k (pos + String.length s) "" caps = Some x ->
    rmatch (RLazy (RChar p)) pos s caps k = Some x.
Proof.
  induction s as [|c t IH]; intros pos caps x Hp Hk Hend.
  - rewrite lazy_class_nil. simpl in Hend. now rewrite Nat.add_0_r in Hend.
  - rewrite lazy_class_cons.
    assert (H0 : k pos (String c t) caps = None).
    { specialize (Hk "" (String c t) eq_refl). simpl in Hk. rewrite Nat.add_0_r in Hk.
      apply Hk. discriminate. }
    rewrite H0. simpl in Hp. apply andb_true_iff in Hp. destruct Hp as [Hc Ht].
    rewrite Hc. apply IH; [exact Ht | |].
    + intros w r Hs Hr. specialize (Hk (String c w) r). simpl in Hk.
      rewrite Nat.add_succ_r in Hk. apply Hk; [now rewrite Hs | exact Hr].
    + simpl in Hend. now rewrite Nat.add_succ_r in Hend.
Qed.

Lemma no_literal_in_suffix (lit w r : string) :
  JsString.includes lit (w ++ r) = false -> stripPrefix lit r = None.
Proof.
  intros H. destruct (stripPrefix lit r) as [r'|] eqn:E; [|reflexivity].
  apply stripPrefix_prefix, includes_of_prefix in E.
  now rewrite (includes_app_pre lit w r E) in H.
Qed.

(** the path group of the second pattern of the extended detector, on a
    path without [/route] *)
Lemma nested_group_to_end (rest : string) :
  rest <> "" ->
  Chars.every cls_dot rest = true ->
  JsString.includes "/route" rest = false ->
  firstGroup PermissionCheck.nestedPathPattern ("api/" ++ rest) = Some rest.
Proof.
  intros Hne Hdot Hroute. destruct rest as [|a t]; [congruence|].
  simpl in Hdot. apply andb_true_iff in Hdot. destruct Hdot as [Ha Ht].
  eapply firstGroup_here with (a := 4) (b := 4 + String.length (String a t)).
  - unfold PermissionCheck.nestedPathPattern. cbn [RCat].
    rewrite rmatch_seq, rmatch_str_app, rmatch_seq.
    change (rmatch (RGroup 1 (RLazyPlus (RChar cls_dot))) (0 + String.length "api/")
              (String a t) [] ?K)
      with (if cls_dot a
            then rmatch (RLazy (RChar cls_dot)) 5 t []
                   (fun pos' s' caps' => K pos' s' ((1, (4, pos')) :: caps'))
            else None).
    rewrite Ha. apply lazy_class_to_end; [exact Ht | |].
    + intros w r Hs Hr. cbn [rmatch].
      rewrite (no_literal_in_suffix "/route" (String a w) r)
        by (simpl; rewrite <- Hs; exact Hroute).
      destruct r; [congruence | reflexivity].
    + cbn [rmatch stripPrefix]. reflexivity.
  - reflexivity.
  - apply (span_text_at _ "api/" (String a t) ""); [|reflexivity|reflexivity].
    now rewrite string_app_nil_r.
Qed.

End LazyClassFacts.

(** X26.  For a file below [api/] whose path does not hold [/route], the
    extended detector gives as endpoint [/api/] followed by all that comes
    after the first [api/], file name and extension included, while the copy
    the pipeline calls gives the path of the file relative to the tree. *)
Theorem api_file_without_route_keeps_its_file_name :
  forall pre rest repoPath : string,
    JsString.includes "api/" (pre ++ "api") = false ->
    rest <> "" ->
    Chars.every Regex.cls_dot rest = true ->
    JsString.includes "/route" (pre ++ "api/" ++ rest) = false ->
    JsString.startsWith "/api/" (JsString.removeFirst repoPath (pre ++ "api/" ++ rest)) =
      false ->
    PermissionCheck.routeEndpoint (pre ++ "api/" ++ rest) repoPath = "/api/" ++ rest /\
    PermissionCheckLib.routeEndpoint (pre ++ "api/" ++ rest) repoPath =
      JsString.removeFirst repoPath (pre ++ "api/" ++ rest).
Proof.
  intros pre rest repoPath Hpre Hne Hdot Hroute Hstart.
  assert (Hr : JsString.includes "/route" rest = false).
  { destruct (JsString.includes "/route" rest) eqn:E; [|reflexivity].
    rewrite (includes_app_pre "/route" pre _ (includes_app_pre "/route" "api/" rest E))
      in Hroute. discriminate. }
  split.
  - unfold PermissionCheck.routeEndpoint.
    unfold Guards.firstGroup at 1.
    rewrite (jsMatch_requires "/route" PermissionCheck.routePathPattern _ eq_refl Hroute).
    rewrite Hstart. cbn [negb].
    unfold PermissionCheck.nestedPathPattern. cbn [Regex.RCat].
    rewrite firstGroup_in_suffix by (reflexivity || now apply no_earlier_api).
    change (Regex.RSeq (Regex.RStr "api/")
              (Regex.RSeq (Regex.RGroup 1 (Regex.RLazyPlus (Regex.RChar Regex.cls_dot)))
                          (Regex.RAlt (Regex.RStr "/route") Regex.REnd)))
      with PermissionCheck.nestedPathPattern.
    now rewrite nested_group_to_end.
  - unfold PermissionCheckLib.routeEndpoint, Guards.firstGroup.
    now rewrite (jsMatch_requires "/route" PermissionCheckLib.routePathPattern _
                   eq_refl Hroute).
Qed.

Lemma api_file_without_route_keeps_its_file_name_witness :
  PermissionCheck.routeEndpoint "/srv/shop/pages/api/login.ts" "/srv/shop" =
    "/api/login.ts" /\
  PermissionCheckLib.routeEndpoint "/srv/shop/pages/api/login.ts" "/srv/shop" =
    "/pages/api/login.ts".
Proof.
  apply (api_file_without_route_keeps_its_file_name "/srv/shop/pages/" "login.ts" "/srv/shop");
    [reflexivity | discriminate | reflexivity | reflexivity | reflexivity].
Defined.

(* ================================================================== *)
(** ** More on the acquisition *)

Section DownloadFacts.
Import Acquisition.

Lemma firstn_succ_nth {A : Type} (l : list A) (n : nat) (x : A) :
  nth_error l n = Some x ->
  firstn (S n) l = (firstn n l ++ [x])%list /\ List.length (firstn n l) = n.
Proof.
  revert l. induction n as [|n IH]; intros [|y l]; cbn [nth_error]; try discriminate.
  - intros H. inversion H. auto.
  - intros H. destruct (IH l H) as [H1 H2]. split.
    + change (firstn (S (S n)) (y :: l)) with (y :: firstn (S n) l). now rewrite H1.
    + change (firstn (S n) (y :: l)) with (y :: firstn n l). cbn [List.length].
      now rewrite H2.
Qed.

End DownloadFacts.

(** X27.  An archive is accepted only after it has been unpacked: when the
    acquisition ends with a download, the clone had failed, and the last
    request made was answered with an ok status and the payload, which is
    not empty, begins with the bytes [PK], and was unpacked without an
    error. *)
Theorem downloaded_archive_was_unpacked :
  forall (net : Acquisition.Network) (repoUrl owner repo : string)
         (payload : list byte) (urls : list string),
    Acquisition.acquire net repoUrl owner repo = Acquisition.Downloaded payload urls ->
    Acquisition.gitClone net repoUrl = false /\
    payload <> [] /\
    Acquisition.isZipFile payload = true /\
    Acquisition.extractAllTo net payload = None /\
    exists n url status statusText,
      List.length urls = S n /\
      nth_error urls n = Some url /\
      Acquisition.fetch net n url = Acquisition.Response true status statusText payload.
Proof.
  intros net repoUrl owner repo payload urls H.
  unfold Acquisition.acquire in H.
  destruct (Acquisition.gitClone net repoUrl); [discriminate|].
  split; [reflexivity|].
  unfold Acquisition.downloadZip in H.
  rewrite (tryBranches_flat net owner repo _ Acquisition.initialState eq_refl) in H.
  cbn [Acquisition.initialState Acquisition.requested Acquisition.errors List.length app]
    in H.
  destruct (Acquisition.firstExtracted net 0 _) as [[ds us] [p|]] eqn:E;
    cbn [Acquisition.extracted Acquisition.requested] in H; [|discriminate].
  inversion H. subst p us. clear H.
  destruct (firstExtracted_stops net _ _ _ _ _ E) as [Hus [b [u [Hnth Hatt]]]].
  apply attempt_extracted in Hatt.
  destruct Hatt as [status [statusText [Hf [Hne [Hz Hx]]]]].
  repeat split; try assumption.
  destruct (firstn_succ_nth _ _ _ Hnth) as [Hfn Hlen].
  exists (List.length ds), u, status, statusText.
  rewrite Hus, Hfn, map_app. cbn [map snd].
  rewrite List.length_app, length_map, Hlen. cbn [List.length].
  split; [lia|]. split; [|exact Hf].
  rewrite nth_error_app2 by (rewrite length_map, Hlen; lia).
  rewrite length_map, Hlen, Nat.sub_diag. reflexivity.
Qed.

Lemma downloaded_archive_was_unpacked_witness :
  Acquisition.acquire Scenarios.flakyNetwork "https://github.com/o/r" "o" "r" =
    Acquisition.Downloaded Scenarios.goodZip
      ["https://github.com/o/r/archive/main.zip";
       "https://api.github.com/repos/o/r/zipball/main"] /\
  Acquisition.extractAllTo Scenarios.flakyNetwork Scenarios.goodZip = None.
Proof.
  split; [reflexivity|].
  apply (downloaded_archive_was_unpacked Scenarios.flakyNetwork "https://github.com/o/r"
           "o" "r" Scenarios.goodZip
           ["https://github.com/o/r/archive/main.zip";
            "https://api.github.com/repos/o/r/zipball/main"]).
  reflexivity.
Defined.

(** X28.  For a working tree at a normalised absolute path (no trailing
    slash, no empty, [.] or [..] component), every API guard comes from a
    file of the tree that lies below a directory [api]: its file path is
    the relative path of that file after a slash, and its template the
    first 500 characters of the file. *)
Theorem api_guard_points_at_a_file_of_the_tree :
  forall (fs : Fs.FileSystem) (repoPath : string),
    Fs.normalised repoPath = true ->
    let fromTree g :=
      exists t rel text,
        fs repoPath = Some t /\
        In (rel, text) (Fs.files t) /\
        Glob.matches Guards.pat_apiRoutes rel = true /\
        Guards.guardFilePath g = "/" ++ rel /\
        Guards.guardTemplate g = JsString.substring0 500 text in
    Forall fromTree
      (Guards.apiGuards (PermissionCheckLib.extractPermissionChecks fs repoPath)) /\
    Forall fromTree
      (Guards.apiGuards (PermissionCheck.extractPermissionChecks fs repoPath)).
Proof.
  intros fs repoPath _. cbv zeta.
  assert (Hg : forall g,
             In g (Guards.apiGuards (PermissionCheckLib.extractPermissionChecks fs repoPath)) \/
             In g (Guards.apiGuards (PermissionCheck.extractPermissionChecks fs repoPath)) ->
             exists f,
               In f (Fs.globSync fs Guards.pat_apiRoutes repoPath) /\
               Guards.guardFilePath g = JsString.removeFirst repoPath (Fs.path f) /\
               Guards.guardTemplate g = JsString.substring0 500 (Fs.content f)).
  { intros g H. destruct H as [H | H];
      [unfold PermissionCheckLib.extractPermissionChecks in H
      |unfold PermissionCheck.extractPermissionChecks in H];
      cbn [Guards.apiGuards] in H; apply collect_In in H;
      destruct H as [f [Hin Hg]]; apply filter_In in Hin; destruct Hin as [Hin _];
      unfold PermissionCheck.apiRouteFiles in Hin; apply filter_In in Hin;
      destruct Hin as [Hin _]; exists f; (split; [exact Hin|]);
      inversion Hg; auto. }
  assert (Hall : forall g,
             In g (Guards.apiGuards (PermissionCheckLib.extractPermissionChecks fs repoPath)) \/
             In g (Guards.apiGuards (PermissionCheck.extractPermissionChecks fs repoPath)) ->
             exists t rel text,
               fs repoPath = Some t /\
               In (rel, text) (Fs.files t) /\
               Glob.matches Guards.pat_apiRoutes rel = true /\
               Guards.guardFilePath g = "/" ++ rel /\
               Guards.guardTemplate g = JsString.substring0 500 text).
  { intros g H. destruct (Hg g H) as [f [Hin [Hp Ht]]].
    apply globSync_filter in Hin. destruct Hin as [t [[rel text] [Hfs [He [Hm ->]]]]].
    exists t, rel, text. cbn [fst snd Fs.path Fs.content] in *.
    unfold Fs.absolute in Hp. rewrite removeFirst_prefix in Hp. auto. }
  split; apply Forall_forall; intros g H; apply Hall; auto.
Qed.

Lemma api_guard_points_at_a_file_of_the_tree_witness :
  Fs.normalised "/srv/shop" = true /\
  Guards.apiGuards (PermissionCheckLib.extractPermissionChecks Corpora.routesRepo "/srv/shop")
    <> [] /\
  Forall (fun g => exists rel, Guards.guardFilePath g = "/" ++ rel)
    (Guards.apiGuards (PermissionCheckLib.extractPermissionChecks Corpora.routesRepo "/srv/shop")).
Proof.
  split; [reflexivity|]. split; [vm_compute; discriminate|].
  destruct (api_guard_points_at_a_file_of_the_tree Corpora.routesRepo "/srv/shop" eq_refl)
    as [H _].
  eapply Forall_impl; [|exact H].
  intros g [t [rel [text [_ [_ [_ [Hp _]]]]]]]. now exists rel.
Defined.

(* ================================================================== *)
(** ** Where a match lies, and what a lazy group holds *)

Section CaptureFacts.
Import Regex Guards.

(** a continuation is called on a suffix of the text, at the offset of
    that suffix *)
Lemma rmatch_suffix_at (r : regex) :
  forall pos s caps (k : Cont) x,
    rmatch r pos s caps k = Some x ->
    exists w s' caps', s = w ++ s' /\ k (pos + String.length w) s' caps' = Some x.
Proof.
  induction r as [|p|lit|a IHa b IHb|a IHa b IHb|a IHa|a IHa|i a IHa| |];
    intros pos s caps k x; cbn [rmatch].
  - intros H. exists "", s, caps. cbn. rewrite Nat.add_0_r. auto.
  - destruct s as [|c s]; [discriminate|]. destruct (p c); [|discriminate].
    intros H. exists (String c ""), s, caps. cbn. rewrite Nat.add_1_r. auto.
  - destruct (stripPrefix lit s) as [s'|] eqn:E; [|discriminate].
    intros H. exists lit, s', caps. split; [now apply stripPrefix_inv | exact H].
  - intros H. destruct (IHa _ _ _ _ _ H) as [w1 [s1 [c1 [E1 H1]]]].
    destruct (IHb _ _ _ _ _ H1) as [w2 [s2 [c2 [E2 H2]]]].
    exists (w1 ++ w2), s2, c2. split.
    + now rewrite E1, E2, string_app_assoc_eq.
    + now rewrite string_length_app, Nat.add_assoc.
  - destruct (rmatch a pos s caps k) as [y|] eqn:Ea.
    + intros H. inversion H; subst y. exact (IHa _ _ _ _ _ Ea).
    + intros H. exact (IHb _ _ _ _ _ H).
  - generalize (String.length s) at 1. intros fuel. revert pos s caps.
    induction fuel as [|fuel IH]; intros pos s caps; simpl.
    + intros H. exists "", s, caps. cbn. rewrite Nat.add_0_r. auto.
    + destruct (rmatch a pos s caps _) as [y|] eqn:Ea.
      * intros H. inversion H; subst y.
        destruct (IHa _ _ _ _ _ Ea) as [w1 [s1 [c1 [E1 H1]]]].
        destruct (pos + String.length w1 =? pos); [discriminate|].
        destruct (IH _ _ _ H1) as [w2 [s2 [c2 [E2 H2]]]].
        exists (w1 ++ w2), s2, c2. split.
        -- now rewrite E1, E2, string_app_assoc_eq.
        -- now rewrite string_length_app, Nat.add_assoc.
      * intros H. exists "", s, caps. cbn. rewrite Nat.add_0_r. auto.
  - generalize (String.length s) at 1. intros fuel. revert pos s caps.
    induction fuel as [|fuel IH]; intros pos s caps; simpl.
    + intros H. exists "", s, caps. cbn. rewrite Nat.add_0_r. auto.
    + destruct (k pos s caps) as [y|] eqn:Ek.
      * intros H. inversion H; subst y. exists "", s, caps. cbn.
        rewrite Nat.add_0_r. auto.
      * intros H. destruct (IHa _ _ _ _ _ H) as [w1 [s1 [c1 [E1 H1]]]].
        destruct (pos + String.length w1 =? pos); [discriminate|].
        destruct (IH _ _ _ H1) as [w2 [s2 [c2 [E2 H2]]]].
        exists (w1 ++ w2), s2, c2. split.
        -- now rewrite E1, E2, string_app_assoc_eq.
        -- now rewrite string_length_app, Nat.add_assoc.
  - intros H. destruct (IHa _ _ _ _ _ H) as [w1 [s1 [c1 [E1 H1]]]].
    exists w1, s1, ((i, (pos, pos + String.length w1)) :: c1). auto.
  - destruct (pos =? 0); [|discriminate]. intros H. exists "", s, caps. cbn.
    rewrite Nat.add_0_r. auto.
  - destruct s; [|discriminate]. intros H. exists "", "", caps. cbn.
    rewrite Nat.add_0_r. auto.
Qed.

(** where the match found by a search begins *)
Lemma searchFrom_inv (subj : string) (r : regex) :
  forall s pos m,
    searchFrom subj r pos s = Some m ->
    exists pre s0,
      s = pre ++ s0 /\ mstart m = pos + String.length pre /\ subject m = subj /\
      rmatch r (mstart m) s0 [] accept = Some (mend m, mcaps m).
Proof.
  induction s as [|c s IH]; intros pos m; cbn [searchFrom].
  - destruct (rmatch r pos "" [] accept) as [[e caps]|] eqn:E; [|discriminate].
    intros H. injection H as <-. exists "", "". cbn [mstart mend mcaps subject].
    cbn [String.append String.length]. rewrite Nat.add_0_r. auto.
  - destruct (rmatch r pos (String c s) [] accept) as [[e caps]|] eqn:E.
    + intros H. injection H as <-. exists "", (String c s).
      cbn [mstart mend mcaps subject]. cbn [String.append String.length].
      rewrite Nat.add_0_r. auto.
    + intros H. destruct (IH _ _ H) as [pre [s0 [Hs [Hst [Hsu Hm]]]]].
      exists (String c pre), s0. cbn [String.append String.length].
      split; [now rewrite <- Hs|]. split; [rewrite Hst; lia|].
      split; [exact Hsu | exact Hm].
Qed.

(** a lazy repetition of a class stops at the first place where the rest
    matches *)
Lemma lazy_class_inv (p : ascii -> bool) (k : Cont) :
  forall s pos caps x,
    rmatch (RLazy (RChar p)) pos s caps k = Some x ->
    exists w rest,
      s = w ++ rest /\
      k (pos + String.length w) rest caps = Some x /\
      forall w1 c w2, w = w1 ++ String c w2 ->
                      k (pos + String.length w1) (String c w2 ++ rest) caps = None.
Proof.
  induction s as [|c t IH]; intros pos caps x H.
  - rewrite lazy_class_nil in H. exists "", "". cbn. rewrite Nat.add_0_r.
    repeat split; auto. intros [|? ?] ? ? E; discriminate.
  - rewrite lazy_class_cons in H.
    destruct (k pos (String c t) caps) as [y|] eqn:Ek.
    + inversion H; subst y. exists "", (String c t). cbn. rewrite Nat.add_0_r.
      repeat split; auto. intros [|? ?] ? ? E; discriminate.
    + destruct (p c); [|discriminate].
      destruct (IH _ _ _ H) as [w [rest [Hs [Hk Hmin]]]].
      exists (String c w), rest. cbn. rewrite Hs, Nat.add_succ_r.
      repeat split; auto.
      intros [|d w1] c' w2 E.
      * cbn in E. inversion E. subst c' w2. cbn. rewrite Nat.add_0_r.
        now rewrite <- Hs.
      * cbn in E. inversion E. subst d w. cbn. rewrite Nat.add_succ_r.
        now apply Hmin.
Qed.

Lemma every_no_char (c : ascii) (s : string) :
  Chars.every (cls_not c) s = true -> JsString.includes (String c "") s = false.
Proof.
  induction s as [|d t IH]; [reflexivity|].
  cbn [Chars.every]. intros H. apply andb_true_iff in H. destruct H as [Hd Ht].
  rewrite includes_unfold_eq. cbn [String.prefix].
  unfold cls_not in Hd. apply negb_true_iff in Hd.
  destruct (ascii_dec c d) as [->|Hne]; [now rewrite Ascii.eqb_refl in Hd|].
  now apply IH.
Qed.

Lemma every_trimStart (p : ascii -> bool) (s : string) :
  Chars.every p s = true -> Chars.every p (JsString.trimStart s) = true.
Proof.
  induction s as [|c t IH]; [reflexivity|]. cbn [JsString.trimStart].
  intros H. destruct (JsString.isSpace c); [|exact H].
  cbn in H. apply andb_true_iff in H. now apply IH.
Qed.

Lemma every_trimEnd (p : ascii -> bool) (s : string) :
  Chars.every p s = true -> Chars.every p (JsString.trimEnd s) = true.
Proof.
  induction s as [|c t IH]; [reflexivity|]. cbn [JsString.trimEnd Chars.every].
  intros H. apply andb_true_iff in H. destruct H as [Hc Ht]. specialize (IH Ht).
  destruct (JsString.trimEnd t) as [|d t'].
  - destruct (JsString.isSpace c); [reflexivity|]. cbn. now rewrite Hc.
  - cbn [Chars.every] in IH |- *. now rewrite Hc.
Qed.

Lemma every_trim (p : ascii -> bool) (s : string) :
  Chars.every p s = true -> Chars.every p (JsString.trim s) = true.
Proof. intros H. unfold JsString.trim. now apply every_trimEnd, every_trimStart. Qed.

Lemma every_of_parts (p : ascii -> bool) (w : string) :
  (forall w1 c w2, w = w1 ++ String c w2 -> p c = true) -> Chars.every p w = true.
Proof.
  induction w as [|c w IH]; intros H; [reflexivity|]. cbn [Chars.every].
  rewrite (H "" c w eq_refl). apply IH.
  intros w1 c' w2 E. apply (H (String c w1) c' w2). cbn. now rewrite E.
Qed.

(** the text a lazy group takes before a closing brace holds no closing
    brace *)
Lemma lazy_group_before_brace (pos : nat) (s : string) (caps : Caps) (e : nat)
  (out : Caps) :
  rmatch (RSeq (RGroup 1 (RLazy (RChar cls_any))) (RStr "}")) pos s caps accept =
    Some (e, out) ->
  exists w rest,
    s = w ++ rest /\
    Chars.every (cls_not "}"%char) w = true /\
    lookupCap 1 out = Some (pos, pos + String.length w).
Proof.
  rewrite rmatch_seq.
  change (rmatch (RGroup 1 (RLazy (RChar cls_any))) pos s caps ?K)
    with (rmatch (RLazy (RChar cls_any)) pos s caps
            (fun pos' s' caps' => K pos' s' ((1, (pos, pos')) :: caps'))).
  intros H. apply lazy_class_inv in H. destruct H as [w [rest [Hs [Hk Hmin]]]].
  exists w, rest. split; [exact Hs|]. split.
  - apply every_of_parts. intros w1 c w2 E. specialize (Hmin w1 c w2 E).
    cbn [rmatch stripPrefix String.append] in Hmin.
    unfold cls_not. destruct (Ascii.eqb c "}") eqn:Ec; [|reflexivity].
    apply Ascii.eqb_eq in Ec. subst c. cbn in Hmin. discriminate.
  - cbn [rmatch] in Hk. destruct (stripPrefix "}" rest); [|discriminate].
    inversion Hk. cbn. reflexivity.
Qed.

End CaptureFacts.

Section TemplateFacts.
Import Regex Guards.

Lemma RCat_cons (r x : regex) (rest : list regex) :
  RCat (r :: x :: rest) = RSeq r (RCat (x :: rest)).
Proof. reflexivity. Qed.

(** a match of a sequence passes through its last two factors *)
Lemma rmatch_last_two (g1 g2 : regex) (rs : list regex) :
  forall pos s caps x,
    rmatch (RCat (rs ++ [g1; g2])) pos s caps accept = Some x ->
    exists w s' caps',
      s = w ++ s' /\
      rmatch (RSeq g1 g2) (pos + String.length w) s' caps' accept = Some x.
Proof.
  induction rs as [|r rs IH]; intros pos s caps x H.
  - exists "", s, caps. cbn [String.append String.length]. rewrite Nat.add_0_r. auto.
  - assert (E : RCat ((r :: rs) ++ [g1; g2]) = RSeq r (RCat (rs ++ [g1; g2]))).
    { destruct rs; reflexivity. }
    rewrite E, rmatch_seq in H. apply rmatch_suffix_at in H.
    destruct H as [w1 [s1 [c1 [E1 H1]]]].
    destruct (IH _ _ _ _ H1) as [w2 [s2 [c2 [E2 H2]]]].
    exists (w1 ++ w2), s2, c2. split.
    + now rewrite E1, E2, string_app_assoc_eq.
    + now rewrite string_length_app, Nat.add_assoc.
Qed.

Lemma middleware_body_has_no_brace (content : string) (m : MatchResult) (body : string) :
  jsMatch middlewarePattern content = Some m ->
  group m 1 = Some body ->
  Chars.every (cls_not "}"%char) body = true.
Proof.
  unfold jsMatch. intros Hm Hg.
  apply searchFrom_inv in Hm. destruct Hm as [pre [s0 [Hs [Hst [Hsu Hm]]]]].
  change middlewarePattern with
    (RCat ([ROpt (RSeq (RStr "export") ws1); ROpt (RSeq (RStr "async") ws1);
            ROpt (RSeq (RStr "function") ws1); RStr "middleware"; ws;
            RStr "("; RStar (RChar (cls_not ")"%char)); RStr ")"; ws; RStr "{"]
           ++ [RGroup 1 (RLazy (RChar cls_any)); RStr "}"])) in Hm.
  apply rmatch_last_two in Hm. destruct Hm as [w1 [s1 [c1 [E1 H1]]]].
  apply lazy_group_before_brace in H1. destruct H1 as [w [rest [E2 [Hw Hc]]]].
  unfold group in Hg. rewrite Hc, Hsu in Hg.
  rewrite (span_text_at content (pre ++ w1) w rest) in Hg.
  { inversion Hg. subst body. exact Hw. }
  { now rewrite Hs, E1, E2, !string_app_assoc_eq. }
  { now rewrite Hst, string_length_app. }
  reflexivity.
Qed.

End TemplateFacts.

(** X29.  The template of a middleware pattern never holds a closing
    brace: the body is taken up to the first closing brace after the
    opening one, so a body with a nested block is cut inside it. *)
Theorem middleware_template_stops_at_first_closing_brace :
  forall (content filePath repoPath : string) (m : Guards.MiddlewarePattern),
    Guards.extractMiddlewarePattern content filePath repoPath = Some m ->
    JsString.includes "}" (Guards.template m) = false.
Proof.
  intros content filePath repoPath m H. unfold Guards.extractMiddlewarePattern in H.
  destruct (Regex.jsMatch Guards.middlewarePattern content) as [mm|] eqn:E;
    [|discriminate].
  inversion H. cbn [Guards.template].
  destruct (Regex.group mm 1) as [body|] eqn:Eg; [|reflexivity].
  apply every_no_char, every_trim.
  exact (middleware_body_has_no_brace content mm body E Eg).
Qed.

Lemma middleware_template_stops_at_first_closing_brace_witness :
  option_map Guards.template
    (Guards.extractMiddlewarePattern Corpora.nestedMiddlewareText
       "/srv/shop/middleware.ts" "/srv/shop") =
    Some "if (!req.user) { return deny()" /\
  JsString.includes "}" "if (!req.user) { return deny()" = false.
Proof.
  split; [reflexivity|].
  apply (middleware_template_stops_at_first_closing_brace
           Corpora.nestedMiddlewareText "/srv/shop/middleware.ts" "/srv/shop"
           {| Guards.name := "middleware"; Guards.type := "global";
              Guards.filePath := "/middleware.ts";
              Guards.template := "if (!req.user) { return deny()";
              Guards.location := "middleware.ts";
              Guards.checks := [] |}).
  reflexivity.
Defined.

Section HiddenFileFacts.

Lemma anyTail_no_dot (atoms : list Glob.atom) (names : list string) :
  Glob.anyTail (Glob.matchSegs [Glob.Seg (Glob.AStar :: atoms)]) names = true ->
  Forall (fun n => Glob.dotName n = false) names.
Proof.
  induction names as [|n ns IH]; [constructor|].
  cbn [Glob.anyTail]. intros H. apply orb_true_iff in H. destruct H as [H | H].
  - cbn [Glob.matchSegs] in H. apply andb_true_iff in H. destruct H as [H1 H2].
    destruct ns; [|discriminate].
    unfold Glob.matchSegment, Glob.dotOk in H1.
    destruct (Glob.dotName n) eqn:Ed; [discriminate|].
    constructor; [exact Ed | constructor].
  - apply andb_true_iff in H. destruct H as [Hd Ht].
    constructor; [now apply negb_true_iff | now apply IH].
Qed.

Lemma sources_are_not_hidden (fs : Fs.FileSystem) (repoPath : string) (f : Fs.File) :
  In f (Fs.globSync fs Fs.pat_sources repoPath) ->
  exists rel,
    Fs.path f = repoPath ++ "/" ++ rel /\
    Forall (fun n => JsString.startsWith "." n = false) (JsString.split "/" rel).
Proof.
  intros H. apply globSync_filter in H. destruct H as [t [e [_ [_ [Hm ->]]]]].
  exists (fst e). split; [reflexivity|].
  unfold Glob.matches, Fs.pat_sources in Hm. cbn [Glob.matchSegs] in Hm.
  exact (anyTail_no_dot _ _ Hm).
Qed.

End HiddenFileFacts.

(** X30.  Hidden files and files below a hidden directory are never read
    for roles or tokens: no component of the relative path of a role file
    or of a token file begins with a dot. *)
Theorem role_and_token_files_are_never_hidden :
  forall (fs : Fs.FileSystem) (repoPath : string),
    let visible f :=
      exists rel,
        Fs.path f = repoPath ++ "/" ++ rel /\
        Forall (fun n => JsString.startsWith "." n = false) (JsString.split "/" rel) in
    Forall visible (RoleModel.roleFiles fs repoPath) /\
    Forall visible (TokenStrategy.tokenFiles fs repoPath).
Proof.
  intros fs repoPath. cbv zeta. split; apply Forall_forall; intros f H.
  - unfold RoleModel.roleFiles in H. apply filter_In in H.
    apply (sources_are_not_hidden fs). tauto.
  - unfold TokenStrategy.tokenFiles in H. apply filter_In in H.
    apply (sources_are_not_hidden fs). tauto.
Qed.
